(** * Graphay: the invoice approval agent of [discord1.py]

    A shallow embedding of the approval state machine of
    [InvoiceApprovalAgent] ([discord1.py]) and of the ledger client
    ([src/eth/etherscan_client.py]), with the properties of the
    specification stated and settled against it.

    Conventions of the embedding.
    - Text is a [string] of bytes; the case conversions, the whitespace
      class and the regular expressions are those of Python on ASCII text.
      A property that depends on how Python treats the characters of a
      text it did not choose is stated for ASCII text ([Py.isascii]).
    - A time is a number of microseconds since [datetime.min]; a [float]
      is its mantissa and exponent, and a division that Python rounds is
      rounded here, to 53 bits, ties to even.
    - A record of the [invoice_states] table is an [InvoiceState]; the
      JSON text stored in the table is determined by the record, so the
      table holds records.
    - The handler works on the dict it obtained from [json.loads]: a
      private copy.  Only [save_state] changes the table.
    - Every call that changes something outside the process or asks
      the ledger (database write, chat send, spreadsheet cell update,
      HTTP request to the ledger, sleep) is appended to a trace, and what
      the outside world answers is a function of the trace so far.  Two
      look-ups are read without a trace: what [guild.fetch_member]
      answers is a field of the message, and what the language model
      answers is the resolver of [Env].
    - A handler, and a run of the reminder loop, is followed from its
      first statement to its last; the interleaving of coroutines at
      their [await]s is not modelled. *)

From Stdlib Require Import ZArith Ascii String DecimalString Lia SpecFloat.
From stdpp Require Import base option list strings gmap.

Local Open Scope Z_scope.

(* ===================================================================== *)
(** * Python text operations (ASCII) *)
(* ===================================================================== *)

Module Py.

Definition code (c : ascii) : N := N_of_ascii c.

Definition between (lo hi c : ascii) : bool :=
  ((code lo <=? code c) && (code c <=? code hi))%N.

Definition is_upper (c : ascii) : bool := between "A" "Z" c.
Definition is_lower (c : ascii) : bool := between "a" "z" c.
Definition is_digit (c : ascii) : bool := between "0" "9" c.

(** [str.isspace] on ASCII: TAB LF VT FF CR, FS GS RS US, and space. *)
Definition is_space (c : ascii) : bool :=
  ((9 <=? code c) && (code c <=? 13) || (28 <=? code c) && (code c <=? 32))%N.

Definition lower_char (c : ascii) : ascii :=
  if is_upper c then ascii_of_N (code c + 32) else c.
Definition upper_char (c : ascii) : ascii :=
  if is_lower c then ascii_of_N (code c - 32) else c.

Fixpoint map_chars (f : ascii -> ascii) (s : string) : string :=
  match s with
  | EmptyString => EmptyString
  | String c r => String (f c) (map_chars f r)
  end.

(** [s.lower()] and [s.upper()] *)
Definition lower : string -> string := map_chars lower_char.
Definition upper : string -> string := map_chars upper_char.

(** [s.lstrip()], [s.rstrip()], [s.strip()] *)
Fixpoint lstrip (s : string) : string :=
  match s with
  | String c r => if is_space c then lstrip r else s
  | EmptyString => EmptyString
  end.

Fixpoint rstrip (s : string) : string :=
  match s with
  | EmptyString => EmptyString
  | String c r =>
      match rstrip r with
      | EmptyString => if is_space c then EmptyString else String c EmptyString
      | r' => String c r'
      end
  end.

Definition strip (s : string) : string := lstrip (rstrip s).

(** [needle in s] *)
Fixpoint contains (needle s : string) : bool :=
  String.prefix needle s ||
  match s with
  | EmptyString => false
  | String _ r => contains needle r
  end.

(** [s.split(' ', 1)]: cut at the first space, if there is one. *)
Fixpoint split_space1 (s : string) : string * option string :=
  match s with
  | EmptyString => (EmptyString, None)
  | String c r =>
      if Ascii.eqb c " " then (EmptyString, Some r)
      else let '(a, b) := split_space1 r in (String c a, b)
  end.

(** Truth value of a string, and of an optional string ([None] is false). *)
Definition truthy (s : string) : bool :=
  match s with EmptyString => false | _ => true end.
Definition truthy_opt (o : option string) : bool :=
  match o with Some s => truthy s | None => false end.

(** [str(x)] for an integer. *)
Definition str_of_Z (z : Z) : string := NilZero.string_of_int (Z.to_int z).

(** [str(x)] / f-string rendering of an optional string. *)
Definition str_opt (o : option string) : string :=
  match o with Some s => s | None => "None" end.

(** [s.isascii()]: no byte above 127.  Python then holds these very
    characters, and [str.strip], [str.lower], [str.upper], and [re] with
    its [IGNORECASE] and its [\s], treat them as this module and [Re]
    do.  Other text is outside the model: Python also strips U+00A0,
    upper-cases U+017F to S, and lets [[A-Z]] match U+212A. *)
Fixpoint isascii (s : string) : bool :=
  match s with
  | EmptyString => true
  | String c r => (code c <? 128)%N && isascii r
  end.

(** A finite [float]: the integer [mantissa] times two to the
    [exponent]. *)
Record float := mkFloat { mantissa : Z; exponent : Z }.

Definition zero : float := mkFloat 0 0.

(** [x > 0] *)
Definition positive (x : float) : bool := 0 <? mantissa x.

(** [max(0.0, x)] *)
Definition max0 (x : float) : float := if positive x then x else zero.

(** [floor(log2(a / b))] for positive integers: the difference of the
    two bit lengths, or one less. *)
Definition log2_ratio (a b : Z) : Z :=
  let l := Z.log2 a - Z.log2 b in
  if (if 0 <=? l then b * 2 ^ l <=? a else b <=? a * 2 ^ (- l)) then l else l - 1.

(** The float nearest to [a / b] for positive integers: the quotient is
    scaled to lie between [2^52] and [2^53] and rounded to an integer,
    a tie going to the even one.  The quotients met here are far from
    the ends of the exponent range. *)
Definition round_ratio (a b : Z) : float :=
  let e := log2_ratio a b - 52 in
  let num := if 0 <=? e then a else a * 2 ^ (- e) in
  let den := if 0 <=? e then b * 2 ^ e else b in
  let q := num / den in
  let r := num mod den in
  mkFloat (if (den <? 2 * r) || ((2 * r =? den) && Z.odd q) then q + 1 else q) e.

(** [a / b], the true division of integers ([b] positive): the quotient,
    correctly rounded. *)
Definition true_div (a b : Z) : float :=
  if a =? 0 then zero
  else if 0 <? a then round_ratio a b
  else mkFloat (- mantissa (round_ratio (- a) b)) (exponent (round_ratio (- a) b)).

(** [x / d], the division of a float by a positive integer that a float
    holds exactly: the quotient of the two values, correctly rounded. *)
Definition div (x : float) (d : Z) : float :=
  if 0 <=? exponent x then true_div (mantissa x * 2 ^ exponent x) d
  else true_div (mantissa x) (d * 2 ^ (- exponent x)).

(** [int(x // d)] for [x >= 0] and a positive integer [d]: the whole
    part of the quotient of the values.  Python computes it without
    error for the floats below [2**53]. *)
Definition floor_div (x : float) (d : Z) : Z :=
  if 0 <=? exponent x then (mantissa x * 2 ^ exponent x) / d
  else mantissa x / (d * 2 ^ (- exponent x)).

(** [x % d] for [x >= 0] and a positive integer [d]: what [x // d]
    leaves, which a float holds exactly. *)
Definition fmod (x : float) (d : Z) : float :=
  if 0 <=? exponent x then mkFloat ((mantissa x * 2 ^ exponent x) mod d) 0
  else mkFloat (mantissa x mod (d * 2 ^ (- exponent x))) (exponent x).

(** [x >= n] for an integer [n]: Python compares the two values. *)
Definition ge_int (x : float) (n : Z) : bool :=
  if 0 <=? exponent x then n <=? mantissa x * 2 ^ exponent x
  else n * 2 ^ (- exponent x) <=? mantissa x.

(** The same value as a float of the Standard Library's IEEE 754
    model. *)
Definition same_value (x : float) (y : spec_float) : bool :=
  match y with
  | S754_zero _ => mantissa x =? 0
  | S754_finite s m e =>
      let lo := Z.min e (exponent x) in
      ((if s then Z.neg m else Z.pos m) * 2 ^ (e - lo)
       =? mantissa x * 2 ^ (exponent x - lo))
  | _ => false
  end.

(** An integer as a float of that model, with all its bits. *)
Definition exact (a : Z) : spec_float :=
  match a with
  | Z0 => S754_zero false
  | Zpos p => S754_finite false p 0
  | Zneg p => S754_finite true p 0
  end.

End Py.

(* ===================================================================== *)
(** * The fragment of [re] the handler uses *)
(* ===================================================================== *)

(** Character sets, sequences, greedy bounded repetition of a character
    set, and a capturing group: every pattern of [discord1.py] is in this
    fragment.  Matching is Python's: leftmost, greedy, backtracking.  All
    the searches of the handler pass [re.IGNORECASE]. *)
Module Re.

Inductive cset :=
| Lit (c : ascii)                 (* a literal character *)
| Range (lo hi : ascii)           (* lo-hi inside a class *)
| Space                           (* \s *)
| Union (a b : cset).             (* [ab] *)

Fixpoint mem (cs : cset) (c : ascii) : bool :=
  match cs with
  | Lit l => Ascii.eqb l c
  | Range lo hi => Py.between lo hi c
  | Space => Py.is_space c
  | Union a b => mem a c || mem b c
  end.

(** Membership under [re.IGNORECASE]: the character or one of its case
    variants is in the set. *)
Definition mem_i (cs : cset) (c : ascii) : bool :=
  mem cs c || mem cs (Py.lower_char c) || mem cs (Py.upper_char c).

Inductive regex :=
| Eps
| Chr (cs : cset)                               (* one character *)
| Rep (cs : cset) (lo : nat) (hi : option nat)  (* greedy cs{lo,hi} *)
| Cat (r1 r2 : regex)
| Grp (r : regex).                              (* group 1 *)

(** The first [length s - length rest] characters of [s]: the text a
    group consumed when it started at [s] and left [rest]. *)
Definition consumed (s rest : string) : string :=
  String.substring 0 (String.length s - String.length rest) s.

Definition room (hi : option nat) : bool :=
  match hi with Some O => false | _ => true end.
Definition less (hi : option nat) : option nat :=
  match hi with Some n => Some (Nat.pred n) | None => None end.

Section Backtrack.
Context {R : Type}.

(** Greedy [cs{lo,hi}]: take one more character while allowed, and
    give a character back whenever the rest of the pattern fails. *)
Fixpoint greedy (cs : cset) (lo : nat) (hi : option nat) (s : string)
         (k : string -> option R) {struct s} : option R :=
  let stop := match lo with O => k s | S _ => None end in
  match s with
  | String c r =>
      if room hi && mem_i cs c then
        match greedy cs (Nat.pred lo) (less hi) r k with
        | Some x => Some x
        | None => stop
        end
      else stop
  | EmptyString => stop
  end.

Fixpoint backtrack (r : regex) (s : string) (g : option string)
         (k : string -> option string -> option R) : option R :=
  match r with
  | Eps => k s g
  | Chr cs =>
      match s with
      | String c rest => if mem_i cs c then k rest g else None
      | EmptyString => None
      end
  | Rep cs lo hi => greedy cs lo hi s (fun rest => k rest g)
  | Cat r1 r2 => backtrack r1 s g (fun s1 g1 => backtrack r2 s1 g1 k)
  | Grp r1 => backtrack r1 s g (fun s1 _ => k s1 (Some (consumed s s1)))
  end.
End Backtrack.

(** A successful match, reduced to what the handler reads of it:
    [group(1)] ([None] when the pattern has no group). *)
Definition match_at (r : regex) (s : string) : option (option string) :=
  backtrack r s None (fun _ g => Some g).

(** [re.fullmatch(r, s, re.IGNORECASE)] *)
Definition fullmatch (r : regex) (s : string) : option (option string) :=
  backtrack r s None
    (fun rest g => match rest with EmptyString => Some g | _ => None end).

(** [re.search(r, s, re.IGNORECASE)]: the first position with a match. *)
Fixpoint search (r : regex) (s : string) : option (option string) :=
  match match_at r s with
  | Some g => Some g
  | None =>
      match s with
      | EmptyString => None
      | String _ rest => search r rest
      end
  end.

(** A literal word, character by character. *)
Fixpoint word (w : string) : regex :=
  match w with
  | EmptyString => Eps
  | String c r => Cat (Chr (Lit c)) (word r)
  end.

Fixpoint seq (rs : list regex) : regex :=
  match rs with
  | [] => Eps
  | r :: rest => Cat r (seq rest)
  end.

Fixpoint one_of (cs : string) : cset :=
  match cs with
  | EmptyString => Range "001" "000"       (* the empty set *)
  | String c EmptyString => Lit c
  | String c r => Union (Lit c) (one_of r)
  end.

Definition opt (cs : cset) : regex := Rep cs 0 (Some 1%nat).
Definition plus (cs : cset) : regex := Rep cs 1 None.

End Re.

(* ===================================================================== *)
(** * Data model *)
(* ===================================================================== *)

(** A value of the extracted invoice payload: the mapper of the pipeline
    fills it with text or [None]. *)
Inductive jval :=
| JNull
| JStr (s : string).

(** [InvoiceState] (a [TypedDict]); [process_invoice] creates it with all
    fifteen keys.  The amount is kept as the integer number of wei [w] the
    ledger returned: the source holds the float [w / 10**18]. *)
Record InvoiceState := mkState {
  invoice_data : gmap string jval;
  discord_thread_id : option string;
  discord_message_id : option string;
  approval_status : string;
  cost_center : option string;
  approver : option string;
  rejection_reason : option string;
  payment_status : string;
  transaction_id : option string;
  paid_amount_eth : option Z;
  reminder_count : Z;
  last_reminder : option string;
  spreadsheet_row : option Z;
  sla_message_id : option string;
  approval_sla_hours : option Z
}.

(** [state[key] = v], one definition per key the code assigns. *)
Definition set_approval_status (v : string) (s : InvoiceState) : InvoiceState :=
  mkState (invoice_data s) (discord_thread_id s) (discord_message_id s) v
    (cost_center s) (approver s) (rejection_reason s) (payment_status s)
    (transaction_id s) (paid_amount_eth s) (reminder_count s) (last_reminder s)
    (spreadsheet_row s) (sla_message_id s) (approval_sla_hours s).

Definition set_cost_center (v : option string) (s : InvoiceState) : InvoiceState :=
  mkState (invoice_data s) (discord_thread_id s) (discord_message_id s)
    (approval_status s) v (approver s) (rejection_reason s) (payment_status s)
    (transaction_id s) (paid_amount_eth s) (reminder_count s) (last_reminder s)
    (spreadsheet_row s) (sla_message_id s) (approval_sla_hours s).

Definition set_approver (v : option string) (s : InvoiceState) : InvoiceState :=
  mkState (invoice_data s) (discord_thread_id s) (discord_message_id s)
    (approval_status s) (cost_center s) v (rejection_reason s) (payment_status s)
    (transaction_id s) (paid_amount_eth s) (reminder_count s) (last_reminder s)
    (spreadsheet_row s) (sla_message_id s) (approval_sla_hours s).

Definition set_rejection_reason (v : option string) (s : InvoiceState) : InvoiceState :=
  mkState (invoice_data s) (discord_thread_id s) (discord_message_id s)
    (approval_status s) (cost_center s) (approver s) v (payment_status s)
    (transaction_id s) (paid_amount_eth s) (reminder_count s) (last_reminder s)
    (spreadsheet_row s) (sla_message_id s) (approval_sla_hours s).

Definition set_payment_status (v : string) (s : InvoiceState) : InvoiceState :=
  mkState (invoice_data s) (discord_thread_id s) (discord_message_id s)
    (approval_status s) (cost_center s) (approver s) (rejection_reason s) v
    (transaction_id s) (paid_amount_eth s) (reminder_count s) (last_reminder s)
    (spreadsheet_row s) (sla_message_id s) (approval_sla_hours s).

Definition set_transaction_id (v : option string) (s : InvoiceState) : InvoiceState :=
  mkState (invoice_data s) (discord_thread_id s) (discord_message_id s)
    (approval_status s) (cost_center s) (approver s) (rejection_reason s)
    (payment_status s) v (paid_amount_eth s) (reminder_count s) (last_reminder s)
    (spreadsheet_row s) (sla_message_id s) (approval_sla_hours s).

Definition set_paid_amount_eth (v : option Z) (s : InvoiceState) : InvoiceState :=
  mkState (invoice_data s) (discord_thread_id s) (discord_message_id s)
    (approval_status s) (cost_center s) (approver s) (rejection_reason s)
    (payment_status s) (transaction_id s) v (reminder_count s) (last_reminder s)
    (spreadsheet_row s) (sla_message_id s) (approval_sla_hours s).

Definition set_reminder_count (v : Z) (s : InvoiceState) : InvoiceState :=
  mkState (invoice_data s) (discord_thread_id s) (discord_message_id s)
    (approval_status s) (cost_center s) (approver s) (rejection_reason s)
    (payment_status s) (transaction_id s) (paid_amount_eth s) v (last_reminder s)
    (spreadsheet_row s) (sla_message_id s) (approval_sla_hours s).

Definition set_last_reminder (v : option string) (s : InvoiceState) : InvoiceState :=
  mkState (invoice_data s) (discord_thread_id s) (discord_message_id s)
    (approval_status s) (cost_center s) (approver s) (rejection_reason s)
    (payment_status s) (transaction_id s) (paid_amount_eth s) (reminder_count s) v
    (spreadsheet_row s) (sla_message_id s) (approval_sla_hours s).

(** A [datetime]: the microseconds of its wall clock since
    [datetime.min], and whether it carries a UTC offset. *)
Record datetime := mkDatetime { ticks : Z; aware : bool }.

(** The part of [Config] the state machine reads. *)
Record Config := mkConfig {
  approving_team_role_id : Z;
  reminder_interval_hours : Z;
  max_reminders : Z;
  cfg_approval_sla_hours : Z
}.

(** The dict [parse_message_with_llm] returns, with its four keys. *)
Record Parsed := mkParsed {
  p_intent : option string;
  p_cost_center : option string;
  p_reason : option string;
  p_transaction_id : option string
}.

(** What the handler reads of a [discord.Message] in a thread.
    [guild_member_roles] is the answer of [guild.fetch_member]: [None]
    when the message has no guild or the fetch raises.  The handler
    awaits that look-up only when [author_roles] lacks the approver
    role; it leaves no event in the trace. *)
Record Message := mkMessage {
  channel_id : string;
  author_display_name : string;
  author_name : string;
  author_roles : list Z;
  guild_member_roles : option (list Z);
  content : string
}.

(** A value shown in an embed field or written to a spreadsheet cell. *)
Inductive shown :=
| Text (s : string)
| OptText (o : option string)       (* a state value that may be None *)
| Amount (o : option Z)             (* paid_amount_eth *)
| Now.                              (* datetime.now().isoformat() *)

(** What is sent to a channel: plain content, or an embed with its
    title, description, colour and fields (the footer, which only holds
    the wall-clock time of sending, is left out). *)
Inductive Payload :=
| Content (text : string)
| Embed (title description : string) (color : Z) (fields : list (string * shown)).

(** The request [_etherscan_get] sends (the API key apart). *)
Record request := mkRequest {
  rq_module : string;
  rq_action : string;
  rq_txhash : string
}.

(** A decoded JSON document; an object lists its members in document
    order, and [json.loads] keeps the last member of a repeated name. *)
#[warnings="-register-all"]
Inductive json :=
| JsNull
| JsBool (b : bool)
| JsNum (z : Z)
| JsString (s : string)
| JsArray (items : list json)
| JsObject (members : list (string * json)).

Inductive exn :=
| NameError (name : string)
| KeyError (key : string)
| ValueError (msg : string)
| TypeError
| AttributeError
| OverflowError
| OperationalError (msg : string)       (* sqlite3.OperationalError *)
| RuntimeError (msg : string)
| OtherError (what : string).           (* any other Exception *)

Inductive outcome (A : Type) :=
| Ret (a : A)
| Raise (e : exn).
Arguments Ret {A} a.
Arguments Raise {A} e.

(** Calls that leave the process, in the order they are made. *)
Inductive Event :=
| DbWrite (key : option string) (st : InvoiceState)  (* INSERT OR REPLACE + commit *)
| Send (channel : string) (p : Payload)              (* channel.send *)
| Mirror (st : InvoiceState)                         (* update_spreadsheet_row entered *)
| UpdateCell (row col : Z) (v : shown)               (* worksheet.update_cell *)
| HttpGet (rq : request)                             (* requests.get *)
| Sleep (ms : Z).                                    (* time.sleep *)

(** The outside world: what each call answers, given the calls so far
    (the call itself included, last). *)
Record Env := mkEnv {
  config : Config;
  (** the intent resolver: LLM call with its heuristic fallback *)
  parse_message_with_llm : string -> InvoiceState -> Parsed;
  (** [cursor.execute] and [conn.commit] of a write *)
  db_execute : list Event -> outcome unit;
  (** [channel.send], returning the id of the new message *)
  channel_send : list Event -> outcome string;
  (** [worksheet.update_cell] *)
  update_cell : list Event -> outcome unit;
  (** [requests.get], [raise_for_status] and [resp.json()] *)
  requests_get : list Event -> outcome json;
  (** [datetime.fromisoformat] on a text that gives a naive datetime
      (one without UTC offset): its microseconds since [datetime.min];
      [None] for every other text *)
  fromisoformat : string -> option Z;
  (** [datetime.fromisoformat] on a text that gives an aware datetime
      (one with a UTC offset): the microseconds of its own wall clock
      since [datetime.min]; [None] for every other text.  A text that
      neither oracle answers makes [datetime.fromisoformat] raise. *)
  fromisoformat_aware : string -> option Z;
  (** [datetime.now()], a naive datetime, in microseconds since
      [datetime.min] *)
  now : Z
}.

(** The process and its database.  [invoice_states] lists the rows of the
    table in rowid order; the key column is [None] for SQL NULL. *)
Record World := mkWorld {
  shutting_down : bool;     (* self.shutting_down or discord_client.is_closed() *)
  invoice_states : list (option string * InvoiceState);
  thread_map : gmap string (option string);
  trace : list Event
}.

Definition log (e : Event) (w : World) : World :=
  mkWorld (shutting_down w) (invoice_states w) (thread_map w) (trace w ++ [e]).

Definition set_invoice_states (rows : list (option string * InvoiceState))
    (w : World) : World :=
  mkWorld (shutting_down w) rows (thread_map w) (trace w).

(* ===================================================================== *)
(** * Computations: world passing, with exceptions *)
(* ===================================================================== *)

Definition M (A : Type) : Type := World -> outcome A * World.

Definition ret {A} (a : A) : M A := fun w => (Ret a, w).
Definition raise {A} (e : exn) : M A := fun w => (Raise e, w).
Definition bind {A B} (c : M A) (f : A -> M B) : M B :=
  fun w => match c w with
           | (Ret a, w') => f a w'
           | (Raise e, w') => (Raise e, w')
           end.
(** [try: c  except Exception as e: h e] *)
Definition try_except {A} (c : M A) (h : exn -> M A) : M A :=
  fun w => match c w with
           | (Ret a, w') => (Ret a, w')
           | (Raise e, w') => h e w'
           end.
Definition lift {A} (o : outcome A) : M A := fun w => (o, w).
Definition emit (e : Event) : M unit := fun w => (Ret tt, log e w).

Notation "'let*' x := c 'in' k" := (bind c (fun x => k))
  (at level 10, x name, c at level 100, k at level 200).
Notation "'run' c 'then' k" := (bind c (fun _ => k))
  (at level 10, c at level 100, k at level 200).

(** Names bound at module level. *)
Definition discord1_globals : list string :=
  [ "asyncio"; "json"; "re"; "datetime"; "timedelta"; "Dict"; "Any";
    "Optional"; "Tuple"; "dataclass"; "logging"; "os"; "load_dotenv";
    "discord"; "tasks"; "gspread"; "Credentials"; "StateGraph"; "START";
    "END"; "ChatOpenAI"; "sqlite3"; "logger"; "TypedDict"; "InvoiceState";
    "Config"; "check_transaction_success"; "get_transaction_amount_eth";
    "InvoiceApprovalAgent"; "main" ].

Definition etherscan_globals : list string :=
  [ "os"; "time"; "requests"; "Dict"; "Any"; "ETHERSCAN_API_KEY";
    "_etherscan_get"; "check_transaction_success";
    "get_transaction_amount_eth" ].

Definition bound (globals : list string) (name : string) : bool :=
  existsb (String.eqb name) globals.

(** [time.sleep(ms / 1000)] in a module with the given global names:
    resolving [time] comes first. *)
Definition time_sleep (globals : list string) (ms : Z) : M unit :=
  if bound globals "time" then emit (Sleep ms) else raise (NameError "time").

(* ===================================================================== *)
(** * The ledger client ([src/eth/etherscan_client.py]) *)
(* ===================================================================== *)

Module Json.

(** [d.get(k)] on a decoded object: the last member named [k]. *)
Fixpoint member (k : string) (ms : list (string * json)) : option json :=
  match ms with
  | [] => None
  | (k', v) :: rest =>
      match member k rest with
      | Some x => Some x
      | None => if String.eqb k k' then Some v else None
      end
  end.

(** Truth value of a decoded document. *)
Definition truthy (j : json) : bool :=
  match j with
  | JsNull => false
  | JsBool b => b
  | JsNum z => negb (z =? 0)
  | JsString s => Py.truthy s
  | JsArray l => match l with [] => false | _ => true end
  | JsObject ms => match ms with [] => false | _ => true end
  end.

(** [x or {}] *)
Definition or_empty (j : json) : json := if truthy j then j else JsObject [].

(** [x.get(k, default)]: only a dict has [get]. *)
Definition get (j : json) (k : string) (default : json) : outcome json :=
  match j with
  | JsObject ms => Ret (from_option id default (member k ms))
  | _ => Raise AttributeError
  end.

(** [x == "1"] *)
Definition is_string (s : string) (j : json) : bool :=
  match j with JsString t => String.eqb s t | _ => false end.

End Json.

Module PyInt.

Definition hex_digit (c : ascii) : option Z :=
  if Py.is_digit c then Some (Z.of_N (Py.code c) - 48)
  else if Py.between "a" "f" c then Some (Z.of_N (Py.code c) - 87)
  else if Py.between "A" "F" c then Some (Z.of_N (Py.code c) - 55)
  else None.

(** Digits, with single underscores between them.  [may_us]: an
    underscore may come next; [seen]: a digit was read. *)
Fixpoint digits (s : string) (acc : Z) (may_us seen : bool) : option Z :=
  match s with
  | EmptyString => if may_us && seen then Some acc else None
  | String c r =>
      if Ascii.eqb c "_" then
        if may_us then digits r acc false seen else None
      else
        match hex_digit c with
        | Some d => digits r (16 * acc + d) true true
        | None => None
        end
  end.

Definition unsigned (s : string) : option Z :=
  match s with
  | String "0" (String x r) =>
      if Ascii.eqb (Py.lower_char x) "x" then digits r 0 true false
      else digits s 0 false false
  | _ => digits s 0 false false
  end.

(** The white space [int] skips around the digits: TAB LF VT FF CR and
    space, not the FS GS RS US that [str.strip] removes as well. *)
Definition is_space (c : ascii) : bool :=
  ((9 <=? Py.code c) && (Py.code c <=? 13) || (Py.code c =? 32))%N.

Fixpoint skip_left (s : string) : string :=
  match s with
  | String c r => if is_space c then skip_left r else s
  | EmptyString => EmptyString
  end.

Fixpoint skip_right (s : string) : string :=
  match s with
  | EmptyString => EmptyString
  | String c r =>
      match skip_right r with
      | EmptyString => if is_space c then EmptyString else String c EmptyString
      | r' => String c r'
      end
  end.

(** [int(s, 16)] for an ASCII [str]: surrounding whitespace, a sign, an
    optional [0x], hexadecimal digits.  [None] is [ValueError]. *)
Definition int16 (s : string) : option Z :=
  match skip_left (skip_right s) with
  | String "-" r => Z.opp <$> unsigned r
  | String "+" r => unsigned r
  | r => unsigned r
  end.

(** [w / 10**18], true division of integers, kept as the numerator [w];
    it raises [OverflowError] when the quotient rounds beyond the
    largest float. *)
Definition wei_to_eth (w : Z) : outcome Z :=
  if (2 ^ 1024 - 2 ^ 970) * 10 ^ 18 <=? Z.abs w then Raise OverflowError
  else Ret w.

End PyInt.

Section Agent.

Variable env : Env.

(** ** [etherscan_client.py] *)

(** [for attempt in range(3)]: [n] attempts left, [attempt] the index
    of the next one. *)
Fixpoint etherscan_attempts (n : nat) (attempt : Z) (rq : request)
         (last_err : option exn) : M json :=
  match n with
  | O => raise (from_option id (RuntimeError "Etherscan request failed") last_err)
  | S n' =>
      fun w =>
        let w1 := log (HttpGet rq) w in
        match requests_get env (trace w1) with
        | Ret data => (Ret data, w1)
        | Raise e =>
            (run time_sleep etherscan_globals (500 * (attempt + 1)) then
             etherscan_attempts n' (attempt + 1) rq (Some e)) w1
        end
  end.

Definition _etherscan_get (rq : request) : M json :=
  etherscan_attempts 3 0 rq None.

Definition receipt_request (tx_hash : string) : request :=
  mkRequest "transaction" "gettxreceiptstatus" tx_hash.
Definition transaction_request (tx_hash : string) : request :=
  mkRequest "proxy" "eth_getTransactionByHash" tx_hash.

(** [(data or {}).get("result", {}).get("status") == "1"] *)
Definition receipt_status_is_1 (data : json) : outcome bool :=
  match Json.get (Json.or_empty data) "result" (JsObject []) with
  | Ret result =>
      match Json.get result "status" JsNull with
      | Ret status => Ret (Json.is_string "1" status)
      | Raise e => Raise e
      end
  | Raise e => Raise e
  end.

Definition check_transaction_success (tx_hash : string) : M bool :=
  try_except
    (let* data := _etherscan_get (receipt_request tx_hash) in
     lift (receipt_status_is_1 data))
    (fun _ => ret false).

(** [int((data or {}).get("result", {}).get("value", "0x0"), 16) / 10**18] *)
Definition transaction_value (data : json) : outcome Z :=
  match Json.get (Json.or_empty data) "result" (JsObject []) with
  | Ret result =>
      match Json.get result "value" (JsString "0x0") with
      | Ret (JsString value_hex) =>
          match PyInt.int16 value_hex with
          | Some w => PyInt.wei_to_eth w
          | None => Raise (ValueError "invalid literal for int() with base 16")
          end
      | Ret _ => Raise TypeError
      | Raise e => Raise e
      end
  | Raise e => Raise e
  end.

Definition get_transaction_amount_eth (tx_hash : string) : M Z :=
  try_except
    (let* data := _etherscan_get (transaction_request tx_hash) in
     lift (transaction_value data))
    (fun _ => ret 0).

(** ** The record store of [discord1.py] *)

(** [INSERT OR REPLACE]: a row with the same (non NULL) key is deleted,
    and the new row gets the next rowid. *)
Definition insert_or_replace (key : option string) (st : InvoiceState)
    (rows : list (option string * InvoiceState)) :
    list (option string * InvoiceState) :=
  match key with
  | Some _ => List.filter (fun r => negb (bool_decide (r.1 = key))) rows ++ [(key, st)]
  | None => rows ++ [(key, st)]
  end.

(** [for attempt in range(retries)] of [save_state]: [n] attempts left,
    [delay] in milliseconds.  A loop that runs out ends the function. *)
Fixpoint save_state_loop (n : nat) (delay : Z) (key : option string)
         (st : InvoiceState) : M unit :=
  match n with
  | O => ret tt
  | S n' =>
      fun w =>
        let w1 := log (DbWrite key st) w in
        match db_execute env (trace w1) with
        | Ret _ =>
            (Ret tt, set_invoice_states (insert_or_replace key st (invoice_states w1)) w1)
        | Raise (OperationalError msg) =>
            if Py.contains "locked" (Py.lower msg) || Py.contains "busy" (Py.lower msg)
            then (run time_sleep discord1_globals delay then
                  save_state_loop n' (delay * 2) key st) w1
            else (Raise (OperationalError msg), w1)
        | Raise e => (Raise e, w1)
        end
  end.

(** [retries = 5], [delay = 0.1] *)
Definition save_state (key : option string) (st : InvoiceState) : M unit :=
  save_state_loop 5 100 key st.

(** [SELECT state_json ... WHERE invoice_number = ?] and [fetchone] *)
Definition load_state (rows : list (option string * InvoiceState))
    (invoice_number : string) : option InvoiceState :=
  snd <$> List.find (fun r => bool_decide (r.1 = Some invoice_number)) rows.

(** The legacy scan: the first row whose JSON text holds
    ["discord_thread_id": "<thread_id>"], which is the text of the field
    of that name.  (The [LIKE] of the source reads the whole text: it
    would also take a row whose payload has a key that [LIKE] takes for
    that name, with the thread id as its value: such a payload is
    outside the model.) *)
Definition scan_thread (rows : list (option string * InvoiceState))
    (thread_id : string) : option (option string * InvoiceState) :=
  List.find (fun r => bool_decide (discord_thread_id r.2 = Some thread_id)) rows.

(** The record a thread stands for: through [thread_map] when it names
    an invoice, else by the scan. *)
Definition find_state (w : World) (thread_id : string) :
    option (option string * InvoiceState) :=
  match thread_map w !! thread_id with
  | Some (Some invoice_number) =>
      if Py.truthy invoice_number then
        match load_state (invoice_states w) invoice_number with
        | Some st => Some (Some invoice_number, st)
        | None => None
        end
      else scan_thread (invoice_states w) thread_id
  | _ => scan_thread (invoice_states w) thread_id
  end.

(** ** Sending *)

Definition safe_send (channel : string) (p : Payload) : M (option string) :=
  fun w =>
    if shutting_down w then (Ret None, w)
    else
      let w1 := log (Send channel p) w in
      match channel_send env (trace w1) with
      | Ret message_id => (Ret (Some message_id), w1)
      | Raise (RuntimeError msg) =>
          if Py.contains "after shutdown" (Py.lower msg) then (Ret None, w1)
          else (Raise (RuntimeError msg), w1)
      | Raise e => (Raise e, w1)
      end.

(** ** The spreadsheet mirror *)

Definition overall_status (st : InvoiceState) : string :=
  if String.eqb (payment_status st) "completed" && Py.truthy_opt (transaction_id st)
  then "completed"
  else if String.eqb (payment_status st) "failed" then "failed"
  else if String.eqb (approval_status st) "approved" then "approved"
  else if String.eqb (approval_status st) "rejected" then "rejected"
  else approval_status st.

Definition cell_updates (row : Z) (st : InvoiceState) : list (Z * Z * shown) :=
  [ (row, 12, Text (overall_status st));
    (row, 13, OptText (approver st));
    (row, 14, OptText (cost_center st));
    (row, 15, OptText (rejection_reason st));
    (row, 16, Text (payment_status st));
    (row, 17, OptText (transaction_id st));
    (row, 18, Amount (paid_amount_eth st));
    (row, 20, Now) ].

Fixpoint write_cells (us : list (Z * Z * shown)) : M unit :=
  match us with
  | [] => ret tt
  | (row, col, v) :: rest =>
      fun w =>
        let w1 := log (UpdateCell row col v) w in
        match update_cell env (trace w1) with
        | Ret _ => write_cells rest w1
        | Raise e => (Raise e, w1)
        end
  end.

Definition update_spreadsheet_row (st : InvoiceState) : M unit :=
  run emit (Mirror st) then
  match spreadsheet_row st with
  | Some row => if row =? 0 then ret tt else write_cells (cell_updates row st)
  | None => ret tt
  end.

(** ** The SLA clock *)

(** [state['invoice_data'][key]] *)
Definition invoice_field (st : InvoiceState) (key : string) : outcome jval :=
  match invoice_data st !! key with
  | Some v => Ret v
  | None => Raise (KeyError key)
  end.

Definition str_jval (v : jval) : string :=
  match v with JNull => "None" | JStr s => s end.

(** The key a payload value gives in the table: text, or NULL. *)
Definition key_of (v : jval) : option string :=
  match v with JNull => None | JStr s => Some s end.

(** [state.get('approval_sla_hours') or self.config.approval_sla_hours] *)
Definition sla_hours (st : InvoiceState) : Z :=
  match approval_sla_hours st with
  | Some h => if h =? 0 then cfg_approval_sla_hours (config env) else h
  | None => cfg_approval_sla_hours (config env)
  end.

Definition us_per_hour : Z := 3600 * 1000000.
Definition us_per_minute : Z := 60 * 1000000.

(** [datetime.max], 9999-12-31 23:59:59.999999, in microseconds since
    [datetime.min]. *)
Definition max_us : Z := 3652059 * 24 * us_per_hour - 1.

(** [datetime.fromisoformat(text)] *)
Definition parse_datetime (text : string) : outcome datetime :=
  match fromisoformat env text with
  | Some t => Ret (mkDatetime t false)
  | None =>
      match fromisoformat_aware env text with
      | Some t => Ret (mkDatetime t true)
      | None => Raise (ValueError "Invalid isoformat string")
      end
  end.

(** [(deadline - datetime.now()).total_seconds()]: the difference in
    microseconds, divided by [10**6]. *)
Definition total_seconds (us : Z) : Py.float := Py.true_div us 1000000.

(** [_compute_time_remaining]: the text, and the seconds remaining.
    [created_time + timedelta(hours=sla_hours)] raises [OverflowError]
    when the deadline is no [datetime], and [deadline - datetime.now()]
    raises [TypeError] for an aware deadline, the clock being naive. *)
Definition _compute_time_remaining (st : InvoiceState)
    : outcome (string * Py.float) :=
  match invoice_field st "Timestamp" with
  | Raise e => Raise e
  | Ret JNull => Raise TypeError
  | Ret (JStr ts) =>
      match parse_datetime ts with
      | Raise e => Raise e
      | Ret created_time =>
          let deadline := ticks created_time + sla_hours st * us_per_hour in
          if negb ((0 <=? deadline) && (deadline <=? max_us)) then Raise OverflowError
          else if aware created_time then Raise TypeError
          else
            let seconds_remaining := Py.max0 (total_seconds (deadline - now env)) in
            let hours := Py.floor_div seconds_remaining 3600 in
            let minutes := Py.floor_div (Py.fmod seconds_remaining 3600) 60 in
            let time_text :=
              if Py.positive seconds_remaining
              then Py.str_of_Z hours +:+ "h " +:+ Py.str_of_Z minutes +:+ "m"
              else "Expired" in
            Ret (time_text, seconds_remaining)
      end
  end.

(** ** Replies *)

Definition already_decided_reply (st : InvoiceState) : Payload :=
  Content ("ℹ️ Invoice is already " +:+ Py.upper (approval_status st)
           +:+ " by " +:+ Py.str_opt (approver st) +:+ ".").

Definition ask_cost_center_reply : Payload :=
  Content ("⚠️ Please provide the cost center:" +:+ String "010" "`APPROVE <cost_center>`").

Definition already_completed_reply (st : InvoiceState) : Payload :=
  Content ("ℹ️ **Invoice already completed!**" +:+ String "010" "Transaction ID: **"
           +:+ Py.str_opt (transaction_id st) +:+ "**" +:+ String "010" "Status: **COMPLETED**").

Definition format_guidance_reply : Payload :=
  Content ("💡 **To complete payment, please provide the transaction ID in one of these formats:**"
           +:+ String "010" "• `TX: ABC123456789`"
           +:+ String "010" "• `TRANSACTION: ABC123456789`"
           +:+ String "010" "• `REF: ABC123456789`"
           +:+ String "010" "• `PAYMENT: ABC123456789`"
           +:+ String "010" "• `ABC123456789` (just the ID)").

Definition approved_embed (invoice_number : jval) (st : InvoiceState) : Payload :=
  Embed "✅ Invoice Approved"
    ("Invoice " +:+ str_jval invoice_number +:+ " approved for cost center: "
     +:+ Py.str_opt (cost_center st))
    0x27ae60 [].

Definition rejected_embed (invoice_number : jval) (st : InvoiceState) : Payload :=
  Embed "❌ Invoice Rejected"
    ("Invoice " +:+ str_jval invoice_number +:+ " rejected: "
     +:+ Py.str_opt (rejection_reason st))
    0xe74c3c [].

Definition verified_embed (invoice_number : option string) (transaction_id : string)
    (amount_eth : Z) (success : bool) : Payload :=
  Embed ((if success then "✅" else "❌") +:+ " Payment "
         +:+ (if success then "Successful" else "Failed"))
    ("Transaction ID **" +:+ transaction_id +:+ "** for invoice **"
     +:+ Py.str_opt invoice_number +:+ "**")
    (if success then 0x27ae60 else 0xe74c3c)
    [ ("Invoice Number", OptText invoice_number);
      ("Transaction ID", Text transaction_id);
      ("Amount (ETH)", Amount (Some amount_eth));
      ("Status", Text (if success then "SUCCESSFUL" else "FAILED")) ].

Definition confirmed_embed (invoice_number : option string) (transaction_id : string)
    : Payload :=
  Embed "✅ Payment Confirmed"
    ("Transaction ID **" +:+ transaction_id +:+ "** recorded for invoice **"
     +:+ Py.str_opt invoice_number +:+ "**" +:+ String "010" (String "010"
     "Status updated to: **COMPLETED**"))
    0x27ae60
    [ ("Invoice Number", OptText invoice_number);
      ("Transaction ID", Text transaction_id);
      ("Status", Text "COMPLETED") ].

Definition field_if (name : string) (o : option string) : list (string * shown) :=
  if Py.truthy_opt o then [(name, OptText o)] else [].

Definition show_invoice_status (channel : string) (st : InvoiceState) : M unit :=
  let* invoice_number := lift (invoice_field st "Invoice Number") in
  let completed :=
    String.eqb (payment_status st) "completed" && Py.truthy_opt (transaction_id st) in
  let overall :=
    if completed then "completed"
    else if String.eqb (approval_status st) "approved" then "approved"
    else if String.eqb (approval_status st) "rejected" then "rejected"
    else approval_status st in
  let status_color :=
    if completed then 0x27ae60
    else if String.eqb (approval_status st) "approved" then 0x3498db
    else if String.eqb (approval_status st) "rejected" then 0xe74c3c
    else 0xf39c12 in
  let* remaining :=
    (if String.eqb (approval_status st) "pending" then
       let* r := lift (_compute_time_remaining st) in
       ret [("Time Remaining", Text r.1)]
     else ret []) in
  run safe_send channel
        (Embed ("📋 Invoice Status: " +:+ str_jval invoice_number) EmptyString status_color
           ([ ("Overall Status", Text (Py.upper overall));
              ("Approval Status", Text (Py.upper (approval_status st)));
              ("Payment Status", Text (Py.upper (payment_status st))) ]
            ++ remaining
            ++ field_if "Approver" (approver st)
            ++ field_if "Cost Center" (cost_center st)
            ++ field_if "Transaction ID" (transaction_id st)
            ++ field_if "Rejection Reason" (rejection_reason st)))
  then ret tt.

(** ** Approve and reject *)

(** [f"{message.author.display_name} ({message.author.name})"] *)
Definition approver_of (message : Message) : string :=
  author_display_name message +:+ " (" +:+ author_name message +:+ ")".

(** [process_approval_message]; [content] is [message.content] as the
    handler has rewritten it.  [st] is the handler's private dict: what
    is assigned to it reaches the table only through [save_state]. *)
Definition process_approval_message (message : Message) (content : string)
    (st : InvoiceState) (decision : string) : M unit :=
  let content := Py.strip content in
  let* invoice_number := lift (invoice_field st "Invoice Number") in
  let st := set_approval_status decision st in
  let st := set_approver (Some (approver_of message)) st in
  let parts := Py.split_space1 content in
  if String.eqb decision "approved" then
    match parts.2 with
    | Some rest =>
        let st := set_cost_center (Some (Py.strip rest)) st in
        run safe_send (channel_id message) (approved_embed invoice_number st) then
        run save_state (key_of invoice_number) st then
        update_spreadsheet_row st
    | None =>
        run safe_send (channel_id message) ask_cost_center_reply then
        ret tt
    end
  else if String.eqb decision "rejected" then
    let st :=
      match parts.2 with
      | Some rest => set_rejection_reason (Some (Py.strip rest)) st
      | None => set_rejection_reason (Some "No reason provided") st
      end in
    run safe_send (channel_id message) (rejected_embed invoice_number st) then
    run save_state (key_of invoice_number) st then
    update_spreadsheet_row st
  else
    run save_state (key_of invoice_number) st then
    update_spreadsheet_row st.

(** ** Payment references *)

(** [[a-fA-F0-9]], [[A-Z0-9]], [[:\s]] *)
Definition hex_set : Re.cset :=
  Re.Union (Re.Range "a" "f") (Re.Union (Re.Range "A" "F") (Re.Range "0" "9")).
Definition alnum_set : Re.cset := Re.Union (Re.Range "A" "Z") (Re.Range "0" "9").
Definition sep_set : Re.cset := Re.Union (Re.Lit ":") Re.Space.

(** [0x[a-fA-F0-9]{64}] *)
Definition tx_hash_re : Re.regex :=
  Re.seq [Re.word "0x"; Re.Rep hex_set 64 (Some 64%nat)].

(** [([A-Z0-9]{6,})] *)
Definition ref_group : Re.regex := Re.Grp (Re.Rep alnum_set 6 None).

Definition tx_patterns : list Re.regex :=
  [ (* (0x[a-fA-F0-9]{64}) *)
    Re.Grp tx_hash_re;
    (* TX[ID]?[:\s]+([A-Z0-9]{6,}) *)
    Re.seq [Re.word "TX"; Re.opt (Re.one_of "ID"); Re.plus sep_set; ref_group];
    (* TRANSACTION[ID]?[:\s]+([A-Z0-9]{6,}) *)
    Re.seq [Re.word "TRANSACTION"; Re.opt (Re.one_of "ID"); Re.plus sep_set; ref_group];
    (* REF[ERENCE]?:[:\s]+([A-Z0-9]{6,}) *)
    Re.seq [Re.word "REF"; Re.opt (Re.one_of "ERENCE"); Re.word ":";
            Re.plus sep_set; ref_group];
    (* PAYMENT[:\s]+([A-Z0-9]{6,}) *)
    Re.seq [Re.word "PAYMENT"; Re.plus sep_set; ref_group];
    (* COMPLETED[:\s]+([A-Z0-9]{6,}) *)
    Re.seq [Re.word "COMPLETED"; Re.plus sep_set; ref_group];
    (* ([A-Z0-9]{8,64}) *)
    Re.Grp (Re.Rep alnum_set 8 (Some 64%nat)) ].

(** [for pattern in tx_patterns: match = re.search(...); if match:
    transaction_id = match.group(1); break] *)
Fixpoint first_match (patterns : list Re.regex) (raw_content : string)
    : option string :=
  match patterns with
  | [] => None
  | pattern :: rest =>
      match Re.search pattern raw_content with
      | Some g => g
      | None => first_match rest raw_content
      end
  end.

(** The reference of a message: the resolver's, or else the cascade's. *)
Definition extract_transaction_id (parsed : Parsed) (raw_content : string)
    : option string :=
  if Py.truthy_opt (p_transaction_id parsed) then p_transaction_id parsed
  else first_match tx_patterns raw_content.

Definition payment_keywords : list string :=
  ["TX"; "TRANSACTION"; "REF"; "PAYMENT"; "COMPLETED"].

Definition looks_like_payment (intent raw_content : string) : bool :=
  String.eqb intent "payment"
  || existsb (fun k => Py.contains k (Py.upper raw_content)) payment_keywords
  || bool_decide (is_Some (Re.search tx_hash_re raw_content)).

(** ** The message handler *)

Definition has_role (message : Message) : bool :=
  let wanted := approving_team_role_id (config env) in
  existsb (Z.eqb wanted) (author_roles message)
  || match guild_member_roles message with
     | Some roles => existsb (Z.eqb wanted) roles
     | None => false
     end.

(** [(parsed.get('intent') or 'none').lower().strip()] *)
Definition intent_of (parsed : Parsed) : string :=
  Py.strip (Py.lower (if Py.truthy_opt (p_intent parsed)
                      then Py.str_opt (p_intent parsed) else "none")).

(** The reference has the shape of a ledger hash: it is verified on
    chain, and the outcome recorded. *)
Definition record_verified_payment (message : Message)
    (invoice_number : option string) (st : InvoiceState) (tid : string) : M unit :=
  let tx_norm := Py.lower tid in
  let* success := check_transaction_success tx_norm in
  let* amount_eth := get_transaction_amount_eth tx_norm in
  let st := set_transaction_id (Some tx_norm) st in
  let st := set_paid_amount_eth (Some amount_eth) st in
  let st := set_payment_status (if success then "completed" else "failed") st in
  run save_state invoice_number st then
  run update_spreadsheet_row st then
  run safe_send (channel_id message)
        (verified_embed invoice_number tid amount_eth success) then
  ret tt.

(** Any other reference is taken at face value. *)
Definition record_trusted_payment (message : Message)
    (invoice_number : option string) (st : InvoiceState) (tid : string) : M unit :=
  let st := set_transaction_id (Some tid) st in
  let st := set_payment_status "completed" st in
  run save_state invoice_number st then
  run update_spreadsheet_row st then
  run safe_send (channel_id message) (confirmed_embed invoice_number tid) then
  ret tt.

Definition send_format_guidance (message : Message) (intent : string) : M unit :=
  if String.eqb intent "payment" then
    run safe_send (channel_id message) format_guidance_reply then ret tt
  else ret tt.

(** The payment part of the handler, entered with
    [state['payment_status'] == 'pending']. *)
Definition handle_payment (message : Message) (invoice_number : option string)
    (st : InvoiceState) (parsed : Parsed) (intent raw_content : string) : M unit :=
  if looks_like_payment intent raw_content then
    if Py.truthy_opt (transaction_id st) && String.eqb (payment_status st) "completed"
    then
      run safe_send (channel_id message) (already_completed_reply st) then ret tt
    else
      match extract_transaction_id parsed raw_content with
      | Some tid =>
          if Py.truthy tid then
            if bool_decide (is_Some (Re.fullmatch tx_hash_re tid))
            then record_verified_payment message invoice_number st tid
            else record_trusted_payment message invoice_number st tid
          else send_format_guidance message intent
      | None => send_format_guidance message intent
      end
  else ret tt.

Definition is_decision (intent : string) : bool :=
  String.eqb intent "approve" || String.eqb intent "reject".

(** The handler once the record is found and the author authorized. *)
Definition route_message (message : Message) (invoice_number : option string)
    (st : InvoiceState) : M unit :=
  let raw_content := Py.strip (content message) in
  let parsed := parse_message_with_llm env raw_content st in
  let intent := intent_of parsed in
  if String.eqb intent "status" then
    show_invoice_status (channel_id message) st
  else if negb (String.eqb (approval_status st) "pending") && is_decision intent
  then
    run safe_send (channel_id message) (already_decided_reply st) then ret tt
  else if String.eqb (approval_status st) "pending" && String.eqb intent "approve"
  then
    process_approval_message message
      (if Py.truthy_opt (p_cost_center parsed)
       then "APPROVE " +:+ Py.str_opt (p_cost_center parsed)
       else "APPROVE")
      st "approved"
  else if String.eqb (approval_status st) "pending" && String.eqb intent "reject"
  then
    process_approval_message message
      (Py.strip ("REJECT " +:+ (if Py.truthy_opt (p_reason parsed)
                                then Py.str_opt (p_reason parsed) else EmptyString)))
      st "rejected"
  else if String.eqb (payment_status st) "pending" then
    handle_payment message invoice_number st parsed intent raw_content
  else ret tt.

Definition handle_thread_message (message : Message) : M unit :=
  fun w =>
    if shutting_down w then (Ret tt, w)
    else
      match find_state w (channel_id message) with
      | None => (Ret tt, w)
      | Some (invoice_number, st) =>
          if negb (has_role message) then (Ret tt, w)
          else route_message message invoice_number st w
      end.

(** ** Record creation *)

Definition required_fields : list string :=
  [ "Timestamp"; "Vendor Name"; "Invoice Number"; "Invoice Date";
    "Total Amount"; "Currency"; "Line Items Count"; "Account Holder";
    "Bank Address"; "Account Number/IBAN" ].

(** [[field for field in required_fields if field not in state['invoice_data']]] *)
Definition missing_fields (st : InvoiceState) : list string :=
  List.filter (fun field => bool_decide (invoice_data st !! field = None)) required_fields.

(** [repr] of a list of plain words *)
Fixpoint repr_items (l : list string) : string :=
  match l with
  | [] => EmptyString
  | [x] => "'" +:+ x +:+ "'"
  | x :: rest => "'" +:+ x +:+ "', " +:+ repr_items rest
  end.
Definition repr_list (l : list string) : string := "[" +:+ repr_items l +:+ "]".

Definition process_invoice_node (st : InvoiceState) : outcome InvoiceState :=
  match missing_fields st with
  | [] =>
      Ret (set_last_reminder None
             (set_reminder_count 0
                (set_payment_status "pending"
                   (set_approval_status "pending" st))))
  | missing => Raise (ValueError ("Missing required fields: " +:+ repr_list missing))
  end.

Section Workflow.

(** The later nodes of the graph: they post the notice, append the
    spreadsheet row and write the record. *)
Variable post_to_discord_node : InvoiceState -> M InvoiceState.
Variable update_spreadsheet_node : InvoiceState -> M InvoiceState.

Definition finalize_invoice_node (st : InvoiceState) : InvoiceState := st.

(** [START -> process_invoice -> post_to_discord -> update_spreadsheet
    -> finalize_invoice -> END] *)
Definition workflow (st : InvoiceState) : M InvoiceState :=
  let* st1 := lift (process_invoice_node st) in
  let* st2 := post_to_discord_node st1 in
  let* st3 := update_spreadsheet_node st2 in
  ret (finalize_invoice_node st3).

Definition initial_state (data : gmap string jval) : InvoiceState :=
  mkState data None None "pending" None None None "pending" None None 0
    None None None (Some (cfg_approval_sla_hours (config env))).

Definition process_invoice (data : gmap string jval) : M string :=
  match data !! "Invoice Number" with
  | None => raise (KeyError "Invoice Number")
  | Some invoice_number =>
      run workflow (initial_state data) then
      ret ("Invoice " +:+ str_jval invoice_number +:+ " submitted for approval")
  end.

End Workflow.

End Agent.

(* ===================================================================== *)
(** * Vocabulary of the properties *)
(* ===================================================================== *)

(** The message [m] arrives while the agent runs, in the thread of the
    stored record [st] (kept under [invoice_number]), from an author who
    holds the approver role. *)
Definition reaches_record (env : Env) (w : World) (m : Message)
    (invoice_number : option string) (st : InvoiceState) : Prop :=
  shutting_down w = false /\
  find_state w (channel_id m) = Some (invoice_number, st) /\
  has_role env m = true.

(** What the resolver makes of [m], read against the record [st]. *)
Definition resolved (env : Env) (m : Message) (st : InvoiceState) : Parsed :=
  parse_message_with_llm env (Py.strip (content m)) st.

(** The chat platform takes every message. *)
Definition chat_delivers (env : Env) : Prop :=
  forall h, exists message_id, channel_send env h = Ret message_id.

(** The backing store takes every write at once. *)
Definition store_accepts (env : Env) : Prop :=
  forall h, db_execute env h = Ret tt.

Definition is_mirror (e : Event) : bool :=
  match e with Mirror _ => true | _ => false end.
Definition is_cell (e : Event) : bool :=
  match e with UpdateCell _ _ _ => true | _ => false end.

(** Number of spreadsheet mirror passes in a trace. *)
Definition mirror_count (t : list Event) : nat := length (List.filter is_mirror t).

(** An intent the approval part of the handler lets through. *)
Definition payment_stage (intent : string) : bool :=
  negb (String.eqb intent "status") && negb (is_decision intent).





(** The world [w] after the calls [evs], the table apart. *)
Definition with_events (w : World) (evs : list Event) : World :=
  mkWorld (shutting_down w) (invoice_states w) (thread_map w) (trace w ++ evs).

(** The record an approval with cost center [cc] by the author of [m]
    makes of [st]. *)
Definition approved_by (m : Message) (cc : string) (st : InvoiceState) : InvoiceState :=
  set_cost_center (Some cc)
    (set_approver (Some (approver_of m)) (set_approval_status "approved" st)).

(** Every call the computation [c] makes satisfies [P]: whatever the
    world, its trace grows by events that all satisfy [P]. *)
Definition emits {A} (P : Event -> Prop) (c : M A) : Prop :=
  forall w, exists evs, trace (c w).2 = trace w ++ evs /\ Forall P evs.


(** The computation leaves the table as it is. *)
Definition keeps_table {A} (c : M A) : Prop :=
  forall w, invoice_states (c w).2 = invoice_states w.


(** The record a reference taken at face value makes of [st]. *)
Definition trusted_payment (tid : string) (st : InvoiceState) : InvoiceState :=
  set_payment_status "completed" (set_transaction_id (Some tid) st).


(** The least number of characters a match of the pattern takes. *)
Fixpoint min_len (r : Re.regex) : nat :=
  match r with
  | Re.Eps => 0
  | Re.Chr _ => 1
  | Re.Rep _ lo _ => lo
  | Re.Cat r1 r2 => min_len r1 + min_len r2
  | Re.Grp r1 => min_len r1
  end.

Fixpoint has_group (r : Re.regex) : bool :=
  match r with
  | Re.Cat r1 r2 => has_group r1 || has_group r2
  | Re.Grp _ => true
  | _ => false
  end.

(** Every match of the pattern sets group 1, to a text that is not empty. *)
Fixpoint sets_group (r : Re.regex) : bool :=
  match r with
  | Re.Cat r1 r2 => if has_group r2 then sets_group r2 else sets_group r1
  | Re.Grp r1 => Nat.leb 1 (min_len r1)
  | _ => false
  end.

(** The fifth pattern of the cascade: [PAYMENT[:\s]+([A-Z0-9]{6,})]. *)
Definition payment_keyword_re : Re.regex :=
  Re.seq [Re.word "PAYMENT"; Re.plus sep_set; ref_group].

(** What the face-value route may do for the record [st'] kept under
    [invoice_number]: write that record, mirror it, report -- and never
    ask the ledger. *)
Definition trusted_event (invoice_number : option string) (st' : InvoiceState)
    (e : Event) : Prop :=
  match e with
  | DbWrite key st => key = invoice_number /\ st = st'
  | HttpGet _ => False
  | _ => True
  end.

(** The only ground for the format guidance: the intent is payment, the
    resolver gave no reference, and no pattern of the cascade matches
    anywhere in the text. *)
Definition guidance_justified (env : Env) (m : Message) (st : InvoiceState) : Prop :=
  intent_of (resolved env m st) = "payment" /\
  Py.truthy_opt (p_transaction_id (resolved env m st)) = false /\
  forall pattern, In pattern tx_patterns -> Re.search pattern (Py.strip (content m)) = None.

(** Every character of the text is in the set (under IGNORECASE). *)
Fixpoint all_in (cs : Re.cset) (s : string) : bool :=
  match s with
  | EmptyString => true
  | String c r => Re.mem_i cs c && all_in cs r
  end.

(** A run of characters of the set cannot go on into [post]. *)
Definition stops (cs : Re.cset) (post : string) : bool :=
  match post with
  | EmptyString => true
  | String c _ => negb (Re.mem_i cs c)
  end.

(** The pattern matches at no position of [pre], in the text
    [pre ++ rest]. *)
Fixpoint no_match_within (r : Re.regex) (pre rest : string) : Prop :=
  match pre with
  | EmptyString => True
  | String c pre' =>
      Re.match_at r (String c pre' +:+ rest) = None /\ no_match_within r pre' rest
  end.

(** The messages handled one after the other; [on_message] logs and
    drops what a handler raises. *)
Definition run_messages (env : Env) (ms : list Message) (w : World) : World :=
  fold_left (fun w m => (handle_thread_message env m w).2) ms w.

(** The event is the format-guidance reply, in some channel. *)
Definition is_guidance (e : Event) : Prop :=
  exists channel, e = Send channel format_guidance_reply.


(** ** Sample inputs *)

Module Sample.

Definition cfg : Config := mkConfig 7 24 5 24.

Definition data : gmap string jval :=
  list_to_map
    [ ("Timestamp", JStr "2025-08-05T10:00:00");
      ("Vendor Name", JStr "Acme Corp");
      ("Invoice Number", JStr "INV-1");
      ("Invoice Date", JStr "2025-08-05");
      ("Total Amount", JStr "1500.00");
      ("Currency", JStr "USD");
      ("Line Items Count", JStr "3");
      ("Account Holder", JStr EmptyString);
      ("Bank Address", JNull);
      ("Account Number/IBAN", JStr "US12345678901234567890") ].

(** A world where every collaborator answers; the ledger answers the
    receipt request with [receipt] and the transaction request with
    [transaction]. *)
Definition env (p : Parsed) (receipt transaction : outcome json) : Env :=
  mkEnv cfg (fun _ _ => p) (fun _ => Ret tt) (fun _ => Ret "9001")
    (fun _ => Ret tt)
    (fun h => match last h with
              | Some (HttpGet rq) =>
                  if String.eqb (rq_action rq) "gettxreceiptstatus"
                  then receipt else transaction
              | _ => Raise (OtherError "no request")
              end)
    (fun _ => Some 0) (fun _ => None) 0.

(** The same world, read at the time [t]; every timestamp parses to
    the time 0, without UTC offset. *)
Definition at_time (t : Z) : Env :=
  mkEnv cfg (fun _ _ => mkParsed None None None None) (fun _ => Ret tt)
    (fun _ => Ret "9001") (fun _ => Ret tt)
    (fun _ => Raise (OtherError "no request")) (fun _ => Some 0) (fun _ => None) t.


(** The ledger's answer for a transaction that succeeded. *)
Definition receipt_ok : outcome json :=
  Ret (JsObject [ ("status", JsString "1"); ("message", JsString "OK");
                  ("result", JsObject [("status", JsString "1")]) ]).


(** One ether sent. *)
Definition transaction_found : outcome json :=
  Ret (JsObject [ ("jsonrpc", JsString "2.0"); ("id", JsNum 1);
                  ("result", JsObject [("value", JsString "0xde0b6b3a7640000")]) ]).

Definition offline : outcome json := Raise (OtherError "connection timed out").

Definition pending : InvoiceState :=
  mkState data (Some "T1") (Some "M1") "pending" None None None "pending"
    None None 0 None (Some 2) None (Some 24).


Definition approved : InvoiceState :=
  set_cost_center (Some "CC-42")
    (set_approver (Some "Ann (ann)") (set_approval_status "approved" pending)).

Definition paid : InvoiceState :=
  set_payment_status "completed" (set_transaction_id (Some "ABC12345678") approved).

Definition world (st : InvoiceState) : World :=
  mkWorld false [(Some "INV-1", st)] {[ "T1" := Some "INV-1" ]} [].

Definition message (text : string) : Message :=
  mkMessage "T1" "Ann" "ann" [7] None text.

Definition hash : string :=
  "0x1234567890abcdef1234567890abcdef1234567890abcdef1234567890ABCDEF".

End Sample.

Module Busy.

(** A store that is locked for the first attempt and free afterwards. *)
Definition locked_once : list Event -> outcome unit :=
  fun h => match h with
           | [_] => Raise (OperationalError "database is locked")
           | _ => Ret tt
           end.

Definition env : Env :=
  mkEnv Sample.cfg (fun _ _ => mkParsed None None None None) locked_once
    (fun _ => Ret "9001") (fun _ => Ret tt) (fun _ => Sample.offline)
    (fun _ => Some 0) (fun _ => None) 0.

End Busy.

(* ===================================================================== *)
(** * Vocabulary of the further properties *)
(* ===================================================================== *)

(** The keys no message assigns. *)
Definition same_identity (st st' : InvoiceState) : Prop :=
  invoice_data st' = invoice_data st /\
  discord_thread_id st' = discord_thread_id st /\
  discord_message_id st' = discord_message_id st /\
  reminder_count st' = reminder_count st /\
  last_reminder st' = last_reminder st /\
  spreadsheet_row st' = spreadsheet_row st /\
  sla_message_id st' = sla_message_id st /\
  approval_sla_hours st' = approval_sla_hours st.

(** The approval side and the payment side of a record. *)
Definition same_approval (st st' : InvoiceState) : Prop :=
  approval_status st' = approval_status st /\
  approver st' = approver st /\
  cost_center st' = cost_center st /\
  rejection_reason st' = rejection_reason st.

Definition same_payment (st st' : InvoiceState) : Prop :=
  payment_status st' = payment_status st /\
  transaction_id st' = transaction_id st /\
  paid_amount_eth st' = paid_amount_eth st.

(** [st'] is what a message may make of [st]: one side changes, and only
    a side that is still pending. *)
Definition respects (st st' : InvoiceState) : Prop :=
  same_identity st st' /\
  (same_approval st st' \/ same_payment st st') /\
  (approval_status st <> "pending" -> same_approval st st') /\
  (payment_status st <> "pending" -> same_payment st st').

(** Every record written or mirrored is one a message may make of [st]. *)
Definition respectful (st : InvoiceState) (e : Event) : Prop :=
  match e with
  | DbWrite _ st' => respects st st'
  | Mirror st' => respects st st'
  | _ => True
  end.

(** Every row of the table of [w'] comes from the table of [w] or from a
    write among [evs]. *)
Definition table_from (w w' : World) (evs : list Event) : Prop :=
  forall row, In row (invoice_states w') ->
              In row (invoice_states w) \/ In (DbWrite row.1 row.2) evs.

(** The computation changes the table by its writes only, and leaves the
    thread index and the shutdown flag alone. *)
Definition tracks {A} (c : M A) : Prop :=
  forall w, exists evs,
    trace (c w).2 = trace w ++ evs /\
    table_from w (c w).2 evs /\
    thread_map (c w).2 = thread_map w /\
    shutting_down (c w).2 = shutting_down w.

Definition is_send (e : Event) : bool :=
  match e with Send _ _ => true | _ => false end.
Definition is_write (e : Event) : bool :=
  match e with DbWrite _ _ => true | _ => false end.
Definition is_request (e : Event) : bool :=
  match e with HttpGet _ => true | _ => false end.

Definition count (f : Event -> bool) (evs : list Event) : nat :=
  length (List.filter f evs).

(** Among [evs] there are no more than so many sends, writes, mirror
    passes and ledger requests. *)
Definition no_more_than (sends writes mirrors requests : nat)
    (evs : list Event) : Prop :=
  (count is_send evs <= sends)%nat /\
  (count is_write evs <= writes)%nat /\
  (count is_mirror evs <= mirrors)%nat /\
  (count is_request evs <= requests)%nat.

Definition within {A} (sends writes mirrors requests : nat) (c : M A) : Prop :=
  forall w, exists evs,
    trace (c w).2 = trace w ++ evs /\
    no_more_than sends writes mirrors requests evs.

(** The non-NULL keys of the table. *)
Definition keys (rows : list (option string * InvoiceState)) : list string :=
  omap fst rows.

(** The record a rejection with the reason text [reason] by the author
    of [m] makes of [st]. *)
Definition rejected_by (m : Message) (reason : string) (st : InvoiceState)
    : InvoiceState :=
  set_rejection_reason (Some reason)
    (set_approver (Some (approver_of m)) (set_approval_status "rejected" st)).



(** The same world, read at the time [t]. *)
Definition at_now (t : Z) (env : Env) : Env :=
  mkEnv (config env) (parse_message_with_llm env) (db_execute env)
    (channel_send env) (update_cell env) (requests_get env) (fromisoformat env)
    (fromisoformat_aware env) t.

(** The text [t] is a part of the text [s]. *)
Definition part_of (t s : string) : Prop :=
  exists before after, s = before +:+ t +:+ after.

(** The least length of what group 1 holds after a match. *)
Fixpoint group_len (r : Re.regex) : nat :=
  match r with
  | Re.Cat r1 r2 => if has_group r2 then group_len r2 else group_len r1
  | Re.Grp r1 => min_len r1
  | _ => 0
  end.

(** The reason the resolver gave, as the handler reads it
    ([parsed.get('reason') or '']), and the reason a rejection records
    for the reason text [r]. *)
Definition reason_text (p : Parsed) : string :=
  if Py.truthy_opt (p_reason p) then Py.str_opt (p_reason p) else EmptyString.

Definition recorded_reason (r : string) : string :=
  if Py.truthy (Py.strip r) then Py.strip r else "No reason provided".

(** The call that writes one cell. *)
Definition cell_event (u : Z * Z * shown) : Event :=
  UpdateCell u.1.1 u.1.2 u.2.

(* ===================================================================== *)
(** * The reminder loop of [discord1.py] *)
(* ===================================================================== *)

Definition set_sla_message_id (v : option string) (s : InvoiceState) : InvoiceState :=
  mkState (invoice_data s) (discord_thread_id s) (discord_message_id s)
    (approval_status s) (cost_center s) (approver s) (rejection_reason s)
    (payment_status s) (transaction_id s) (paid_amount_eth s) (reminder_count s)
    (last_reminder s) (spreadsheet_row s) v (approval_sla_hours s).

Section Reminders.

Variable env : Env.

(** [self.discord_client.get_channel(int(thread_id))]: the id of the
    thread as the handler reads it ([str(channel.id)]), [None] when the
    client does not know the thread; it raises when [int] does. *)
Variable get_channel : string -> outcome (option string).

(** [thread.fetch_message(int(message_id))] and [msg.edit(embed=embed)] in
    the thread, given the calls so far.  An edit in place adds nothing to
    the trace. *)
Variable edit_message : list Event -> string -> string -> Payload -> outcome unit.

(** [datetime.isoformat] of a time in microseconds. *)
Variable isoformat : Z -> string.

(** The test [state_json LIKE '%"approval_status": "pending"%'] of the
    store on the JSON text of a record. *)
Variable like_pending : InvoiceState -> bool.

(** [str(state.get('approval_sla_hours', ...))]: the key is always there. *)
Definition sla_hours_text (st : InvoiceState) : string :=
  match approval_sla_hours st with
  | Some h => Py.str_of_Z h
  | None => "None"
  end.

Definition sla_embed (invoice_number : jval) (st : InvoiceState) (time_text : string)
    : Payload :=
  Embed "🕒 Approval SLA"
    ("Time remaining to approve invoice " +:+ str_jval invoice_number +:+ ":")
    0x95a5a6
    [ ("Remaining", Text time_text); ("SLA (hours)", Text (sla_hours_text st)) ].

(** [msg = await self.safe_send(thread, embed=embed)] and
    [state['sla_message_id'] = str(msg.id)]: [safe_send] gives [None]
    during shutdown, which has no [id]. *)
Definition post_sla_message (thread : string) (embed : Payload) (st : InvoiceState)
    : M InvoiceState :=
  let* msg := safe_send env thread embed in
  match msg with
  | Some message_id => ret (set_sla_message_id (Some message_id) st)
  | None => raise AttributeError
  end.

(** [post_or_update_sla_message]: the record with the id of the SLA
    message, or [None]. *)
Definition post_or_update_sla_message (st : InvoiceState) : M (option InvoiceState) :=
  if negb (String.eqb (approval_status st) "pending") then ret None
  else if negb (Py.truthy_opt (discord_thread_id st)) then ret None
  else
    let* found := lift (get_channel (Py.str_opt (discord_thread_id st))) in
    match found with
    | None => ret None
    | Some thread =>
        let* r := lift (_compute_time_remaining env st) in
        let* invoice_number := lift (invoice_field st "Invoice Number") in
        let embed := sla_embed invoice_number st r.1 in
        try_except
          (let* st' :=
             (if Py.truthy_opt (sla_message_id st) then
                try_except
                  (fun w =>
                     match edit_message (trace w) thread
                             (Py.str_opt (sla_message_id st)) embed with
                     | Ret _ => (Ret st, w)
                     | Raise e => (Raise e, w)
                     end)
                  (fun _ => post_sla_message thread embed st)
              else post_sla_message thread embed st) in
           ret (Some st'))
          (fun _ => ret None)
    end.

Definition reminder_embed (invoice_number : jval) (st : InvoiceState)
    (time_text : string) : Payload :=
  Embed "⏰ Approval Reminder"
    ("Invoice " +:+ str_jval invoice_number +:+ " is still pending approval.")
    0xf39c12
    [ ("Time Elapsed", Text ("Reminder #" +:+ Py.str_of_Z (reminder_count st + 1)));
      ("Time Remaining", Text time_text);
      ("Action Required",
       Text ("<@&" +:+ Py.str_of_Z (approving_team_role_id (config env))
             +:+ "> Please review and respond.")) ].

(** [send_reminder]; [int(None)] raises [TypeError]. *)
Definition send_reminder (st : InvoiceState) : M unit :=
  match discord_thread_id st with
  | None => raise TypeError
  | Some thread_id =>
      let* found := lift (get_channel thread_id) in
      match found with
      | Some thread =>
          let* invoice_number := lift (invoice_field st "Invoice Number") in
          let* r := lift (_compute_time_remaining env st) in
          run safe_send env thread (reminder_embed invoice_number st r.1) then
          ret tt
      | None => ret tt
      end
  end.

(** [hours_since >= self.config.reminder_interval_hours], with
    [hours_since] the time from [since] to now in hours: the interval
    has passed.  The source makes the test on floats
    ([hours_since_test]); for an interval of 0 to 4 772 185 hours the
    two are the same test at every time, and beyond that the float test
    can hold a microsecond early. *)
Definition reminder_due (since : Z) : bool :=
  reminder_interval_hours (config env) * us_per_hour <=? now env - since.

(** [(datetime.now() - since).total_seconds() / 3600 >= interval_hours],
    as the source computes it: two roundings, then the comparison of a
    float with an integer. *)
Definition hours_since_test (since : Z) : bool :=
  Py.ge_int (Py.div (total_seconds (now env - since)) 3600)
    (reminder_interval_hours (config env)).

(** [await self.send_reminder(state)], the new count, the new
    [last_reminder], and [save_state]. *)
Definition remind (invoice_number : option string) (st : InvoiceState) (count : Z)
    : M unit :=
  run send_reminder st then
  save_state env invoice_number
    (set_last_reminder (Some (isoformat (now env))) (set_reminder_count count st)).

(** [datetime.fromisoformat(text)], for the time from it to the clock:
    [datetime.now() - t] raises [TypeError] when [t] is aware, the clock
    being naive. *)
Definition parse_time (text : string) : outcome Z :=
  match parse_datetime env text with
  | Ret t => if aware t then Raise TypeError else Ret (ticks t)
  | Raise e => Raise e
  end.

(** The reminder part of the loop body. *)
Definition remind_if_due (invoice_number : option string) (st : InvoiceState)
    : M unit :=
  if Py.truthy_opt (last_reminder st) then
    let* last := lift (parse_time (Py.str_opt (last_reminder st))) in
    if reminder_due last then remind invoice_number st (reminder_count st + 1)
    else ret tt
  else if reminder_count st =? 0 then
    let* created :=
      lift (match invoice_field st "Timestamp" with
            | Ret (JStr ts) => parse_time ts
            | Ret JNull => Raise TypeError
            | Raise e => Raise e
            end) in
    if reminder_due created then remind invoice_number st 1
    else ret tt
  else ret tt.

(** The body of [for invoice_number, state_json in cursor.fetchall()]. *)
Definition reminder_row (row : option string * InvoiceState) : M unit :=
  let* updated := post_or_update_sla_message row.2 in
  let* st :=
    match updated with
    | Some st' => run save_state env row.1 st' then ret st'
    | None => ret row.2
    end in
  remind_if_due row.1 st.

Fixpoint reminder_rows (rows : list (option string * InvoiceState)) : M unit :=
  match rows with
  | [] => ret tt
  | row :: rest => run reminder_row row then reminder_rows rest
  end.

(** One run of [reminder_task]: the rows are those the store holds when
    the run begins; whatever is raised ends the run and is logged. *)
Definition reminder_task : M unit :=
  fun w =>
    try_except
      (reminder_rows (List.filter (fun row => like_pending row.2) (invoice_states w)))
      (fun _ => ret tt) w.

End Reminders.

(* ===================================================================== *)
(** * The heuristic fallback of the resolver *)
(* ===================================================================== *)

Section Fallback.

(** [re.search] of the cost-center pattern, and of the reason pattern,
    in the text: [group(0)] and [group(1)] of the match. *)
Variable cost_center_search : string -> option string.
Variable reason_search : string -> option string.

(** The [except] branch of [parse_message_with_llm]. *)
Definition parse_fallback (content : string) : Parsed :=
  let content_lower := Py.lower content in
  let intent :=
    if Py.contains "status" content_lower then "status"
    else if Py.contains "approve" content_lower || Py.contains "approved" content_lower
    then "approve"
    else if Py.contains "reject" content_lower || Py.contains "rejected" content_lower
    then "reject"
    else "none" in
  mkParsed (Some intent) (cost_center_search content)
    (Py.strip <$> reason_search content) None.

End Fallback.

(** ** Vocabulary of the reminder properties *)

(** [st'] differs from [st] in the reminder bookkeeping at most: the
    count, the time of the last reminder, the id of the SLA message. *)
Definition bookkeeping_only (st st' : InvoiceState) : Prop :=
  invoice_data st' = invoice_data st /\
  discord_thread_id st' = discord_thread_id st /\
  discord_message_id st' = discord_message_id st /\
  spreadsheet_row st' = spreadsheet_row st /\
  approval_sla_hours st' = approval_sla_hours st /\
  same_approval st st' /\ same_payment st st'.

(** A write of the loop for one of the rows [rows]: under the key of the
    row, a record that differs from it in the bookkeeping at most; and no
    request to the ledger, no pass over the spreadsheet. *)
Definition reminder_event (rows : list (option string * InvoiceState)) (e : Event)
    : Prop :=
  match e with
  | DbWrite key st' => exists st, In (key, st) rows /\ bookkeeping_only st st'
  | Send _ _ => True
  | Sleep _ => True
  | _ => False
  end.


(** Every call of [c] satisfies [P], and what it returns satisfies [Q]. *)
Definition yields {A} (P : Event -> Prop) (Q : A -> Prop) (c : M A) : Prop :=
  forall w, exists evs,
    trace (c w).2 = trace w ++ evs /\ Forall P evs /\
    match (c w).1 with Ret a => Q a | Raise _ => True end.

(** ** Sample inputs of the reminder loop *)

Module Tick.

(** The client knows the thread T1 only. *)
Definition get_channel (thread_id : string) : outcome (option string) :=
  if String.eqb thread_id "T1" then Ret (Some "T1") else Ret None.

Definition edit_message (h : list Event) (thread message_id : string) (p : Payload)
    : outcome unit := Ret tt.

Definition isoformat (t : Z) : string := "t=" +:+ Py.str_of_Z t.

Definition like_pending (st : InvoiceState) : bool :=
  String.eqb (approval_status st) "pending".

(** A record that was reminded [count] times, the last time at time 0. *)
Definition reminded (count : Z) : InvoiceState :=
  set_last_reminder (Some "t=0") (set_reminder_count count Sample.pending).

(** A record whose thread the client does not know. *)
Definition orphan : InvoiceState :=
  mkState Sample.data (Some "T9") (Some "M9") "pending" None None None "pending"
    None None 3 (Some "t=0") (Some 3) None (Some 24).

(** A record without a thread. *)
Definition threadless : InvoiceState :=
  mkState Sample.data None None "pending" None None None "pending"
    None None 0 None None None (Some 24).

End Tick.

(** ** Sample inputs of the fallback *)

Module Offline.

(** A world where the language model cannot be reached: every message
    is read by the fallback, whose cost-center search finds [cc]. *)
Definition env (cc : option string) : Env :=
  mkEnv Sample.cfg (fun content _ => parse_fallback (fun _ => cc) (fun _ => None) content)
    (fun _ => Ret tt) (fun _ => Ret "9001") (fun _ => Ret tt)
    (fun _ => Sample.offline) (fun _ => Some 0) (fun _ => None) 0.

End Offline.

(* ===================================================================== *)
(** * The agent at work *)
(* ===================================================================== *)

(** What every step of the agent leaves of a record: the payload, and
    each side that has left 'pending'. *)
Definition stays (st st' : InvoiceState) : Prop :=
  invoice_data st' = invoice_data st /\
  (approval_status st <> "pending" -> same_approval st st') /\
  (payment_status st <> "pending" -> same_payment st st').

(** The record is kept under the invoice number of its payload. *)
Definition filed (key : option string) (st : InvoiceState) : Prop :=
  exists number, invoice_data st !! "Invoice Number" = Some number /\ key_of number = key.

(** A table as the workflow leaves it: one row for each invoice number,
    every record under its own number. *)
Definition sound (rows : list (option string * InvoiceState)) : Prop :=
  NoDup (keys rows) /\ forall key st, In (key, st) rows -> filed key st.

(** Every record of [rows] is still there in [rows'], under its number,
    with what [stays] of it. *)
Definition outlasts (rows rows' : list (option string * InvoiceState)) : Prop :=
  forall number st,
    load_state rows number = Some st ->
    exists st', load_state rows' number = Some st' /\ stays st st'.

(** The computation writes a record at most once, and only one that
    satisfies [G]. *)
Definition writes_once {A} (G : option string -> InvoiceState -> Prop) (c : M A)
    : Prop :=
  forall w,
    invoice_states (c w).2 = invoice_states w \/
    exists key st', G key st' /\
      invoice_states (c w).2 = insert_or_replace key st' (invoice_states w).

(** The record [st] is, or comes from, the row the table holds under
    [key]. *)
Definition aligned (rows : list (option string * InvoiceState))
    (key : option string) (st : InvoiceState) : Prop :=
  filed key st /\
  forall number, key = Some number ->
    exists st0, load_state rows number = Some st0 /\ stays st0 st.

(** The computation keeps a sound table sound and every record in it,
    and changes no row but the one under [key]. *)
Definition tends {A} (key : option string) (c : M A) (w : World) : Prop :=
  sound (invoice_states (c w).2) /\
  outlasts (invoice_states w) (invoice_states (c w).2) /\
  forall number, key <> Some number ->
    load_state (invoice_states (c w).2) number = load_state (invoice_states w) number.

Section Work.

Variable env : Env.
Variable get_channel : string -> outcome (option string).
Variable edit_message : list Event -> string -> string -> Payload -> outcome unit.
Variable isoformat : Z -> string.
Variable like_pending : InvoiceState -> bool.

(** One step of the agent, gone through from its first statement to its
    last with nothing in between: a message handled ([on_message] logs
    and drops what the handler raises), or one run of the reminder loop.
    The source runs the two as coroutines, which may be interleaved at
    every [await]; such executions are not steps. *)
Inductive step : World -> World -> Prop :=
| step_message (m : Message) (w : World) :
    step w (handle_thread_message env m w).2
| step_reminders (w : World) :
    step w (reminder_task env get_channel edit_message isoformat like_pending w).2.

(** A serial execution: steps that follow one another, none begun
    before the one before it has ended. *)
Inductive runs : World -> World -> Prop :=
| runs_here (w : World) : runs w w
| runs_on (w w1 w2 : World) : step w w1 -> runs w1 w2 -> runs w w2.

End Work.

(** ** Proof automation *)

Create HintDb guidance.

(** An event that is not the format guidance: another constructor, or a
    reply whose text differs from the first byte on. *)
Ltac no_guidance :=
  let ch := fresh "ch" in
  let H := fresh "H" in
  intros [ch H]; try discriminate H;
  injection H as _ H; vm_compute in H; discriminate H.

(* ===================================================================== *)
(** * Basic facts about the handler *)
(* ===================================================================== *)

Lemma handler_routes env w m invoice_number st :
  reaches_record env w m invoice_number st ->
  handle_thread_message env m w = route_message env m invoice_number st w.
Proof.
  intros (Hrun & Hfind & Hrole).
  unfold handle_thread_message. now rewrite Hrun, Hfind, Hrole.
Qed.

Lemma safe_send_world env channel p w :
  shutting_down w = false ->
  (safe_send env channel p w).2 = log (Send channel p) w.
Proof.
  intros Hrun. unfold safe_send. rewrite Hrun.
  destruct (channel_send env _) as [id | e]; [reflexivity |].
  destruct e; try reflexivity.
  now destruct (Py.contains _ _).
Qed.

(** A reply that ends the handler: whatever the platform answers, the
    world afterwards is the old one with the send appended. *)
Lemma reply_world env channel p w :
  shutting_down w = false ->
  ((run safe_send env channel p then ret tt) w).2 = log (Send channel p) w.
Proof.
  intros Hrun. pose proof (safe_send_world env channel p w Hrun) as Hs.
  unfold bind. destruct (safe_send env channel p w) as [[a | e] w']; exact Hs.
Qed.

Lemma is_decision_cases intent :
  is_decision intent = true -> intent = "approve" \/ intent = "reject".
Proof.
  unfold is_decision. intros H. apply orb_prop in H.
  destruct H as [H | H]; apply String.eqb_eq in H; auto.
Qed.

Lemma payment_stage_spec intent :
  payment_stage intent = true ->
  String.eqb intent "status" = false /\ is_decision intent = false /\
  String.eqb intent "approve" = false /\ String.eqb intent "reject" = false.
Proof.
  unfold payment_stage, is_decision. intros H.
  apply andb_prop in H as [H1 H2].
  apply negb_true_iff in H1, H2. apply orb_false_elim in H2 as [H2 H3].
  rewrite H1, H2, H3. auto.
Qed.

(* ===================================================================== *)
(** * C1: a decided record stays as it is *)
(* ===================================================================== *)

Lemma acknowledged_world env w m invoice_number st :
  reaches_record env w m invoice_number st ->
  approval_status st = "approved" \/ approval_status st = "rejected" ->
  is_decision (intent_of (resolved env m st)) = true ->
  (handle_thread_message env m w).2
  = log (Send (channel_id m) (already_decided_reply st)) w.
Proof.
  intros Hreach Hdecided Hintent.
  rewrite (handler_routes _ _ _ _ _ Hreach).
  destruct Hreach as (Hrun & _ & _).
  unfold route_message. fold (resolved env m st).
  assert (Hns : String.eqb (intent_of (resolved env m st)) "status" = false).
  { destruct (is_decision_cases _ Hintent) as [-> | ->]; reflexivity. }
  rewrite Hns, Hintent.
  assert (Hnp : String.eqb (approval_status st) "pending" = false).
  { destruct Hdecided as [-> | ->]; reflexivity. }
  rewrite Hnp. cbn [negb andb].
  now apply reply_world.
Qed.

(** C1.  Approval status is monotonic.  For every stored record whose
    approval_status is 'approved' or 'rejected', handling a further
    authorized message that the resolver classifies as approve or reject
    leaves the table (hence every field of the stored record) and the
    thread index unchanged, and the only thing the handler does is to
    send one acknowledgment, which names the current status and the
    approver. *)
Theorem decided_record_is_only_acknowledged env w m invoice_number st :
  reaches_record env w m invoice_number st ->
  approval_status st = "approved" \/ approval_status st = "rejected" ->
  is_decision (intent_of (resolved env m st)) = true ->
  let w' := (handle_thread_message env m w).2 in
  invoice_states w' = invoice_states w /\
  thread_map w' = thread_map w /\
  find_state w' (channel_id m) = Some (invoice_number, st) /\
  trace w' = trace w ++
    [Send (channel_id m)
       (Content ("ℹ️ Invoice is already " +:+ Py.upper (approval_status st)
                 +:+ " by " +:+ Py.str_opt (approver st) +:+ "."))].
Proof.
  intros Hreach Hdecided Hintent w'.
  assert (Hw : w' = log (Send (channel_id m) (already_decided_reply st)) w)
    by exact (acknowledged_world env w m invoice_number st Hreach Hdecided Hintent).
  destruct Hreach as (_ & Hfind & _).
  rewrite Hw. repeat split; try reflexivity. exact Hfind.
Qed.

Lemma decided_record_is_only_acknowledged_witness :
  let env := Sample.env (mkParsed (Some "REJECT") None (Some "spam") None)
               Sample.offline Sample.offline in
  let w := Sample.world Sample.approved in
  let w' := (handle_thread_message env (Sample.message "REJECT spam") w).2 in
  invoice_states w' = invoice_states w /\
  thread_map w' = thread_map w /\
  find_state w' "T1" = Some (Some "INV-1", Sample.approved) /\
  trace w' = [Send "T1" (Content "ℹ️ Invoice is already APPROVED by Ann (ann).")].
Proof.
  intros env w.
  apply (decided_record_is_only_acknowledged env w (Sample.message "REJECT spam")
           (Some "INV-1") Sample.approved).
  - repeat split; vm_compute; reflexivity.
  - left; reflexivity.
  - vm_compute; reflexivity.
Defined.

(** No sequence of further approve or reject messages changes a decided
    record: each of them is acknowledged, and the table and the thread
    index stay as they were. *)
Lemma decided_record_survives_every_attempt env ms :
  forall w,
    shutting_down w = false ->
    Forall (fun m => exists invoice_number st,
                find_state w (channel_id m) = Some (invoice_number, st) /\
                has_role env m = true /\
                (approval_status st = "approved" \/ approval_status st = "rejected") /\
                is_decision (intent_of (resolved env m st)) = true) ms ->
    invoice_states (run_messages env ms w) = invoice_states w /\
    thread_map (run_messages env ms w) = thread_map w /\
    length (trace (run_messages env ms w)) = (length (trace w) + length ms)%nat.
Proof.
  induction ms as [| m ms IH]; intros w Hrun Hall.
  - cbn. repeat split. lia.
  - apply Forall_cons in Hall as [(invoice_number & st & Hfind & Hrole & Hdec & Hint) Hall].
    change (run_messages env (m :: ms) w)
      with (run_messages env ms (handle_thread_message env m w).2).
    rewrite (acknowledged_world env w m invoice_number st
               (conj Hrun (conj Hfind Hrole)) Hdec Hint).
    set (w1 := log (Send (channel_id m) (already_decided_reply st)) w).
    destruct (IH w1 Hrun Hall) as (Ht & Hm & Hl).
    rewrite Ht, Hm, Hl. repeat split. subst w1. cbn. rewrite length_app. cbn. lia.
Qed.

(* ===================================================================== *)
(** * C5: approval without a cost center *)
(* ===================================================================== *)

Lemma lift_bind {A B} (a : A) (f : A -> M B) (w : World) :
  (let* x := lift (Ret a) in f x) w = f a w.
Proof. reflexivity. Qed.

Lemma approval_without_token env m st number w :
  invoice_data st !! "Invoice Number" = Some number ->
  shutting_down w = false ->
  (process_approval_message env m "APPROVE" st "approved" w).2
  = log (Send (channel_id m) ask_cost_center_reply) w.
Proof.
  intros Hnum Hrun. unfold process_approval_message, invoice_field.
  rewrite Hnum, lift_bind.
  change (Py.split_space1 (Py.strip "APPROVE")) with ("APPROVE", @None string).
  cbn [snd String.eqb Ascii.eqb Bool.eqb].
  now apply reply_world.
Qed.

(** C5.  For every stored record with approval_status 'pending' (holding
    its invoice number, as every record the pipeline creates does), an
    authorized message classified as approve that carries no cost-center
    token is answered with the request for the cost center, and nothing
    else happens: the table is unchanged, so the stored record is still
    'pending' and its approver is what it was. *)
Theorem approve_without_cost_center_changes_nothing env w m invoice_number st number :
  reaches_record env w m invoice_number st ->
  approval_status st = "pending" ->
  invoice_data st !! "Invoice Number" = Some number ->
  intent_of (resolved env m st) = "approve" ->
  Py.truthy_opt (p_cost_center (resolved env m st)) = false ->
  let w' := (handle_thread_message env m w).2 in
  trace w' = trace w ++
    [Send (channel_id m)
       (Content ("⚠️ Please provide the cost center:" +:+ String "010" "`APPROVE <cost_center>`"))] /\
  invoice_states w' = invoice_states w /\
  exists stored,
    find_state w' (channel_id m) = Some (invoice_number, stored) /\
    stored = st /\ approval_status stored = "pending" /\ approver stored = approver st.
Proof.
  intros Hreach Hpending Hnum Hintent Hnocc w'.
  assert (Hw : w' = log (Send (channel_id m) ask_cost_center_reply) w).
  { subst w'. rewrite (handler_routes _ _ _ _ _ Hreach).
    destruct Hreach as (Hrun & _ & _).
    unfold route_message. fold (resolved env m st).
    rewrite Hintent, Hpending, Hnocc. cbn [String.eqb Ascii.eqb Bool.eqb negb andb].
    now apply approval_without_token with number. }
  destruct Hreach as (_ & Hfind & _).
  rewrite Hw. split; [reflexivity |]. split; [reflexivity |].
  exists st. repeat split; assumption.
Qed.

Lemma approve_without_cost_center_changes_nothing_witness :
  let env := Sample.env (mkParsed (Some "approve") None None None)
               Sample.offline Sample.offline in
  let w := Sample.world Sample.pending in
  let w' := (handle_thread_message env (Sample.message "looks good, approve") w).2 in
  trace w' = [Send "T1" (Content ("⚠️ Please provide the cost center:"
                                   +:+ String "010" "`APPROVE <cost_center>`"))] /\
  invoice_states w' = invoice_states w /\
  exists stored,
    find_state w' "T1" = Some (Some "INV-1", stored) /\
    stored = Sample.pending /\ approval_status stored = "pending" /\
    approver stored = None.
Proof.
  intros env w.
  apply (approve_without_cost_center_changes_nothing env w
           (Sample.message "looks good, approve") (Some "INV-1") Sample.pending
           (JStr "INV-1")).
  - repeat split; vm_compute; reflexivity.
  - reflexivity.
  - vm_compute; reflexivity.
  - vm_compute; reflexivity.
  - reflexivity.
Defined.

(* ===================================================================== *)
(** * C2: approval with a cost center *)
(* ===================================================================== *)

Lemma with_events_nil w : with_events w [] = w.
Proof. destruct w. unfold with_events. cbn. now rewrite app_nil_r. Qed.

Lemma with_events_app w evs evs' :
  with_events (with_events w evs) evs' = with_events w (evs ++ evs').
Proof. unfold with_events. cbn. now rewrite app_assoc. Qed.

Lemma log_with_events w e : log e w = with_events w [e].
Proof. reflexivity. Qed.

Lemma safe_send_delivered env channel p w :
  chat_delivers env -> shutting_down w = false ->
  exists message_id,
    safe_send env channel p w = (Ret (Some message_id), log (Send channel p) w).
Proof.
  intros Hchat Hrun. unfold safe_send. rewrite Hrun.
  destruct (Hchat (trace (log (Send channel p) w))) as [id Hid].
  exists id. now rewrite Hid.
Qed.

Lemma save_state_accepted env key st w :
  store_accepts env ->
  save_state env key st w
  = (Ret tt,
     set_invoice_states (insert_or_replace key st (invoice_states w))
       (log (DbWrite key st) w)).
Proof.
  intros Hdb. unfold save_state. cbn [save_state_loop]. now rewrite Hdb.
Qed.

Lemma write_cells_events env us w :
  exists cells,
    (write_cells env us w).2 = with_events w cells /\ forallb is_cell cells = true.
Proof.
  revert w. induction us as [| [[row col] v] rest IH]; intros w.
  - exists []. cbn. now rewrite with_events_nil.
  - cbn [write_cells].
    destruct (update_cell env _) as [[] | e].
    + destruct (IH (log (UpdateCell row col v) w)) as (cells & Hw & Hc).
      exists (UpdateCell row col v :: cells). split; [| exact Hc].
      rewrite Hw, log_with_events, with_events_app. reflexivity.
    + exists [UpdateCell row col v]. split; reflexivity.
Qed.

(** One pass of the mirror: the call, then cell updates only. *)
Lemma update_spreadsheet_row_events env st w :
  exists cells,
    (update_spreadsheet_row env st w).2 = with_events w (Mirror st :: cells)
    /\ forallb is_cell cells = true.
Proof.
  unfold update_spreadsheet_row, bind, emit.
  destruct (spreadsheet_row st) as [row |].
  - destruct (row =? 0).
    + exists []. split; reflexivity.
    + destruct (write_cells_events env (cell_updates row st) (log (Mirror st) w))
        as (cells & Hw & Hc).
      exists cells. split; [| exact Hc].
      rewrite Hw, log_with_events, with_events_app. reflexivity.
  - exists []. split; reflexivity.
Qed.

Lemma cells_hold_no_mirror cells :
  forallb is_cell cells = true -> List.filter is_mirror cells = [].
Proof.
  induction cells as [| e cells IH]; [reflexivity |].
  cbn. intros H. apply andb_prop in H as [He Hc].
  destruct e; try discriminate. cbn. auto.
Qed.

Lemma find_app_first {A} (f : A -> bool) (l1 l2 : list A) :
  List.find f (l1 ++ l2)
  = match List.find f l1 with Some x => Some x | None => List.find f l2 end.
Proof.
  induction l1 as [| a l1 IH]; [reflexivity |].
  cbn. now destruct (f a).
Qed.

Lemma find_filter_negb {A} (f : A -> bool) (l : list A) :
  List.find f (List.filter (fun x => negb (f x)) l) = None.
Proof.
  induction l as [| a l IH]; [reflexivity |].
  cbn. destruct (f a) eqn:Hf; cbn; [exact IH |]. now rewrite Hf.
Qed.

(** What [save_state] wrote under a key is what [load_state] returns. *)
Lemma load_after_insert key st rows :
  load_state (insert_or_replace (Some key) st rows) key = Some st.
Proof.
  unfold load_state, insert_or_replace.
  rewrite find_app_first, find_filter_negb. cbn.
  now rewrite bool_decide_eq_true_2.
Qed.

(** C2.  For every stored record with approval_status 'pending', an
    authorized message that the resolver classifies as approve with the
    cost-center token 'CC-42' (the chat platform and the store answering)
    makes the record approved, with cost_center 'CC-42' and the author as
    approver, writes that record to the table under its invoice number,
    and runs the spreadsheet mirror exactly once: the handler sends the
    confirmation, writes the record, enters the mirror once, and after
    that only updates cells. *)
Theorem approve_with_cost_center env w m invoice_number st number :
  reaches_record env w m invoice_number st ->
  chat_delivers env -> store_accepts env ->
  approval_status st = "pending" ->
  invoice_data st !! "Invoice Number" = Some number ->
  intent_of (resolved env m st) = "approve" ->
  p_cost_center (resolved env m st) = Some "CC-42" ->
  let w' := (handle_thread_message env m w).2 in
  let st' := approved_by m "CC-42" st in
  approval_status st' = "approved" /\
  cost_center st' = Some "CC-42" /\
  approver st' = Some (author_display_name m +:+ " (" +:+ author_name m +:+ ")") /\
  invoice_states w' = insert_or_replace (key_of number) st' (invoice_states w) /\
  (forall key, key_of number = Some key -> load_state (invoice_states w') key = Some st') /\
  mirror_count (trace w') = S (mirror_count (trace w)) /\
  exists cells,
    forallb is_cell cells = true /\
    trace w' = trace w ++
      [Send (channel_id m) (approved_embed number st');
       DbWrite (key_of number) st'; Mirror st'] ++ cells.
Proof.
  intros Hreach Hchat Hdb Hpending Hnum Hintent Hcc w' st'.
  assert (Hw : exists cells,
    forallb is_cell cells = true /\
    w' = set_invoice_states (insert_or_replace (key_of number) st' (invoice_states w))
           (with_events w ([Send (channel_id m) (approved_embed number st');
                            DbWrite (key_of number) st'; Mirror st'] ++ cells))).
  { subst w'. rewrite (handler_routes _ _ _ _ _ Hreach).
    destruct Hreach as (Hrun & _ & _).
    unfold route_message. fold (resolved env m st).
    rewrite Hintent, Hpending, Hcc. cbn [String.eqb Ascii.eqb Bool.eqb negb andb].
    change (Py.truthy_opt (Some "CC-42")) with true. cbv iota.
    unfold process_approval_message, invoice_field. rewrite Hnum, lift_bind.
    change (Py.split_space1 (Py.strip ("APPROVE " +:+ Py.str_opt (Some "CC-42"))))
      with ("APPROVE", Some "CC-42").
    cbn [snd String.eqb Ascii.eqb Bool.eqb].
    change (Py.strip "CC-42") with "CC-42".
    fold (approved_by m "CC-42" st). fold st'.
    destruct (safe_send_delivered env (channel_id m) (approved_embed number st') w
                Hchat Hrun) as [id Hsend].
    unfold bind at 1. rewrite Hsend.
    unfold bind at 1. rewrite (save_state_accepted _ _ _ _ Hdb).
    match goal with |- context [update_spreadsheet_row env st' ?w1] =>
      destruct (update_spreadsheet_row_events env st' w1) as (cells & Hu & Hc) end.
    exists cells. split; [exact Hc |]. rewrite Hu.
    unfold with_events, set_invoice_states, log. cbn.
    now rewrite <- !app_assoc. }
  destruct Hw as (cells & Hc & Hw).
  split; [reflexivity |]. split; [reflexivity |]. split; [reflexivity |].
  assert (Hrows : invoice_states w'
                  = insert_or_replace (key_of number) st' (invoice_states w)).
  { rewrite Hw. reflexivity. }
  split; [exact Hrows |]. split.
  { intros key Hkey. rewrite Hrows, Hkey. apply load_after_insert. }
  assert (Htrace : trace w' = trace w ++
      [Send (channel_id m) (approved_embed number st');
       DbWrite (key_of number) st'; Mirror st'] ++ cells).
  { rewrite Hw. reflexivity. }
  split.
  { unfold mirror_count. rewrite Htrace, !List.filter_app, !length_app.
    rewrite (cells_hold_no_mirror _ Hc). cbn. lia. }
  exists cells. split; assumption.
Qed.

Lemma approve_with_cost_center_witness :
  let env := Sample.env (mkParsed (Some "approve") (Some "CC-42") None None)
               Sample.offline Sample.offline in
  let m := Sample.message "APPROVE CC-42" in
  let w := Sample.world Sample.pending in
  let w' := (handle_thread_message env m w).2 in
  let st' := approved_by m "CC-42" Sample.pending in
  approval_status st' = "approved" /\
  cost_center st' = Some "CC-42" /\
  approver st' = Some "Ann (ann)" /\
  invoice_states w' = insert_or_replace (Some "INV-1") st' (invoice_states w) /\
  (forall key, Some "INV-1" = Some key -> load_state (invoice_states w') key = Some st') /\
  mirror_count (trace w') = 1%nat /\
  exists cells,
    forallb is_cell cells = true /\
    trace w' = [] ++
      [Send "T1" (approved_embed (JStr "INV-1") st');
       DbWrite (Some "INV-1") st'; Mirror st'] ++ cells.
Proof.
  intros env m w.
  apply (approve_with_cost_center env w m (Some "INV-1") Sample.pending (JStr "INV-1")).
  - repeat split; vm_compute; reflexivity.
  - intros h. exists "9001". reflexivity.
  - intros h. reflexivity.
  - reflexivity.
  - vm_compute; reflexivity.
  - vm_compute; reflexivity.
  - reflexivity.
Defined.

(* ===================================================================== *)
(** * C3: a payment message on a completed record *)
(* ===================================================================== *)

(** C3 (what the code does).  For every stored record whose
    payment_status is 'completed', an authorized message that gets past
    the approval part of the handler -- a payment message among them --
    falls through: the whole payment part, the 'already completed' reply
    included, sits under the test [payment_status == 'pending'].  Nothing
    is sent, nothing is verified, nothing is written. *)
Theorem completed_record_gets_no_reply env w m invoice_number st :
  reaches_record env w m invoice_number st ->
  payment_status st = "completed" ->
  payment_stage (intent_of (resolved env m st)) = true ->
  handle_thread_message env m w = (Ret tt, w).
Proof.
  intros Hreach Hpaid Hstage.
  rewrite (handler_routes _ _ _ _ _ Hreach).
  unfold route_message. fold (resolved env m st).
  destruct (payment_stage_spec _ Hstage) as (Hs & Hd & Ha & Hr).
  rewrite Hs, Hd, Ha, Hr, Hpaid, !andb_false_r. reflexivity.
Qed.

(** The duplicate payment message of the failing input: no reply at all. *)
Lemma completed_record_gets_no_reply_witness :
  let env := Sample.env (mkParsed (Some "payment") None None (Some "ABC12345678"))
               Sample.offline Sample.offline in
  let w := Sample.world Sample.paid in
  looks_like_payment "payment" "TX: ABC12345678" = true /\
  handle_thread_message env (Sample.message "TX: ABC12345678") w = (Ret tt, w) /\
  trace w = [].
Proof.
  intros env w. split; [vm_compute; reflexivity |]. split; [| reflexivity].
  apply (completed_record_gets_no_reply env w (Sample.message "TX: ABC12345678")
           (Some "INV-1") Sample.paid).
  - repeat split; vm_compute; reflexivity.
  - reflexivity.
  - vm_compute; reflexivity.
Defined.

(** The reply is in the code, and can never be sent: its guard asks for
    a 'completed' record inside the branch of a 'pending' one. *)
Lemma already_completed_guard_never_holds st :
  payment_status st = "pending" ->
  (Py.truthy_opt (transaction_id st) && String.eqb (payment_status st) "completed")
  = false.
Proof. intros ->. apply andb_false_r. Qed.

(* ===================================================================== *)
(** * C4: a write that meets a busy store *)
(* ===================================================================== *)

(** [time] is not a name of the module. *)
Lemma time_is_unbound : bound discord1_globals "time" = false.
Proof. reflexivity. Qed.

(** C4 (what the code does).  When the first attempt of a write meets a
    store that reports a lock ("database is locked", "database is busy"),
    [save_state] reaches [time.sleep], and [time] was never imported:
    the write ends in NameError after this single attempt, without any
    sleep and without a retry, and the table is unchanged -- whatever the
    store would have answered to a second attempt. *)
Theorem busy_store_write_raises_name_error env key st w msg :
  db_execute env (trace w ++ [DbWrite key st]) = Raise (OperationalError msg) ->
  (Py.contains "locked" (Py.lower msg) || Py.contains "busy" (Py.lower msg)) = true ->
  save_state env key st w = (Raise (NameError "time"), log (DbWrite key st) w) /\
  invoice_states (save_state env key st w).2 = invoice_states w /\
  trace (save_state env key st w).2 = trace w ++ [DbWrite key st].
Proof.
  intros Hbusy Hmsg.
  assert (H : save_state env key st w
              = (Raise (NameError "time"), log (DbWrite key st) w)).
  { unfold save_state. cbn [save_state_loop].
    cbn [log trace]. rewrite Hbusy, Hmsg.
    unfold time_sleep. rewrite time_is_unbound. reflexivity. }
  rewrite H. repeat split; reflexivity.
Qed.

(** The failing input: the second attempt would have succeeded. *)
Lemma busy_store_write_raises_name_error_witness :
  let w := Sample.world Sample.pending in
  Busy.locked_once [DbWrite (Some "INV-1") Sample.approved;
                    DbWrite (Some "INV-1") Sample.approved] = Ret tt /\
  save_state Busy.env (Some "INV-1") Sample.approved w
  = (Raise (NameError "time"), log (DbWrite (Some "INV-1") Sample.approved) w) /\
  invoice_states (save_state Busy.env (Some "INV-1") Sample.approved w).2
  = invoice_states w /\
  trace (save_state Busy.env (Some "INV-1") Sample.approved w).2
  = [] ++ [DbWrite (Some "INV-1") Sample.approved].
Proof.
  intros w. split; [reflexivity |].
  apply (busy_store_write_raises_name_error Busy.env (Some "INV-1") Sample.approved w
           "database is locked").
  - reflexivity.
  - vm_compute; reflexivity.
Defined.

(** A loop that uses up its attempts ends without an error and without
    a write: nothing follows the [for] of [save_state]. *)
Lemma exhausted_loop_returns env delay key st w :
  save_state_loop env 0 delay key st w = (Ret tt, w).
Proof. reflexivity. Qed.

(* ===================================================================== *)
(** * C9: validation of the payload *)
(* ===================================================================== *)

Lemma missing_fields_nil st :
  missing_fields st = [] <->
  forall field, In field required_fields -> is_Some (invoice_data st !! field).
Proof.
  unfold missing_fields. split.
  - intros Hnil field Hin.
    destruct (invoice_data st !! field) eqn:Hl; [eauto |].
    assert (Hf : In field
              (List.filter (fun f => bool_decide (invoice_data st !! f = None))
                 required_fields)).
    { apply List.filter_In. split; [exact Hin |]. now apply bool_decide_eq_true_2. }
    rewrite Hnil in Hf. destruct Hf.
  - intros Hall.
    destruct (List.filter _ required_fields) as [| field rest] eqn:Hf; [reflexivity |].
    assert (Hin : In field
              (List.filter (fun f => bool_decide (invoice_data st !! f = None))
                 required_fields)) by (rewrite Hf; now left).
    apply List.filter_In in Hin as [Hin Hnone].
    apply bool_decide_eq_true_1 in Hnone.
    destruct (Hall field Hin) as [v Hv]. congruence.
Qed.

Lemma some_field_missing st :
  (exists field, In field required_fields /\ invoice_data st !! field = None) <->
  missing_fields st <> [].
Proof.
  rewrite missing_fields_nil. split.
  - intros (field & Hin & Hnone) Hall.
    destruct (Hall field Hin) as [v Hv]. congruence.
  - intros Hnot.
    destruct (missing_fields st) as [| field rest] eqn:Hm.
    + exfalso. apply Hnot. now apply missing_fields_nil.
    + exists field.
      assert (Hin : In field (missing_fields st)) by (rewrite Hm; now left).
      unfold missing_fields in Hin. apply List.filter_In in Hin as [Hin Hnone].
      split; [exact Hin |]. now apply bool_decide_eq_true_1 in Hnone.
Qed.

Lemma validation_error_iff st :
  (exists msg, process_invoice_node st = Raise (ValueError msg)) <->
  missing_fields st <> [].
Proof.
  unfold process_invoice_node.
  destruct (missing_fields st) as [| field rest]; split.
  - intros [msg H]. discriminate.
  - intros H. now contradiction H.
  - intros _. discriminate.
  - intros _. eauto.
Qed.

(** C9.  [process_invoice_node] raises the validation error (ValueError,
    "Missing required fields: ...") if and only if some required key is
    absent from the payload, and then nothing has been created: the
    graph stops at this first node and the entry point re-raises, with
    the table and the trace as they were.  When every required key is
    present, whatever its value (empty text and null included), the node
    returns the record with approval_status and payment_status 'pending',
    reminder_count 0 and the payload untouched. *)
Theorem validation_error_iff_key_absent st :
  ((exists msg, process_invoice_node st = Raise (ValueError msg)) <->
   (exists field, In field required_fields /\ invoice_data st !! field = None)) /\
  ((exists field, In field required_fields /\ invoice_data st !! field = None) ->
   forall env post_to_discord_node update_spreadsheet_node w,
     (exists msg,
        workflow post_to_discord_node update_spreadsheet_node st w
        = (Raise (ValueError msg), w)) /\
     (exists e,
        process_invoice env post_to_discord_node update_spreadsheet_node
          (invoice_data st) w = (Raise e, w))) /\
  ((forall field, In field required_fields -> is_Some (invoice_data st !! field)) ->
   exists st',
     process_invoice_node st = Ret st' /\
     approval_status st' = "pending" /\
     payment_status st' = "pending" /\
     reminder_count st' = 0 /\
     last_reminder st' = None /\
     invoice_data st' = invoice_data st).
Proof.
  split; [| split].
  - rewrite some_field_missing. apply validation_error_iff.
  - intros Hmissing env post upd w.
    assert (Hraise : forall s, invoice_data s = invoice_data st ->
              exists msg, process_invoice_node s = Raise (ValueError msg)).
    { intros s Hs. apply validation_error_iff, some_field_missing.
      destruct Hmissing as (field & Hin & Hnone). exists field. now rewrite Hs. }
    split.
    + destruct (Hraise st eq_refl) as [msg Hmsg]. exists msg.
      unfold workflow, bind, lift. now rewrite Hmsg.
    + unfold process_invoice.
      destruct (invoice_data st !! "Invoice Number") as [number |].
      * destruct (Hraise (initial_state env (invoice_data st)) eq_refl) as [msg Hmsg].
        exists (ValueError msg). unfold workflow, bind, lift. now rewrite Hmsg.
      * exists (KeyError "Invoice Number"). reflexivity.
  - intros Hall. apply missing_fields_nil in Hall.
    unfold process_invoice_node. rewrite Hall.
    eexists. split; [reflexivity |]. repeat split.
Qed.

(** A payload whose values are empty or null passes: only the keys count. *)
Lemma validation_error_iff_key_absent_witness :
  exists st',
    process_invoice_node Sample.pending = Ret st' /\
    approval_status st' = "pending" /\
    payment_status st' = "pending" /\
    reminder_count st' = 0 /\
    last_reminder st' = None /\
    invoice_data st' = invoice_data Sample.pending.
Proof.
  apply (validation_error_iff_key_absent Sample.pending).
  intros field Hin.
  repeat (destruct Hin as [<- | Hin]; [vm_compute; eauto |]).
  destruct Hin.
Defined.

Example payload_with_null_values_passes :
  Sample.data !! "Bank Address" = Some JNull /\
  Sample.data !! "Account Holder" = Some (JStr EmptyString) /\
  missing_fields (initial_state (Sample.env (mkParsed None None None None)
                                   Sample.offline Sample.offline) Sample.data) = [].
Proof. repeat split; vm_compute; reflexivity. Qed.

Example payload_without_currency_is_refused :
  process_invoice_node
    (initial_state (Sample.env (mkParsed None None None None)
                      Sample.offline Sample.offline)
       (delete "Currency" Sample.data))
  = Raise (ValueError "Missing required fields: ['Currency']").
Proof. vm_compute. reflexivity. Qed.

(* ===================================================================== *)
(** * C8: the time remaining *)
(* ===================================================================== *)

Lemma contains_after needle a b :
  Py.contains needle b = true -> Py.contains needle (a +:+ b) = true.
Proof.
  intros Hb. induction a as [| c a IH]; [exact Hb |].
  change (Py.contains needle (String c a +:+ b))
    with (String.prefix needle (String c (a +:+ b)) || Py.contains needle (a +:+ b)).
  rewrite IH. apply orb_true_r.
Qed.

(** ** Rounding *)

(** The exponent found for a quotient is not too large: two to it, times
    the divisor, is within the dividend. *)
Lemma log2_ratio_below a b :
  0 < a -> 0 < b ->
  let l := Py.log2_ratio a b in
  (0 <= l -> b * 2 ^ l <= a) /\ (l < 0 -> b <= a * 2 ^ (- l)).
Proof.
  intros Ha Hb. unfold Py.log2_ratio.
  pose proof (Z.log2_spec a Ha) as [Hla Hua].
  pose proof (Z.log2_spec b Hb) as [Hlb Hub].
  pose proof (Z.log2_nonneg a) as Hna. pose proof (Z.log2_nonneg b) as Hnb.
  set (la := Z.log2 a) in *. set (lb := Z.log2 b) in *. clearbody la lb.
  rewrite Z.pow_succ_r in Hua, Hub by assumption.
  destruct (0 <=? la - lb) eqn:Hsign.
  - apply Z.leb_le in Hsign.
    destruct (b * 2 ^ (la - lb) <=? a) eqn:Htest; cbv zeta.
    + apply Z.leb_le in Htest.
      split; [auto | intros Hneg; exfalso; clear - Hsign Hneg; lia].
    + split.
      * intros Hl.
        assert (Hsplit : 2 ^ la = 2 ^ lb * 2 * 2 ^ (la - lb - 1)).
        { replace la with (lb + 1 + (la - lb - 1)) at 1 by lia.
          now rewrite !Z.pow_add_r by lia. }
        assert (Hp : 0 < 2 ^ (la - lb - 1)) by (apply Z.pow_pos_nonneg; lia).
        nia.
      * intros Hneg. assert (la = lb) as -> by (clear - Hsign Hneg; lia).
        replace (- (lb - lb - 1)) with 1 by lia. lia.
  - apply Z.leb_gt in Hsign.
    assert (Hsplit : 2 ^ lb = 2 ^ la * 2 ^ (lb - la)).
    { rewrite <- Z.pow_add_r by lia. f_equal. lia. }
    assert (Hp : 0 < 2 ^ (lb - la)) by (apply Z.pow_pos_nonneg; lia).
    destruct (b <=? a * 2 ^ (- (la - lb))) eqn:Htest; cbv zeta.
    + apply Z.leb_le in Htest.
      split; [intros Hpos; exfalso; clear - Hsign Hpos; lia | auto].
    + split; [intros Hpos; exfalso; clear - Hsign Hpos; lia |]. intros _.
      replace (- (la - lb - 1)) with (Z.succ (lb - la)) by lia.
      rewrite Z.pow_succ_r by lia. nia.
Qed.

(** The mantissa of a rounded quotient has 53 bits: the scaled quotient
    is at least [2^52]. *)
Lemma round_ratio_scaled a b :
  0 < a -> 0 < b ->
  let e := Py.log2_ratio a b - 52 in
  (0 <= e -> b * 2 ^ e * 2 ^ 52 <= a) /\
  (e < 0 -> b * 2 ^ 52 <= a * 2 ^ (- e)).
Proof.
  intros Ha Hb e.
  destruct (log2_ratio_below a b Ha Hb) as [Hnn Hneg].
  set (l := Py.log2_ratio a b) in *. clearbody l. subst e. split.
  - intros He. rewrite <- Z.mul_assoc, <- Z.pow_add_r by lia.
    replace (l - 52 + 52) with l by lia. apply Hnn. lia.
  - intros He. destruct (Z.le_gt_cases 0 l) as [Hl | Hl].
    + specialize (Hnn Hl).
      assert (Hs : 2 ^ 52 = 2 ^ l * 2 ^ (- (l - 52))).
      { rewrite <- Z.pow_add_r by lia. f_equal. lia. }
      rewrite Hs.
      assert (Hp : 0 < 2 ^ (- (l - 52))) by (apply Z.pow_pos_nonneg; lia).
      nia.
    + specialize (Hneg Hl).
      assert (Hs : 2 ^ (- (l - 52)) = 2 ^ (- l) * 2 ^ 52).
      { rewrite <- Z.pow_add_r by lia. f_equal. lia. }
      rewrite Hs. nia.
Qed.

(** Rounding a quotient of positive integers gives a positive float. *)
Lemma round_ratio_positive a b :
  0 < a -> 0 < b -> 0 < Py.mantissa (Py.round_ratio a b).
Proof.
  intros Ha Hb. destruct (round_ratio_scaled a b Ha Hb) as [Hnn Hneg].
  unfold Py.round_ratio. cbn [Py.mantissa].
  set (e := Py.log2_ratio a b - 52) in *. clearbody e.
  destruct (0 <=? e) eqn:He.
  - apply Z.leb_le in He. specialize (Hnn He).
    assert (Hp : 0 < 2 ^ e) by (apply Z.pow_pos_nonneg; lia).
    assert (Hq : 2 ^ 52 <= a / (b * 2 ^ e)) by (apply Z.div_le_lower_bound; nia).
    assert (H52 : 0 < 2 ^ 52) by reflexivity.
    destruct (_ || _); lia.
  - apply Z.leb_gt in He. specialize (Hneg He).
    assert (Hq : 2 ^ 52 <= a * 2 ^ (- e) / b) by (apply Z.div_le_lower_bound; nia).
    assert (H52 : 0 < 2 ^ 52) by reflexivity.
    destruct (_ || _); lia.
Qed.

(** [true_div] keeps the sign of the dividend. *)
Lemma true_div_positive a b :
  0 < b -> Py.positive (Py.true_div a b) = (0 <? a).
Proof.
  intros Hb. unfold Py.true_div, Py.positive.
  destruct (Z.eqb_spec a 0) as [-> | Hne]; [reflexivity |].
  destruct (0 <? a) eqn:Ha.
  - apply Z.ltb_lt in Ha. apply Z.ltb_lt. now apply round_ratio_positive.
  - apply Z.ltb_ge in Ha. cbn [Py.mantissa]. apply Z.ltb_ge.
    pose proof (round_ratio_positive (- a) b ltac:(lia) Hb). lia.
Qed.

(** With an exponent below zero and a divisor below twice the scale, the
    rounded quotient lies on the same side of every whole number as the
    quotient itself. *)
Lemma round_ratio_whole a b s :
  0 < a -> 0 < b ->
  let x := Py.round_ratio a b in
  Py.exponent x < 0 -> b < 2 * 2 ^ (- Py.exponent x) ->
  s * 2 ^ (- Py.exponent x) <= Py.mantissa x <-> s * b <= a.
Proof.
  intros Ha Hb x. subst x. unfold Py.round_ratio. cbn [Py.exponent Py.mantissa].
  set (e := Py.log2_ratio a b - 52). clearbody e. intros He Hfine.
  assert (Hsign : (0 <=? e) = false) by (apply Z.leb_gt; lia). rewrite Hsign.
  set (K := 2 ^ (- e)) in *.
  assert (HK : 0 < K) by (apply Z.pow_pos_nonneg; lia). clearbody K.
  pose proof (Z.div_mod (a * K) b ltac:(lia)) as Hdm.
  pose proof (Z.mod_pos_bound (a * K) b Hb) as Hr.
  set (q := a * K / b) in *. set (r := (a * K) mod b) in *. clearbody q r.
  assert (Hup : (b <? 2 * r) || (2 * r =? b) && Z.odd q = true -> b <= 2 * r).
  { intros H. apply orb_true_iff in H as [H | H].
    - apply Z.ltb_lt in H. lia.
    - apply andb_true_iff in H as [H _]. apply Z.eqb_eq in H. lia. }
  destruct ((b <? 2 * r) || (2 * r =? b) && Z.odd q) eqn:Hround.
  - specialize (Hup eq_refl). split; intros H; nia.
  - split; intros H; nia.
Qed.

(** A span below [2^34] seconds is held with 19 bits or more after the
    point: to better than half a microsecond. *)
Lemma seconds_are_fine us :
  0 < us < 2 ^ 34 * 1000000 ->
  Py.exponent (Py.round_ratio us 1000000) <= -19.
Proof.
  intros [Hpos Hb]. unfold Py.round_ratio. cbn [Py.exponent].
  destruct (round_ratio_scaled us 1000000 Hpos ltac:(lia)) as [Hnn Hneg].
  set (e := Py.log2_ratio us 1000000 - 52) in *. clearbody e.
  destruct (Z.le_gt_cases 0 e) as [He | He].
  - specialize (Hnn He).
    assert (Hp : 0 < 2 ^ e) by (apply Z.pow_pos_nonneg; lia).
    change (2 ^ 34) with 17179869184 in Hb. change (2 ^ 52) with 4503599627370496 in Hnn.
    nia.
  - specialize (Hneg He).
    destruct (Z.le_gt_cases e (-19)) as [Hfine | Hcoarse]; [exact Hfine |].
    assert (Hp : 2 ^ (- e) <= 2 ^ 18) by (apply Z.pow_le_mono_r; lia).
    assert (Hq : 0 < 2 ^ (- e)) by (apply Z.pow_pos_nonneg; lia).
    change (2 ^ 34) with 17179869184 in Hb. change (2 ^ 52) with 4503599627370496 in Hneg.
    change (2 ^ 18) with 262144 in Hp.
    nia.
Qed.

(** The whole multiples of [d] seconds in such a span are those of its
    microseconds: the rounding of [total_seconds] does not add one. *)
Lemma floor_div_total_seconds us d :
  0 < us < 2 ^ 34 * 1000000 -> 0 < d ->
  Py.floor_div (total_seconds us) d = us / (d * 1000000).
Proof.
  intros Hus Hd. unfold total_seconds, Py.true_div.
  assert (Hz : (us =? 0) = false) by (apply Z.eqb_neq; lia).
  assert (Hp : (0 <? us) = true) by (apply Z.ltb_lt; lia).
  rewrite Hz, Hp.
  pose proof (seconds_are_fine us Hus) as He.
  assert (Hfine : 1000000 < 2 * 2 ^ (- Py.exponent (Py.round_ratio us 1000000))).
  { assert (H : 2 ^ 19 <= 2 ^ (- Py.exponent (Py.round_ratio us 1000000)))
      by (apply Z.pow_le_mono_r; lia).
    change (2 ^ 19) with 524288 in H. lia. }
  pose proof (fun s => round_ratio_whole us 1000000 s ltac:(lia) ltac:(lia)
                         ltac:(lia) Hfine) as Hwhole.
  unfold Py.floor_div.
  assert (Hsign : (0 <=? Py.exponent (Py.round_ratio us 1000000)) = false)
    by (apply Z.leb_gt; lia).
  rewrite Hsign.
  set (m := Py.mantissa (Py.round_ratio us 1000000)) in *.
  set (K := 2 ^ (- Py.exponent (Py.round_ratio us 1000000))) in *.
  assert (HK : 0 < K) by lia. clearbody m K.
  set (n := us / (d * 1000000)).
  pose proof (Z.div_mod us (d * 1000000) ltac:(lia)) as Hdm.
  pose proof (Z.mod_pos_bound us (d * 1000000) ltac:(lia)) as Hr.
  fold n in Hdm.
  assert (Hlow : n * d * K <= m) by (apply Hwhole; lia).
  assert (Hhigh : m < (n + 1) * d * K).
  { destruct (Z.lt_ge_cases m ((n + 1) * d * K)) as [H | H]; [exact H |].
    apply Hwhole in H. lia. }
  symmetry. apply Z.div_unique with (r := m - n * d * K); nia.
Qed.



(** The seconds remaining are positive exactly when the deadline is
    ahead. *)
Lemma total_seconds_positive us : Py.positive (total_seconds us) = (0 <? us).
Proof. unfold total_seconds. apply true_div_positive. lia. Qed.

Lemma max0_total_seconds us :
  Py.max0 (total_seconds us) = total_seconds (Z.max 0 us).
Proof.
  unfold Py.max0. rewrite total_seconds_positive.
  destruct (0 <? us) eqn:Hpos.
  - apply Z.ltb_lt in Hpos. f_equal. lia.
  - apply Z.ltb_ge in Hpos. replace (Z.max 0 us) with 0 by lia. reflexivity.
Qed.



Example expired_after_25_hours :
  _compute_time_remaining (Sample.at_time (25 * us_per_hour)) Sample.pending
  = Ret ("Expired", Py.zero).
Proof. vm_compute. reflexivity. Qed.

(** One microsecond before the deadline: the float nearest to a
    millionth of a second. *)
Example seconds_before_the_deadline :
  _compute_time_remaining (Sample.at_time (24 * us_per_hour - 1)) Sample.pending
  = Ret ("0h 0m", Py.mkFloat 4722366482869645 (-72)).
Proof. vm_compute. reflexivity. Qed.

(** The rounding of [total_seconds] is the division of the Standard
    Library's IEEE 754 model, at 53 bits, on spans of every size. *)
Example total_seconds_is_the_ieee_quotient :
  forallb (fun us => Py.same_value (total_seconds us)
                       (SFdiv 53 1024 (Py.exact us) (Py.exact 1000000)))
    [ 0; 1; 2; 3; 7; 999999; 1000000; 1000001; 1800000000; 86399999999;
      86400000000; 16919999999999999; 17179869183999999; 17179869239999999;
      17999999999999999; 315537897599999999; -1; -1800000000;
      -17999999999999999 ]
  = true.
Proof. vm_compute. reflexivity. Qed.


(* ===================================================================== *)
(** * C6: the ledger hash comes first *)
(* ===================================================================== *)

Lemma append_nil (b : string) : EmptyString +:+ b = b.
Proof. reflexivity. Qed.

Lemma append_cons c (a b : string) : String c a +:+ b = String c (a +:+ b).
Proof. reflexivity. Qed.

Lemma length_append (a b : string) :
  String.length (a +:+ b) = (String.length a + String.length b)%nat.
Proof. induction a as [| c a IH]; simpl; [reflexivity | f_equal; exact IH]. Qed.

Lemma append_assoc (a b c : string) : (a +:+ b) +:+ c = a +:+ b +:+ c.
Proof.
  induction a as [| x a IH]; [reflexivity |].
  rewrite !append_cons. f_equal. exact IH.
Qed.

Lemma append_empty_r (a : string) : a +:+ EmptyString = a.
Proof.
  induction a as [| x a IH]; [reflexivity |].
  rewrite !append_cons. f_equal. exact IH.
Qed.

Lemma substring_prefix (a b : string) :
  String.substring 0 (String.length a) (a +:+ b) = a.
Proof.
  induction a as [| c a IH].
  - rewrite append_nil. now destruct b.
  - rewrite append_cons. simpl. f_equal. exact IH.
Qed.

(** A group that started at [a ++ b] and left [b] has consumed [a]. *)
Lemma consumed_prefix (a b : string) : Re.consumed (a +:+ b) b = a.
Proof.
  unfold Re.consumed. rewrite length_append.
  replace (String.length a + String.length b - String.length b)%nat
    with (String.length a) by lia.
  apply substring_prefix.
Qed.










(** ** What a computation can emit *)

Lemma emits_ret {A} P (a : A) : emits P (ret a).
Proof. intros w. exists []. cbn. now rewrite app_nil_r. Qed.

Lemma emits_raise {A} P e : emits P (@raise A e).
Proof. intros w. exists []. cbn. now rewrite app_nil_r. Qed.

Lemma emits_lift {A} P (o : outcome A) : emits P (lift o).
Proof. intros w. exists []. cbn. now rewrite app_nil_r. Qed.

Lemma emits_emit (P : Event -> Prop) e : P e -> emits P (emit e).
Proof. intros He w. exists [e]. cbn. auto. Qed.

Lemma emits_bind {A B} P (c : M A) (f : A -> M B) :
  emits P c -> (forall a, emits P (f a)) -> emits P (bind c f).
Proof.
  intros Hc Hf w. unfold bind.
  destruct (Hc w) as (evs & Ht & HP).
  destruct (c w) as [[a | e] w1]; cbn in Ht.
  - destruct (Hf a w1) as (evs' & Ht' & HP').
    exists (evs ++ evs'). rewrite Ht', Ht, <- app_assoc.
    split; [reflexivity |]. apply Forall_app; auto.
  - exists evs. auto.
Qed.

Lemma emits_try_except {A} P (c : M A) (h : exn -> M A) :
  emits P c -> (forall e, emits P (h e)) -> emits P (try_except c h).
Proof.
  intros Hc Hh w. unfold try_except.
  destruct (Hc w) as (evs & Ht & HP).
  destruct (c w) as [[a | e] w1]; cbn in Ht.
  - exists evs. auto.
  - destruct (Hh e w1) as (evs' & Ht' & HP').
    exists (evs ++ evs'). rewrite Ht', Ht, <- app_assoc.
    split; [reflexivity |]. apply Forall_app; auto.
Qed.

Lemma emits_time_sleep (P : Event -> Prop) globals ms :
  P (Sleep ms) -> emits P (time_sleep globals ms).
Proof.
  intros HP. unfold time_sleep.
  destruct (bound globals "time"); [now apply emits_emit | apply emits_raise].
Qed.

Lemma emits_safe_send (P : Event -> Prop) env channel p :
  P (Send channel p) -> emits P (safe_send env channel p).
Proof.
  intros HP w. unfold safe_send.
  destruct (shutting_down w).
  - exists []. cbn. now rewrite app_nil_r.
  - exists [Send channel p].
    assert (Hall : Forall P [Send channel p]) by auto.
    destruct (channel_send env _) as [id | e]; [now split |].
    destruct e; try (now split).
    destruct (Py.contains _ _); now split.
Qed.

Lemma emits_save_state_loop (P : Event -> Prop) env n :
  forall delay key st,
    P (DbWrite key st) -> (forall ms, P (Sleep ms)) ->
    emits P (save_state_loop env n delay key st).
Proof.
  induction n as [| n IH]; intros delay key st Hdb Hsleep.
  - apply emits_ret.
  - intros w. cbn [save_state_loop].
    assert (Hone : Forall P [DbWrite key st]) by auto.
    destruct (db_execute env _) as [[] | e].
    + exists [DbWrite key st]. now split.
    + assert (Hend : exists evs,
                trace (@Raise unit e, log (DbWrite key st) w).2 = trace w ++ evs
                /\ Forall P evs) by (exists [DbWrite key st]; now split).
      destruct e; try exact Hend.
      destruct (_ || _); [| exact Hend].
      destruct (emits_bind P (time_sleep discord1_globals delay)
                  (fun _ => save_state_loop env n (delay * 2) key st)
                  (emits_time_sleep P _ _ (Hsleep delay))
                  (fun _ => IH (delay * 2) key st Hdb Hsleep)
                  (log (DbWrite key st) w)) as (evs & Ht & HP).
      exists (DbWrite key st :: evs). rewrite Ht. cbn. rewrite <- app_assoc. auto.
Qed.

Lemma emits_save_state (P : Event -> Prop) env key st :
  P (DbWrite key st) -> (forall ms, P (Sleep ms)) ->
  emits P (save_state env key st).
Proof. apply emits_save_state_loop. Qed.

Lemma emits_etherscan_attempts (P : Event -> Prop) env n :
  forall attempt rq last_err,
    P (HttpGet rq) -> (forall ms, P (Sleep ms)) ->
    emits P (etherscan_attempts env n attempt rq last_err).
Proof.
  induction n as [| n IH]; intros attempt rq last_err Hget Hsleep.
  - apply emits_raise.
  - intros w. cbn [etherscan_attempts].
    destruct (requests_get env _) as [data | e].
    + exists [HttpGet rq]. split; [reflexivity | auto].
    + destruct (emits_bind P (time_sleep etherscan_globals (500 * (attempt + 1)))
                  (fun _ => etherscan_attempts env n (attempt + 1) rq (Some e))
                  (emits_time_sleep P _ _ (Hsleep _))
                  (fun _ => IH (attempt + 1) rq (Some e) Hget Hsleep)
                  (log (HttpGet rq) w)) as (evs & Ht & HP).
      exists (HttpGet rq :: evs). rewrite Ht. cbn. rewrite <- app_assoc. auto.
Qed.

Lemma emits_check_transaction_success (P : Event -> Prop) env tx :
  P (HttpGet (receipt_request tx)) -> (forall ms, P (Sleep ms)) ->
  emits P (check_transaction_success env tx).
Proof.
  intros Hget Hsleep. apply emits_try_except; [| intros; apply emits_ret].
  apply emits_bind; [now apply emits_etherscan_attempts | intros; apply emits_lift].
Qed.

Lemma emits_get_transaction_amount_eth (P : Event -> Prop) env tx :
  P (HttpGet (transaction_request tx)) -> (forall ms, P (Sleep ms)) ->
  emits P (get_transaction_amount_eth env tx).
Proof.
  intros Hget Hsleep. apply emits_try_except; [| intros; apply emits_ret].
  apply emits_bind; [now apply emits_etherscan_attempts | intros; apply emits_lift].
Qed.

Lemma emits_write_cells (P : Event -> Prop) env us :
  (forall row col v, P (UpdateCell row col v)) -> emits P (write_cells env us).
Proof.
  intros Hcell. induction us as [| [[row col] v] rest IH]; [apply emits_ret |].
  intros w. cbn [write_cells].
  destruct (update_cell env _) as [[] | e].
  - destruct (IH (log (UpdateCell row col v) w)) as (evs & Ht & HP).
    exists (UpdateCell row col v :: evs). rewrite Ht. cbn. rewrite <- app_assoc. auto.
  - exists [UpdateCell row col v]. split; [reflexivity | auto].
Qed.

Lemma emits_update_spreadsheet_row (P : Event -> Prop) env st :
  P (Mirror st) -> (forall row col v, P (UpdateCell row col v)) ->
  emits P (update_spreadsheet_row env st).
Proof.
  intros Hm Hcell. unfold update_spreadsheet_row.
  apply emits_bind; [now apply emits_emit |]. intros _.
  destruct (spreadsheet_row st) as [row |]; [| apply emits_ret].
  destruct (row =? 0); [apply emits_ret | now apply emits_write_cells].
Qed.









(** A message that gets to the payment part of the handler on a record
    whose payment is pending. *)
Lemma route_to_payment env m invoice_number st :
  payment_status st = "pending" ->
  payment_stage (intent_of (resolved env m st)) = true ->
  route_message env m invoice_number st
  = handle_payment env m invoice_number st (resolved env m st)
      (intent_of (resolved env m st)) (Py.strip (content m)).
Proof.
  intros Hp Hstage. unfold route_message. fold (resolved env m st).
  destruct (payment_stage_spec _ Hstage) as (Hs & Hd & Ha & Hr).
  now rewrite Hs, Hd, Ha, Hr, Hp, !andb_false_r.
Qed.



(** The scenario of the specification, run: the hash is extracted, in
    lower case, and not the REF token, which alone would be extracted. *)
Example hash_and_ref_token :
  first_match tx_patterns ("paid " +:+ Sample.hash +:+ " REF: ABC123")
  = Some Sample.hash /\
  first_match tx_patterns "paid REF: ABC123" = Some "ABC123" /\
  Py.lower Sample.hash
  = "0x1234567890abcdef1234567890abcdef1234567890abcdef1234567890abcdef".
Proof. repeat split; vm_compute; reflexivity. Qed.

(* ===================================================================== *)
(** * C7: verification fails closed *)
(* ===================================================================== *)

(** ** What leaves the table alone *)

Lemma keeps_ret {A} (a : A) : keeps_table (ret a).
Proof. intros w. reflexivity. Qed.

Lemma keeps_raise {A} e : keeps_table (@raise A e).
Proof. intros w. reflexivity. Qed.

Lemma keeps_lift {A} (o : outcome A) : keeps_table (lift o).
Proof. intros w. reflexivity. Qed.

Lemma keeps_emit e : keeps_table (emit e).
Proof. intros w. reflexivity. Qed.

Lemma keeps_bind {A B} (c : M A) (f : A -> M B) :
  keeps_table c -> (forall a, keeps_table (f a)) -> keeps_table (bind c f).
Proof.
  intros Hc Hf w. unfold bind. specialize (Hc w).
  destruct (c w) as [[a | e] w1]; cbn in Hc; [| exact Hc].
  now rewrite (Hf a w1).
Qed.

Lemma keeps_try_except {A} (c : M A) (h : exn -> M A) :
  keeps_table c -> (forall e, keeps_table (h e)) -> keeps_table (try_except c h).
Proof.
  intros Hc Hh w. unfold try_except. specialize (Hc w).
  destruct (c w) as [[a | e] w1]; cbn in Hc; [exact Hc |].
  now rewrite (Hh e w1).
Qed.

Lemma keeps_time_sleep globals ms : keeps_table (time_sleep globals ms).
Proof.
  unfold time_sleep. destruct (bound globals "time");
    [apply keeps_emit | apply keeps_raise].
Qed.

Lemma keeps_safe_send env channel p : keeps_table (safe_send env channel p).
Proof.
  intros w. unfold safe_send. destruct (shutting_down w); [reflexivity |].
  destruct (channel_send env _) as [id | e]; [reflexivity |].
  destruct e; try reflexivity. now destruct (Py.contains _ _).
Qed.

Lemma keeps_etherscan_attempts env n :
  forall attempt rq last_err,
    keeps_table (etherscan_attempts env n attempt rq last_err).
Proof.
  induction n as [| n IH]; intros attempt rq last_err; [apply keeps_raise |].
  intros w. cbn [etherscan_attempts].
  destruct (requests_get env _) as [data | e]; [reflexivity |].
  now rewrite (keeps_bind _ _ (keeps_time_sleep _ _) (fun _ => IH _ _ _)).
Qed.

Lemma keeps_check_transaction_success env tx :
  keeps_table (check_transaction_success env tx).
Proof.
  apply keeps_try_except; [| intros; apply keeps_ret].
  apply keeps_bind; [apply keeps_etherscan_attempts | intros; apply keeps_lift].
Qed.

Lemma keeps_get_transaction_amount_eth env tx :
  keeps_table (get_transaction_amount_eth env tx).
Proof.
  apply keeps_try_except; [| intros; apply keeps_ret].
  apply keeps_bind; [apply keeps_etherscan_attempts | intros; apply keeps_lift].
Qed.

Lemma keeps_write_cells env us : keeps_table (write_cells env us).
Proof.
  induction us as [| [[row col] v] rest IH]; [apply keeps_ret |].
  intros w. cbn [write_cells].
  destruct (update_cell env _) as [[] | e]; [| reflexivity].
  now rewrite IH.
Qed.

Lemma keeps_update_spreadsheet_row env st : keeps_table (update_spreadsheet_row env st).
Proof.
  unfold update_spreadsheet_row. apply keeps_bind; [apply keeps_emit |]. intros _.
  destruct (spreadsheet_row st) as [row |]; [| apply keeps_ret].
  destruct (row =? 0); [apply keeps_ret | apply keeps_write_cells].
Qed.

(** After a write the store accepted, the mirror and the report leave
    the table as the write made it. *)
Lemma table_after_write env key st' channel p w :
  store_accepts env ->
  invoice_states
    ((run save_state env key st' then
      run update_spreadsheet_row env st' then
      run safe_send env channel p then ret tt) w).2
  = insert_or_replace key st' (invoice_states w).
Proof.
  intros Hdb. unfold bind at 1. rewrite (save_state_accepted _ _ _ _ Hdb).
  rewrite (keeps_bind _ _ (keeps_update_spreadsheet_row env st')
             (fun _ => keeps_bind _ _ (keeps_safe_send env channel p)
                         (fun _ => keeps_ret tt))).
  reflexivity.
Qed.

Lemma events_after_write (P : Event -> Prop) env key st' channel p :
  P (DbWrite key st') -> P (Mirror st') -> P (Send channel p) ->
  (forall ms, P (Sleep ms)) -> (forall row col v, P (UpdateCell row col v)) ->
  emits P (run save_state env key st' then
           run update_spreadsheet_row env st' then
           run safe_send env channel p then ret tt).
Proof.
  intros Hdb Hm Hs Hsleep Hcell.
  apply emits_bind; [now apply emits_save_state |]. intros _.
  apply emits_bind; [now apply emits_update_spreadsheet_row |]. intros _.
  apply emits_bind; [now apply emits_safe_send | intros; apply emits_ret].
Qed.

(** ** The adapter *)

Lemma check_transaction_success_returns env tx w :
  exists success w', check_transaction_success env tx w = (Ret success, w').
Proof.
  unfold check_transaction_success, try_except.
  destruct (bind _ _ w) as [[b | e] w']; cbn; eauto.
Qed.











(* ===================================================================== *)
(** * C10: what the cascade captures *)
(* ===================================================================== *)

(** ** A match takes a prefix of the text, and sets the group *)

Lemma greedy_sound {R} cs :
  forall s lo hi (k : string -> option R) x,
    Re.greedy cs lo hi s k = Some x ->
    exists taken rest,
      s = taken +:+ rest /\ (lo <= String.length taken)%nat /\ k rest = Some x.
Proof.
  induction s as [| c s IH]; intros lo hi k x H.
  - destruct lo; [| discriminate]. exists EmptyString, EmptyString. auto.
  - cbn [Re.greedy] in H.
    assert (Hstop : match lo with O => k (String c s) | S _ => None end = Some x ->
                    exists taken rest,
                      String c s = taken +:+ rest /\
                      (lo <= String.length taken)%nat /\ k rest = Some x).
    { intros Hs. destruct lo; [| discriminate]. exists EmptyString, (String c s). auto. }
    destruct (Re.room hi && Re.mem_i cs c); [| now apply Hstop].
    destruct (Re.greedy cs (Nat.pred lo) (Re.less hi) s k) as [y |] eqn:Hg;
      [| now apply Hstop].
    injection H as <-.
    destruct (IH _ _ _ _ Hg) as (taken & rest & -> & Hlen & Hk).
    exists (String c taken), rest. rewrite append_cons. cbn [String.length].
    split; [reflexivity |]. split; [lia | exact Hk].
Qed.

Lemma nonempty_of_length (t : string) : (1 <= String.length t)%nat -> t <> EmptyString.
Proof. destruct t; cbn; [lia | discriminate]. Qed.

Lemma backtrack_sound {R} r :
  forall s g (k : string -> option string -> option R) x,
    Re.backtrack r s g k = Some x ->
    exists taken rest g1,
      s = taken +:+ rest /\ (min_len r <= String.length taken)%nat /\
      k rest g1 = Some x /\
      (sets_group r = true -> exists t, g1 = Some t /\ t <> EmptyString) /\
      (has_group r = false -> g1 = g).
Proof.
  induction r as [| cs | cs lo hi | r1 IH1 r2 IH2 | r1 IH1]; intros s g k x H;
    cbn [Re.backtrack] in H.
  - exists EmptyString, s, g. cbn. repeat split; auto; discriminate.
  - destruct s as [| c rest]; [discriminate |].
    destruct (Re.mem_i cs c); [| discriminate].
    exists (String c EmptyString), rest, g. cbn. repeat split; auto; discriminate.
  - apply greedy_sound in H as (taken & rest & -> & Hlen & Hk).
    exists taken, rest, g. cbn. repeat split; auto; discriminate.
  - apply IH1 in H as (taken1 & rest1 & g1 & -> & Hlen1 & H & Hset1 & Hkeep1).
    apply IH2 in H as (taken2 & rest2 & g2 & -> & Hlen2 & Hk & Hset2 & Hkeep2).
    exists (taken1 +:+ taken2), rest2, g2.
    rewrite append_assoc, length_append. cbn [min_len sets_group has_group].
    split; [reflexivity |]. split; [lia |]. split; [exact Hk |]. split.
    + destruct (has_group r2) eqn:Hg2; [exact Hset2 |].
      intros Hs. rewrite (Hkeep2 eq_refl). auto.
    + intros Hno. apply orb_false_elim in Hno as [Hn1 Hn2].
      now rewrite (Hkeep2 Hn2), (Hkeep1 Hn1).
  - apply IH1 in H as (taken & rest & g1 & -> & Hlen & Hk & _ & _).
    rewrite consumed_prefix in Hk.
    exists taken, rest, (Some taken). cbn [min_len sets_group has_group].
    split; [reflexivity |]. split; [exact Hlen |]. split; [exact Hk |]. split.
    + intros Hs. apply Nat.leb_le in Hs. exists taken. split; [reflexivity |].
      apply nonempty_of_length. lia.
    + discriminate.
Qed.

Lemma search_sets_group r s g :
  sets_group r = true -> Re.search r s = Some g -> exists t, g = Some t /\ t <> EmptyString.
Proof.
  intros Hset. induction s as [| c s IH]; cbn [Re.search]; intros H.
  - destruct (Re.match_at r EmptyString) as [g0 |] eqn:Hm; [| discriminate].
    injection H as <-. unfold Re.match_at in Hm.
    apply backtrack_sound in Hm as (_ & _ & g1 & _ & _ & Hk & Hs & _).
    injection Hk as <-. auto.
  - destruct (Re.match_at r (String c s)) as [g0 |] eqn:Hm; [| auto].
    injection H as <-. unfold Re.match_at in Hm.
    apply backtrack_sound in Hm as (_ & _ & g1 & _ & _ & Hk & Hs & _).
    injection Hk as <-. auto.
Qed.

Lemma cascade_sets_group : forallb sets_group tx_patterns = true.
Proof. reflexivity. Qed.

(** The cascade gives nothing usable only when no pattern matches. *)
Lemma first_match_nothing patterns raw :
  forallb sets_group patterns = true ->
  Py.truthy_opt (first_match patterns raw) = false ->
  forall pattern, In pattern patterns -> Re.search pattern raw = None.
Proof.
  induction patterns as [| p rest IH]; intros Hset Hnone pattern Hin; [destruct Hin |].
  cbn in Hset. apply andb_prop in Hset as [Hp Hrest].
  cbn [first_match] in Hnone.
  destruct (Re.search p raw) as [g |] eqn:Hs.
  - destruct (search_sets_group p raw g Hp Hs) as (t & -> & Ht).
    cbn in Hnone. destruct t; [now contradiction Ht | discriminate].
  - destruct Hin as [<- | Hin]; [exact Hs | now apply IH].
Qed.

(** ** Where the format guidance can come from *)

Lemma embed_is_not_guidance channel title description color fields :
  ~ is_guidance (Send channel (Embed title description color fields)).
Proof. no_guidance. Qed.

Lemma already_decided_is_not_guidance channel st :
  ~ is_guidance (Send channel (already_decided_reply st)).
Proof. no_guidance. Qed.

Lemma already_completed_is_not_guidance channel st :
  ~ is_guidance (Send channel (already_completed_reply st)).
Proof. no_guidance. Qed.

Lemma ask_cost_center_is_not_guidance channel :
  ~ is_guidance (Send channel ask_cost_center_reply).
Proof. no_guidance. Qed.

Lemma sleep_is_not_guidance ms : ~ is_guidance (Sleep ms).
Proof. no_guidance. Qed.

Lemma cell_is_not_guidance row col v : ~ is_guidance (UpdateCell row col v).
Proof. no_guidance. Qed.

Lemma write_is_not_guidance key st : ~ is_guidance (DbWrite key st).
Proof. no_guidance. Qed.

Lemma mirror_is_not_guidance st : ~ is_guidance (Mirror st).
Proof. no_guidance. Qed.

Lemma request_is_not_guidance rq : ~ is_guidance (HttpGet rq).
Proof. no_guidance. Qed.

#[local] Hint Resolve embed_is_not_guidance already_decided_is_not_guidance
  already_completed_is_not_guidance ask_cost_center_is_not_guidance
  sleep_is_not_guidance cell_is_not_guidance write_is_not_guidance
  mirror_is_not_guidance request_is_not_guidance : guidance.

Lemma silent_after_write env key st' channel title description color fields :
  emits (fun e => ~ is_guidance e)
    (run save_state env key st' then
     run update_spreadsheet_row env st' then
     run safe_send env channel (Embed title description color fields) then ret tt).
Proof. apply events_after_write; auto with guidance. Qed.

Lemma silent_show_invoice_status env channel st :
  emits (fun e => ~ is_guidance e) (show_invoice_status env channel st).
Proof.
  unfold show_invoice_status.
  apply emits_bind; [apply emits_lift |]. intros number.
  apply emits_bind.
  { destruct (String.eqb (approval_status st) "pending"); [| apply emits_ret].
    apply emits_bind; [apply emits_lift | intros; apply emits_ret]. }
  intros remaining.
  apply emits_bind; [| intros; apply emits_ret].
  apply emits_safe_send. auto with guidance.
Qed.

Lemma silent_process_approval_message env m text st decision :
  emits (fun e => ~ is_guidance e) (process_approval_message env m text st decision).
Proof.
  unfold process_approval_message.
  apply emits_bind; [apply emits_lift |]. intros number.
  assert (Hsave : forall st',
            emits (fun e => ~ is_guidance e)
              (run save_state env (key_of number) st' then
               update_spreadsheet_row env st')).
  { intros st'. apply emits_bind; [apply emits_save_state; auto with guidance |].
    intros _. apply emits_update_spreadsheet_row; auto with guidance. }
  destruct (String.eqb decision "approved").
  - destruct (Py.split_space1 (Py.strip text)).2.
    + apply emits_bind; [apply emits_safe_send; unfold approved_embed;
                         auto with guidance |].
      intros _. apply Hsave.
    + apply emits_bind; [| intros; apply emits_ret].
      apply emits_safe_send. auto with guidance.
  - destruct (String.eqb decision "rejected"); [| apply Hsave].
    apply emits_bind; [apply emits_safe_send; unfold rejected_embed;
                       auto with guidance |].
    intros _. apply Hsave.
Qed.

Lemma silent_record_verified_payment env m invoice_number st tid :
  emits (fun e => ~ is_guidance e) (record_verified_payment env m invoice_number st tid).
Proof.
  unfold record_verified_payment.
  apply emits_bind; [apply emits_check_transaction_success; auto with guidance |].
  intros success.
  apply emits_bind; [apply emits_get_transaction_amount_eth; auto with guidance |].
  intros amount. unfold verified_embed. apply silent_after_write.
Qed.

Lemma silent_record_trusted_payment env m invoice_number st tid :
  emits (fun e => ~ is_guidance e) (record_trusted_payment env m invoice_number st tid).
Proof. unfold record_trusted_payment, confirmed_embed. apply silent_after_write. Qed.

(** A computation that never sends the guidance justifies anything. *)
Lemma silent_case {A} (c : M A) (X : Prop) w :
  emits (fun e => ~ is_guidance e) c ->
  exists evs, trace (c w).2 = trace w ++ evs /\ (Exists is_guidance evs -> X).
Proof.
  intros Hc. destruct (Hc w) as (evs & Ht & HP). exists evs.
  split; [exact Ht |]. intros Hex. now apply Forall_Exists_neg in HP.
Qed.

Lemma guidance_case env m intent (X : Prop) w :
  (intent = "payment" -> X) ->
  exists evs,
    trace (send_format_guidance env m intent w).2 = trace w ++ evs /\
    (Exists is_guidance evs -> X).
Proof.
  intros HX. unfold send_format_guidance.
  destruct (String.eqb intent "payment") eqn:Hi.
  - apply String.eqb_eq in Hi.
    destruct (emits_bind (fun _ => True) (safe_send env (channel_id m) format_guidance_reply)
                (fun _ => ret tt) (emits_safe_send _ env _ _ I)
                (fun _ => emits_ret _ tt) w) as (evs & Ht & _).
    exists evs. auto.
  - apply silent_case, emits_ret.
Qed.

Lemma route_guidance env m invoice_number st w :
  exists evs,
    trace (route_message env m invoice_number st w).2 = trace w ++ evs /\
    (Exists is_guidance evs ->
     payment_status st = "pending" /\ guidance_justified env m st).
Proof.
  unfold route_message. fold (resolved env m st).
  set (intent := intent_of (resolved env m st)).
  set (raw := Py.strip (content m)).
  destruct (String.eqb intent "status");
    [apply silent_case, silent_show_invoice_status |].
  destruct (negb _ && is_decision intent).
  { apply silent_case, emits_bind;
      [apply emits_safe_send; auto with guidance | intros; apply emits_ret]. }
  destruct (_ && String.eqb intent "approve");
    [apply silent_case, silent_process_approval_message |].
  destruct (_ && String.eqb intent "reject");
    [apply silent_case, silent_process_approval_message |].
  destruct (String.eqb (payment_status st) "pending") eqn:Hp;
    [| apply silent_case, emits_ret].
  apply String.eqb_eq in Hp.
  unfold handle_payment.
  destruct (looks_like_payment intent raw); [| apply silent_case, emits_ret].
  destruct (_ && String.eqb (payment_status st) "completed").
  { apply silent_case, emits_bind;
      [apply emits_safe_send; auto with guidance | intros; apply emits_ret]. }
  assert (Hjust : Py.truthy_opt (extract_transaction_id (resolved env m st) raw) = false ->
                  intent = "payment" ->
                  payment_status st = "pending" /\ guidance_justified env m st).
  { intros Hnone Hi. split; [exact Hp |]. split; [exact Hi |].
    unfold extract_transaction_id in Hnone.
    destruct (Py.truthy_opt (p_transaction_id (resolved env m st))) eqn:Hr;
      [congruence |].
    split; [reflexivity |].
    now apply first_match_nothing; [apply cascade_sets_group |]. }
  destruct (extract_transaction_id (resolved env m st) raw) as [tid |].
  - destruct (Py.truthy tid) eqn:Htid.
    + destruct (bool_decide _);
        [apply silent_case, silent_record_verified_payment
        | apply silent_case, silent_record_trusted_payment].
    + apply guidance_case. now apply Hjust.
  - apply guidance_case. now apply Hjust.
Qed.

Lemma trusted_route_events env m invoice_number st tid :
  emits (trusted_event invoice_number (trusted_payment tid st))
    (record_trusted_payment env m invoice_number st tid).
Proof.
  unfold record_trusted_payment. fold (trusted_payment tid st).
  apply events_after_write; cbn; auto.
Qed.

(** ** The words after the keyword *)

Lemma mem_i_self c : Re.mem_i (Re.Lit c) c = true.
Proof. unfold Re.mem_i. cbn [Re.mem]. now rewrite Ascii.eqb_refl. Qed.

Lemma word_hit {R} w rest g (k : string -> option string -> option R) :
  Re.backtrack (Re.word w) (w +:+ rest) g k = k rest g.
Proof.
  induction w as [| c w IH]; [reflexivity |].
  rewrite append_cons. cbn [Re.word Re.backtrack].
  now rewrite mem_i_self.
Qed.

(** An unbounded greedy run takes a whole word when nothing of the set
    follows it and the rest of the pattern accepts what is left. *)
Lemma greedy_takes_word {R} cs word :
  forall lo post (k : string -> option R) x,
    all_in cs word = true -> stops cs post = true ->
    (lo <= String.length word)%nat -> k post = Some x ->
    Re.greedy cs lo None (word +:+ post) k = Some x.
Proof.
  induction word as [| c word IH]; intros lo post k x Hall Hstop Hlo Hk.
  - rewrite append_nil. cbn in Hlo. assert (lo = 0%nat) as -> by lia.
    destruct post as [| c post]; [exact Hk |].
    cbn [Re.greedy Re.room andb]. cbn in Hstop.
    apply negb_true_iff in Hstop. now rewrite Hstop.
  - rewrite append_cons. cbn in Hall. apply andb_prop in Hall as [Hc Hall].
    cbn [Re.greedy Re.room Re.less andb]. rewrite Hc.
    rewrite (IH (Nat.pred lo) post k x Hall Hstop); [reflexivity | | exact Hk].
    cbn in Hlo. lia.
Qed.

Lemma payment_words_captured post :
  stops alnum_set post = true ->
  Re.match_at payment_keyword_re ("PAYMENT COMPLETED" +:+ post)
  = Some (Some "COMPLETED").
Proof.
  intros Hpost. unfold Re.match_at, payment_keyword_re.
  change ("PAYMENT COMPLETED" +:+ post)
    with ("PAYMENT" +:+ " " +:+ "COMPLETED" +:+ post).
  cbn [Re.seq Re.backtrack]. rewrite word_hit.
  unfold Re.plus. cbn [Re.backtrack].
  apply greedy_takes_word; [reflexivity | reflexivity | cbn; lia |].
  unfold ref_group. cbn [Re.backtrack].
  apply greedy_takes_word; [reflexivity | exact Hpost | cbn; lia |].
  now rewrite consumed_prefix.
Qed.

Lemma search_skips r pre rest :
  no_match_within r pre rest -> Re.search r (pre +:+ rest) = Re.search r rest.
Proof.
  induction pre as [| c pre IH]; [reflexivity |].
  intros [Hnone Hrest]. rewrite append_cons in *. cbn [Re.search].
  rewrite Hnone. now apply IH.
Qed.

Lemma search_at_head r s g : Re.match_at r s = Some g -> Re.search r s = Some g.
Proof. intros H. destruct s; cbn [Re.search]; now rewrite H. Qed.

Lemma upper_append a b : Py.upper (a +:+ b) = Py.upper a +:+ Py.upper b.
Proof.
  induction a as [| c a IH]; [reflexivity |].
  rewrite append_cons. unfold Py.upper in *. cbn [Py.map_chars].
  rewrite append_cons. f_equal. exact IH.
Qed.

Lemma payment_words_look_like_payment intent pre post :
  looks_like_payment intent (pre +:+ "PAYMENT COMPLETED" +:+ post) = true.
Proof.
  unfold looks_like_payment, payment_keywords. cbn [existsb].
  assert (H : Py.contains "PAYMENT"
                (Py.upper (pre +:+ "PAYMENT COMPLETED" +:+ post)) = true).
  { rewrite upper_append. apply contains_after. rewrite upper_append. reflexivity. }
  rewrite H, !orb_true_r. reflexivity.
Qed.

(** C10, amended.  On a record whose payment is pending, take an
    authorized message in ASCII text that gets to the payment part of
    the handler (the resolver's intent, ASCII as well, is not status,
    approve or reject), the resolver having given no reference, and
    whose text holds the words 'PAYMENT COMPLETED' and no reference: no
    ledger hash and no match of the TX, TRANSACTION or REF pattern
    anywhere, no match of the PAYMENT pattern before the words, nothing
    alphanumeric glued to them.  Then the PAYMENT-keyword pattern
    captures 'COMPLETED' as the reference and the handler takes it at
    face value: without a ledger call it writes the record with
    payment_status 'completed' and transaction_ref 'COMPLETED', which is
    what the table holds once the store accepts the write.  And for
    every message in ASCII text that the resolver answers with an ASCII
    intent, whatever the world, the format guidance is sent only to an
    authorized message on a record whose payment is pending, when the
    intent is payment, the resolver gave no reference, and no pattern of
    the cascade (the bare token of 8 characters or more included)
    matches anywhere in the text. *)
Theorem payment_completed_is_captured env w m invoice_number st pre post :
  reaches_record env w m invoice_number st ->
  payment_status st = "pending" ->
  Py.isascii (content m) = true ->
  Py.isascii (Py.str_opt (p_intent (resolved env m st))) = true ->
  payment_stage (intent_of (resolved env m st)) = true ->
  Py.truthy_opt (p_transaction_id (resolved env m st)) = false ->
  Py.strip (content m) = pre +:+ "PAYMENT COMPLETED" +:+ post ->
  (forall pattern, In pattern (firstn 4 tx_patterns) ->
     Re.search pattern (Py.strip (content m)) = None) ->
  no_match_within payment_keyword_re pre ("PAYMENT COMPLETED" +:+ post) ->
  stops alnum_set post = true ->
  let w' := (handle_thread_message env m w).2 in
  let st' := trusted_payment "COMPLETED" st in
  nth_error tx_patterns 4 = Some payment_keyword_re /\
  Re.search payment_keyword_re (Py.strip (content m)) = Some (Some "COMPLETED") /\
  first_match tx_patterns (Py.strip (content m)) = Some "COMPLETED" /\
  handle_thread_message env m w
  = record_trusted_payment env m invoice_number st "COMPLETED" w /\
  payment_status st' = "completed" /\
  transaction_id st' = Some "COMPLETED" /\
  (exists evs,
     trace w' = trace w ++ evs /\ Forall (trusted_event invoice_number st') evs) /\
  (store_accepts env ->
   invoice_states w' = insert_or_replace invoice_number st' (invoice_states w)) /\
  (forall w0 m0,
     Py.isascii (content m0) = true ->
     (forall st0, Py.isascii (Py.str_opt (p_intent (resolved env m0 st0))) = true) ->
     exists evs,
       trace (handle_thread_message env m0 w0).2 = trace w0 ++ evs /\
       (Exists is_guidance evs ->
        exists number0 st0,
          reaches_record env w0 m0 number0 st0 /\
          payment_status st0 = "pending" /\
          guidance_justified env m0 st0)).
Proof.
  intros Hreach Hp _ _ Hstage Hnoref Hraw Hearlier Hbefore Hpost w' st'.
  split; [reflexivity |].
  assert (Hsearch : Re.search payment_keyword_re (Py.strip (content m))
                    = Some (Some "COMPLETED")).
  { rewrite Hraw, (search_skips _ _ _ Hbefore).
    apply search_at_head. now apply payment_words_captured. }
  split; [exact Hsearch |].
  assert (Hfirst : first_match tx_patterns (Py.strip (content m)) = Some "COMPLETED").
  { unfold tx_patterns. cbn [first_match].
    rewrite (Hearlier _ (or_introl eq_refl)).
    rewrite (Hearlier _ (or_intror (or_introl eq_refl))).
    rewrite (Hearlier _ (or_intror (or_intror (or_introl eq_refl)))).
    rewrite (Hearlier _ (or_intror (or_intror (or_intror (or_introl eq_refl))))).
    fold payment_keyword_re. now rewrite Hsearch. }
  split; [exact Hfirst |].
  assert (Hrun : handle_thread_message env m w
                 = record_trusted_payment env m invoice_number st "COMPLETED" w).
  { rewrite (handler_routes _ _ _ _ _ Hreach).
    rewrite (route_to_payment _ _ _ _ Hp Hstage).
    unfold handle_payment, extract_transaction_id.
    rewrite Hnoref, Hfirst, Hraw.
    rewrite payment_words_look_like_payment.
    rewrite (already_completed_guard_never_holds st Hp).
    change (Py.truthy "COMPLETED") with true. cbv beta iota.
    change (Re.fullmatch tx_hash_re "COMPLETED") with (@None (option string)).
    rewrite bool_decide_eq_false_2 by (intros [x Hx]; discriminate).
    reflexivity. }
  split; [exact Hrun |].
  split; [reflexivity |]. split; [reflexivity |].
  split.
  { subst w'. rewrite Hrun. apply trusted_route_events. }
  split.
  { intros Hdb. subst w'. rewrite Hrun. unfold record_trusted_payment.
    fold (trusted_payment "COMPLETED" st). fold st'.
    now apply table_after_write. }
  intros w0 m0 _ _. unfold handle_thread_message.
  destruct (shutting_down w0) eqn:Hrun0.
  { exists []. cbn. rewrite app_nil_r. split; [reflexivity |].
    intros Hex. inversion Hex. }
  destruct (find_state w0 (channel_id m0)) as [[number0 st0] |] eqn:Hfind.
  2: { exists []. cbn. rewrite app_nil_r. split; [reflexivity |].
       intros Hex. inversion Hex. }
  destruct (has_role env m0) eqn:Hrole; cbn [negb].
  2: { exists []. cbn. rewrite app_nil_r. split; [reflexivity |].
       intros Hex. inversion Hex. }
  destruct (route_guidance env m0 number0 st0 w0) as (evs & Ht & Hg).
  exists evs. split; [exact Ht |].
  intros Hex. destruct (Hg Hex) as [Hp0 Hj].
  exists number0, st0.
  split; [repeat split; assumption | split; assumption].
Qed.

Lemma payment_completed_is_captured_witness :
  let env := Sample.env (mkParsed (Some "none") None None None)
               Sample.offline Sample.offline in
  let m := Sample.message "Invoice paid. PAYMENT COMPLETED." in
  let w := Sample.world Sample.pending in
  first_match tx_patterns (Py.strip (content m)) = Some "COMPLETED" /\
  (store_accepts env ->
   invoice_states (handle_thread_message env m w).2
   = insert_or_replace (Some "INV-1") (trusted_payment "COMPLETED" Sample.pending)
       (invoice_states w)).
Proof.
  intros env m w.
  destruct (payment_completed_is_captured env w m (Some "INV-1") Sample.pending
              "Invoice paid. " ".")
    as (_ & _ & Hfirst & _ & _ & _ & _ & Htable & _).
  - repeat split; vm_compute; reflexivity.
  - reflexivity.
  - vm_compute; reflexivity.
  - vm_compute; reflexivity.
  - vm_compute; reflexivity.
  - reflexivity.
  - vm_compute; reflexivity.
  - intros pattern Hin. cbn in Hin.
    repeat (destruct Hin as [<- | Hin]; [vm_compute; reflexivity |]).
    destruct Hin.
  - vm_compute. tauto.
  - reflexivity.
  - split; [exact Hfirst | exact Htable].
Defined.

(** Without the proviso on what comes before the words, another pattern
    takes another word. *)
Example keyword_before_the_words :
  first_match tx_patterns "TX PAYMENT COMPLETED" = Some "PAYMENT".
Proof. vm_compute. reflexivity. Qed.

(** C10 as worded -- every authorized message that holds the words and
    no reference has 'COMPLETED' captured and stored -- fails.  Every
    message to the thread of the pending sample record comes from an
    approver and finds the record, the resolver giving no reference.
    With 'TX' before the words the TX pattern comes first and the
    reference stored is 'PAYMENT'; with the keyword earlier in the text
    the PAYMENT pattern matches there and the reference stored is
    'received'; and with the intent 'status' the handler reports the
    status and stores nothing. *)
Lemma words_are_not_always_captured :
  let env intent := Sample.env (mkParsed (Some intent) None None None)
                      Sample.offline Sample.offline in
  let w := Sample.world Sample.pending in
  let stored text intent :=
    List.map (fun row => (payment_status row.2, transaction_id row.2))
      (invoice_states (handle_thread_message (env intent) (Sample.message text) w).2) in
  (forall text intent,
     reaches_record (env intent) w (Sample.message text) (Some "INV-1") Sample.pending /\
     payment_status Sample.pending = "pending" /\
     p_transaction_id (resolved (env intent) (Sample.message text) Sample.pending)
     = None) /\
  Py.contains "PAYMENT COMPLETED" "TX PAYMENT COMPLETED" = true /\
  stored "TX PAYMENT COMPLETED" "payment" = [("completed", Some "PAYMENT")] /\
  Py.contains "PAYMENT COMPLETED" "payment received - PAYMENT COMPLETED" = true /\
  stored "payment received - PAYMENT COMPLETED" "payment"
  = [("completed", Some "received")] /\
  stored "PAYMENT COMPLETED" "status" = [("pending", None)].
Proof.
  split; [intros text intent; repeat split |].
  repeat split; vm_compute; reflexivity.
Qed.

(** The guidance, sent: the intent is payment and the text holds nothing
    a pattern could take. *)
Example guidance_for_a_bare_claim :
  trace (handle_thread_message
           (Sample.env (mkParsed (Some "payment") None None None)
              Sample.offline Sample.offline)
           (Sample.message "I paid")
           (Sample.world Sample.pending)).2
  = [Send "T1" format_guidance_reply].
Proof. vm_compute. reflexivity. Qed.

(** The same intent with the words 'payment completed': no guidance, the
    record is completed under the reference 'completed'. *)
Example no_guidance_for_payment_completed :
  let w' := (handle_thread_message
               (Sample.env (mkParsed (Some "payment") None None None)
                  Sample.offline Sample.offline)
               (Sample.message "payment completed")
               (Sample.world Sample.pending)).2 in
  List.map (fun row => (payment_status row.2, transaction_id row.2)) (invoice_states w')
  = [("completed", Some "completed")].
Proof. vm_compute. reflexivity. Qed.

(* ===================================================================== *)
(** * Further properties of the handler *)
(* ===================================================================== *)

(** ** The table changes by writes only *)

Lemma table_from_nil w : table_from w w [].
Proof. intros row Hin. now left. Qed.

Lemma table_from_log w e : table_from w (log e w) [e].
Proof. intros row Hin. now left. Qed.

Lemma table_from_app w w1 w2 evs1 evs2 :
  table_from w w1 evs1 -> table_from w1 w2 evs2 -> table_from w w2 (evs1 ++ evs2).
Proof.
  intros H1 H2 row Hin. destruct (H2 row Hin) as [Hin1 | Hev].
  - destruct (H1 row Hin1) as [? | Hev]; [now left |].
    right. apply in_or_app. now left.
  - right. apply in_or_app. now right.
Qed.

Lemma in_insert_or_replace key st rows row :
  In row (insert_or_replace key st rows) -> In row rows \/ row = (key, st).
Proof.
  unfold insert_or_replace. intros Hin.
  destruct key; apply in_app_or in Hin as [Hin | Hin].
  - apply List.filter_In in Hin as [Hin _]. now left.
  - destruct Hin as [<- | []]. now right.
  - now left.
  - destruct Hin as [<- | []]. now right.
Qed.

Lemma tracks_ret {A} (a : A) : tracks (ret a).
Proof.
  intros w. exists []. cbn. rewrite app_nil_r.
  repeat split. apply table_from_nil.
Qed.

Lemma tracks_raise {A} e : tracks (@raise A e).
Proof.
  intros w. exists []. cbn. rewrite app_nil_r.
  repeat split. apply table_from_nil.
Qed.

Lemma tracks_lift {A} (o : outcome A) : tracks (lift o).
Proof.
  intros w. exists []. cbn. rewrite app_nil_r.
  repeat split. apply table_from_nil.
Qed.

Lemma tracks_emit e : tracks (emit e).
Proof. intros w. exists [e]. cbn. repeat split. apply table_from_log. Qed.

Lemma tracks_bind {A B} (c : M A) (f : A -> M B) :
  tracks c -> (forall a, tracks (f a)) -> tracks (bind c f).
Proof.
  intros Hc Hf w. unfold bind.
  destruct (Hc w) as (evs & Ht & Htab & Hmap & Hdown).
  destruct (c w) as [[a | e] w1]; cbn in Ht, Htab, Hmap, Hdown.
  - destruct (Hf a w1) as (evs' & Ht' & Htab' & Hmap' & Hdown').
    exists (evs ++ evs'). rewrite Ht', Ht, <- app_assoc, Hmap', Hdown'.
    repeat split; try assumption. now apply table_from_app with w1.
  - exists evs. auto.
Qed.

Lemma tracks_try_except {A} (c : M A) (h : exn -> M A) :
  tracks c -> (forall e, tracks (h e)) -> tracks (try_except c h).
Proof.
  intros Hc Hh w. unfold try_except.
  destruct (Hc w) as (evs & Ht & Htab & Hmap & Hdown).
  destruct (c w) as [[a | e] w1]; cbn in Ht, Htab, Hmap, Hdown.
  - exists evs. auto.
  - destruct (Hh e w1) as (evs' & Ht' & Htab' & Hmap' & Hdown').
    exists (evs ++ evs'). rewrite Ht', Ht, <- app_assoc, Hmap', Hdown'.
    repeat split; try assumption. now apply table_from_app with w1.
Qed.

(** A call that is logged, answered, and followed by nothing. *)
Lemma tracks_logged_end {A} e (o : outcome A) w :
  exists evs,
    trace (o, log e w).2 = trace w ++ evs /\
    table_from w (o, log e w).2 evs /\
    thread_map (o, log e w).2 = thread_map w /\
    shutting_down (o, log e w).2 = shutting_down w.
Proof. exists [e]. cbn. repeat split. apply table_from_log. Qed.

(** A call that is logged, and followed by a computation that tracks. *)
Lemma tracks_logged_then {A} e (c : M A) w :
  tracks c ->
  exists evs,
    trace (c (log e w)).2 = trace w ++ evs /\
    table_from w (c (log e w)).2 evs /\
    thread_map (c (log e w)).2 = thread_map w /\
    shutting_down (c (log e w)).2 = shutting_down w.
Proof.
  intros Hc. destruct (Hc (log e w)) as (evs & Ht & Htab & Hmap & Hdown).
  exists (e :: evs). rewrite Ht, Hmap, Hdown. cbn. rewrite <- app_assoc.
  repeat split. change (e :: evs) with ([e] ++ evs).
  apply table_from_app with (log e w); [apply table_from_log | exact Htab].
Qed.

Lemma tracks_time_sleep globals ms : tracks (time_sleep globals ms).
Proof.
  unfold time_sleep. destruct (bound globals "time");
    [apply tracks_emit | apply tracks_raise].
Qed.

Lemma tracks_safe_send env channel p : tracks (safe_send env channel p).
Proof.
  intros w. unfold safe_send. destruct (shutting_down w) eqn:Hd.
  - exists []. cbn. rewrite app_nil_r. repeat split; [apply table_from_nil | exact Hd].
  - assert (Hend : forall o : outcome (option string),
              exists evs,
                trace (o, log (Send channel p) w).2 = trace w ++ evs /\
                table_from w (o, log (Send channel p) w).2 evs /\
                thread_map (o, log (Send channel p) w).2 = thread_map w /\
                shutting_down (o, log (Send channel p) w).2 = false).
    { intros o. exists [Send channel p]. cbn.
      repeat split; [apply table_from_log | exact Hd]. }
    destruct (channel_send env _) as [id | e]; [apply Hend |].
    destruct e; try apply Hend.
    destruct (Py.contains _ _); apply Hend.
Qed.

Lemma tracks_save_state_loop env n :
  forall delay key st, tracks (save_state_loop env n delay key st).
Proof.
  induction n as [| n IH]; intros delay key st; [apply tracks_ret |].
  intros w. cbn [save_state_loop].
  destruct (db_execute env _) as [[] | e].
  - exists [DbWrite key st]. cbn. repeat split.
    intros row Hin. cbn in Hin.
    apply in_insert_or_replace in Hin as [Hin | ->]; [now left |].
    right. now left.
  - destruct e; try apply tracks_logged_end.
    destruct (_ || _); [| apply tracks_logged_end].
    apply tracks_logged_then.
    apply tracks_bind; [apply tracks_time_sleep | intros; apply IH].
Qed.

Lemma tracks_save_state env key st : tracks (save_state env key st).
Proof. apply tracks_save_state_loop. Qed.

Lemma tracks_etherscan_attempts env n :
  forall attempt rq last_err, tracks (etherscan_attempts env n attempt rq last_err).
Proof.
  induction n as [| n IH]; intros attempt rq last_err; [apply tracks_raise |].
  intros w. cbn [etherscan_attempts].
  destruct (requests_get env _) as [data | e]; [apply tracks_logged_end |].
  apply tracks_logged_then.
  apply tracks_bind; [apply tracks_time_sleep | intros; apply IH].
Qed.

Lemma tracks_check_transaction_success env tx :
  tracks (check_transaction_success env tx).
Proof.
  apply tracks_try_except; [| intros; apply tracks_ret].
  apply tracks_bind; [apply tracks_etherscan_attempts | intros; apply tracks_lift].
Qed.

Lemma tracks_get_transaction_amount_eth env tx :
  tracks (get_transaction_amount_eth env tx).
Proof.
  apply tracks_try_except; [| intros; apply tracks_ret].
  apply tracks_bind; [apply tracks_etherscan_attempts | intros; apply tracks_lift].
Qed.

Lemma tracks_write_cells env us : tracks (write_cells env us).
Proof.
  induction us as [| [[row col] v] rest IH]; [apply tracks_ret |].
  intros w. cbn [write_cells].
  destruct (update_cell env _) as [[] | e];
    [now apply tracks_logged_then | apply tracks_logged_end].
Qed.

Lemma tracks_update_spreadsheet_row env st : tracks (update_spreadsheet_row env st).
Proof.
  unfold update_spreadsheet_row. apply tracks_bind; [apply tracks_emit |]. intros _.
  destruct (spreadsheet_row st) as [row |]; [| apply tracks_ret].
  destruct (row =? 0); [apply tracks_ret | apply tracks_write_cells].
Qed.

Lemma tracks_after_write env key st' channel p :
  tracks (run save_state env key st' then
          run update_spreadsheet_row env st' then
          run safe_send env channel p then ret tt).
Proof.
  apply tracks_bind; [apply tracks_save_state |]. intros _.
  apply tracks_bind; [apply tracks_update_spreadsheet_row |]. intros _.
  apply tracks_bind; [apply tracks_safe_send | intros; apply tracks_ret].
Qed.

Lemma tracks_show_invoice_status env channel st :
  tracks (show_invoice_status env channel st).
Proof.
  unfold show_invoice_status.
  apply tracks_bind; [apply tracks_lift |]. intros number.
  apply tracks_bind.
  { destruct (String.eqb (approval_status st) "pending"); [| apply tracks_ret].
    apply tracks_bind; [apply tracks_lift | intros; apply tracks_ret]. }
  intros remaining.
  apply tracks_bind; [apply tracks_safe_send | intros; apply tracks_ret].
Qed.

Lemma tracks_process_approval_message env m text st decision :
  tracks (process_approval_message env m text st decision).
Proof.
  unfold process_approval_message.
  apply tracks_bind; [apply tracks_lift |]. intros number.
  assert (Hsave : forall st',
            tracks (run save_state env (key_of number) st' then
                    update_spreadsheet_row env st')).
  { intros st'. apply tracks_bind; [apply tracks_save_state |].
    intros _. apply tracks_update_spreadsheet_row. }
  destruct (String.eqb decision "approved").
  - destruct (Py.split_space1 (Py.strip text)).2.
    + apply tracks_bind; [apply tracks_safe_send | intros; apply Hsave].
    + apply tracks_bind; [apply tracks_safe_send | intros; apply tracks_ret].
  - destruct (String.eqb decision "rejected"); [| apply Hsave].
    apply tracks_bind; [apply tracks_safe_send | intros; apply Hsave].
Qed.

Lemma tracks_handle_payment env m invoice_number st parsed intent raw :
  tracks (handle_payment env m invoice_number st parsed intent raw).
Proof.
  assert (Hguide : tracks (send_format_guidance env m intent)).
  { unfold send_format_guidance. destruct (String.eqb intent "payment");
      [| apply tracks_ret].
    apply tracks_bind; [apply tracks_safe_send | intros; apply tracks_ret]. }
  unfold handle_payment.
  destruct (looks_like_payment intent raw); [| apply tracks_ret].
  destruct (_ && _).
  { apply tracks_bind; [apply tracks_safe_send | intros; apply tracks_ret]. }
  destruct (extract_transaction_id parsed raw) as [tid |]; [| exact Hguide].
  destruct (Py.truthy tid); [| exact Hguide].
  destruct (bool_decide _).
  - unfold record_verified_payment.
    apply tracks_bind; [apply tracks_check_transaction_success |]. intros success.
    apply tracks_bind; [apply tracks_get_transaction_amount_eth |]. intros amount.
    apply tracks_after_write.
  - apply tracks_after_write.
Qed.

Lemma tracks_route_message env m invoice_number st :
  tracks (route_message env m invoice_number st).
Proof.
  unfold route_message.
  destruct (String.eqb _ "status"); [apply tracks_show_invoice_status |].
  destruct (negb _ && _).
  { apply tracks_bind; [apply tracks_safe_send | intros; apply tracks_ret]. }
  destruct (_ && String.eqb _ "approve"); [apply tracks_process_approval_message |].
  destruct (_ && String.eqb _ "reject"); [apply tracks_process_approval_message |].
  destruct (String.eqb (payment_status st) "pending");
    [apply tracks_handle_payment | apply tracks_ret].
Qed.

(** The handler does nothing, or it routes the message of an approver to
    the record of the thread. *)
Lemma handler_cases env m w :
  handle_thread_message env m w = (Ret tt, w) \/
  exists invoice_number st,
    reaches_record env w m invoice_number st /\
    handle_thread_message env m w = route_message env m invoice_number st w.
Proof.
  unfold handle_thread_message, reaches_record.
  destruct (shutting_down w) eqn:Hd; [now left |].
  destruct (find_state w (channel_id m)) as [[number st] |] eqn:Hf; [| now left].
  destruct (has_role env m) eqn:Hr; [| now left].
  right. exists number, st. auto.
Qed.

Lemma tracks_handle_thread_message env m : tracks (handle_thread_message env m).
Proof.
  intros w. destruct (handler_cases env m w) as [-> | (number & st & _ & ->)].
  - apply (tracks_ret tt w).
  - apply tracks_route_message.
Qed.

(** ** What a message may make of a record *)

Lemma respects_approval st st' :
  approval_status st = "pending" ->
  same_identity st st' -> same_payment st st' -> respects st st'.
Proof.
  intros Hp Hid Hpay. split; [exact Hid |]. split; [now right |].
  split; [intros Hn; now contradiction Hn | intros _; exact Hpay].
Qed.

Lemma respects_payment st st' :
  payment_status st = "pending" ->
  same_identity st st' -> same_approval st st' -> respects st st'.
Proof.
  intros Hp Hid Happ. split; [exact Hid |]. split; [now left |].
  split; [intros _; exact Happ | intros Hn; now contradiction Hn].
Qed.

Lemma respectful_after_write env st key st' channel p :
  respects st st' ->
  emits (respectful st)
    (run save_state env key st' then
     run update_spreadsheet_row env st' then
     run safe_send env channel p then ret tt).
Proof. intros H. apply events_after_write; cbn; auto. Qed.

Lemma respectful_process_approval_message env m text st decision :
  approval_status st = "pending" ->
  emits (respectful st) (process_approval_message env m text st decision).
Proof.
  intros Hp. unfold process_approval_message.
  apply emits_bind; [apply emits_lift |]. intros number.
  assert (Hsave : forall st',
            same_identity st st' -> same_payment st st' ->
            emits (respectful st)
              (run save_state env (key_of number) st' then
               update_spreadsheet_row env st')).
  { intros st' Hid Hpay.
    pose proof (respects_approval st st' Hp Hid Hpay) as Hr.
    apply emits_bind; [apply emits_save_state; cbn; auto |].
    intros _. apply emits_update_spreadsheet_row; cbn; auto. }
  destruct (String.eqb decision "approved").
  - destruct (Py.split_space1 (Py.strip text)).2.
    + apply emits_bind; [apply emits_safe_send; exact I |].
      intros _. apply Hsave; repeat split.
    + apply emits_bind; [apply emits_safe_send; exact I | intros; apply emits_ret].
  - destruct (String.eqb decision "rejected").
    + apply emits_bind; [apply emits_safe_send; exact I |].
      intros _. destruct (Py.split_space1 (Py.strip text)).2;
        apply Hsave; repeat split.
    + apply Hsave; repeat split.
Qed.

Lemma respectful_handle_payment env m invoice_number st parsed intent raw :
  payment_status st = "pending" ->
  emits (respectful st) (handle_payment env m invoice_number st parsed intent raw).
Proof.
  intros Hp.
  assert (Hsend : forall p, emits (respectful st)
                              (run safe_send env (channel_id m) p then ret tt)).
  { intros p. apply emits_bind; [apply emits_safe_send; exact I
                                | intros; apply emits_ret]. }
  assert (Hguide : emits (respectful st) (send_format_guidance env m intent)).
  { unfold send_format_guidance. destruct (String.eqb intent "payment");
      [apply Hsend | apply emits_ret]. }
  unfold handle_payment.
  destruct (looks_like_payment intent raw); [| apply emits_ret].
  destruct (_ && _); [apply Hsend |].
  destruct (extract_transaction_id parsed raw) as [tid |]; [| exact Hguide].
  destruct (Py.truthy tid); [| exact Hguide].
  destruct (bool_decide _).
  - unfold record_verified_payment.
    apply emits_bind;
      [apply emits_check_transaction_success; intros; exact I |].
    intros success.
    apply emits_bind;
      [apply emits_get_transaction_amount_eth; intros; exact I |].
    intros amount. apply respectful_after_write.
    apply respects_payment; [exact Hp | |]; repeat split.
  - unfold record_trusted_payment. apply respectful_after_write.
    apply respects_payment; [exact Hp | |]; repeat split.
Qed.

Lemma respectful_route_message env m invoice_number st :
  emits (respectful st) (route_message env m invoice_number st).
Proof.
  unfold route_message.
  destruct (String.eqb _ "status").
  { unfold show_invoice_status.
    apply emits_bind; [apply emits_lift |]. intros number.
    apply emits_bind.
    { destruct (String.eqb (approval_status st) "pending"); [| apply emits_ret].
      apply emits_bind; [apply emits_lift | intros; apply emits_ret]. }
    intros remaining.
    apply emits_bind; [apply emits_safe_send; exact I | intros; apply emits_ret]. }
  destruct (negb _ && _).
  { apply emits_bind; [apply emits_safe_send; exact I | intros; apply emits_ret]. }
  destruct (String.eqb (approval_status st) "pending") eqn:Ha.
  - apply String.eqb_eq in Ha. cbn [andb].
    destruct (String.eqb _ "approve");
      [now apply respectful_process_approval_message |].
    destruct (String.eqb _ "reject");
      [now apply respectful_process_approval_message |].
    destruct (String.eqb (payment_status st) "pending") eqn:Hp; [| apply emits_ret].
    apply String.eqb_eq in Hp. now apply respectful_handle_payment.
  - cbn [andb].
    destruct (String.eqb (payment_status st) "pending") eqn:Hp; [| apply emits_ret].
    apply String.eqb_eq in Hp. now apply respectful_handle_payment.
Qed.

Lemma respectful_in st evs key st' :
  Forall (respectful st) evs -> In (DbWrite key st') evs -> respects st st'.
Proof.
  intros Hall Hin. rewrite List.Forall_forall in Hall.
  exact (Hall (DbWrite key st') Hin).
Qed.

(** X1.  Whatever an approver writes in the thread of a record, the record
    keeps its payload, its thread, its reminder and spreadsheet
    bookkeeping; a message changes the approval side or the payment side,
    never both; and a side that has left 'pending' is never changed
    again.  This holds for every record the handler writes or mirrors,
    and so for every row of the table afterwards that was not there
    before. *)
Theorem messages_respect_the_record env w m invoice_number st :
  reaches_record env w m invoice_number st ->
  let w' := (handle_thread_message env m w).2 in
  thread_map w' = thread_map w /\
  (forall row, In row (invoice_states w') ->
               In row (invoice_states w) \/ respects st row.2) /\
  exists evs, trace w' = trace w ++ evs /\ Forall (respectful st) evs.
Proof.
  intros Hreach w'.
  destruct (tracks_handle_thread_message env m w) as (evs & Ht & Htab & Hmap & _).
  pose proof (handler_routes _ _ _ _ _ Hreach) as Hroute.
  destruct (respectful_route_message env m invoice_number st w) as (evs' & Ht' & Hall).
  rewrite <- Hroute in Ht'.
  assert (evs' = evs) as -> by (rewrite Ht in Ht'; now apply app_inv_head in Ht').
  split; [exact Hmap |]. split; [| now exists evs].
  intros row Hin. destruct (Htab row Hin) as [Hold | Hnew]; [now left |].
  right. now apply respectful_in with evs row.1.
Qed.

Lemma messages_respect_the_record_witness :
  let env := Sample.env (mkParsed (Some "payment") None None None)
               Sample.receipt_ok Sample.transaction_found in
  let m := Sample.message ("paid " +:+ Sample.hash) in
  let w := Sample.world Sample.approved in
  let w' := (handle_thread_message env m w).2 in
  thread_map w' = thread_map w /\
  (forall row, In row (invoice_states w') ->
               In row (invoice_states w) \/ respects Sample.approved row.2) /\
  exists evs, trace w' = trace w ++ evs /\ Forall (respectful Sample.approved) evs.
Proof.
  intros env m w.
  apply (messages_respect_the_record env w m (Some "INV-1") Sample.approved).
  repeat split; vm_compute; reflexivity.
Defined.

(** ** How many calls a message may cost *)

Lemma count_app f evs evs' : count f (evs ++ evs') = (count f evs + count f evs')%nat.
Proof. unfold count. now rewrite List.filter_app, length_app. Qed.

Lemma no_more_than_nil : no_more_than 0 0 0 0 [].
Proof. repeat split; cbn; lia. Qed.

Lemma no_more_than_app s d m r s' d' m' r' evs evs' :
  no_more_than s d m r evs -> no_more_than s' d' m' r' evs' ->
  no_more_than (s + s') (d + d') (m + m') (r + r') (evs ++ evs').
Proof.
  intros (H1 & H2 & H3 & H4) (H1' & H2' & H3' & H4').
  unfold no_more_than. rewrite !count_app. lia.
Qed.

Lemma no_more_than_weaken s d m r s' d' m' r' evs :
  (s <= s')%nat -> (d <= d')%nat -> (m <= m')%nat -> (r <= r')%nat ->
  no_more_than s d m r evs -> no_more_than s' d' m' r' evs.
Proof. intros ? ? ? ? (H1 & H2 & H3 & H4). unfold no_more_than. lia. Qed.

Lemma within_weaken {A} s d m r s' d' m' r' (c : M A) :
  (s <= s')%nat -> (d <= d')%nat -> (m <= m')%nat -> (r <= r')%nat ->
  within s d m r c -> within s' d' m' r' c.
Proof.
  intros ? ? ? ? Hc w. destruct (Hc w) as (evs & Ht & Hn).
  exists evs. split; [exact Ht |]. now apply no_more_than_weaken with s d m r.
Qed.

Lemma within_ret {A} (a : A) : within 0 0 0 0 (ret a).
Proof. intros w. exists []. cbn. rewrite app_nil_r. split; [reflexivity | apply no_more_than_nil]. Qed.

Lemma within_raise {A} e : within 0 0 0 0 (@raise A e).
Proof. intros w. exists []. cbn. rewrite app_nil_r. split; [reflexivity | apply no_more_than_nil]. Qed.

Lemma within_lift {A} (o : outcome A) : within 0 0 0 0 (lift o).
Proof. intros w. exists []. cbn. rewrite app_nil_r. split; [reflexivity | apply no_more_than_nil]. Qed.

Lemma within_bind {A B} s d m r s' d' m' r' (c : M A) (f : A -> M B) :
  within s d m r c -> (forall a, within s' d' m' r' (f a)) ->
  within (s + s') (d + d') (m + m') (r + r') (bind c f).
Proof.
  intros Hc Hf w. unfold bind.
  destruct (Hc w) as (evs & Ht & Hn).
  destruct (c w) as [[a | e] w1]; cbn in Ht.
  - destruct (Hf a w1) as (evs' & Ht' & Hn').
    exists (evs ++ evs'). rewrite Ht', Ht, <- app_assoc.
    split; [reflexivity | now apply no_more_than_app].
  - exists evs. split; [exact Ht |].
    apply no_more_than_weaken with s d m r; try lia. exact Hn.
Qed.

Lemma within_try_except {A} s d m r s' d' m' r' (c : M A) (h : exn -> M A) :
  within s d m r c -> (forall e, within s' d' m' r' (h e)) ->
  within (s + s') (d + d') (m + m') (r + r') (try_except c h).
Proof.
  intros Hc Hh w. unfold try_except.
  destruct (Hc w) as (evs & Ht & Hn).
  destruct (c w) as [[a | e] w1]; cbn in Ht.
  - exists evs. split; [exact Ht |].
    apply no_more_than_weaken with s d m r; try lia. exact Hn.
  - destruct (Hh e w1) as (evs' & Ht' & Hn').
    exists (evs ++ evs'). rewrite Ht', Ht, <- app_assoc.
    split; [reflexivity | now apply no_more_than_app].
Qed.

(** A call that is logged, answered, and followed by nothing. *)
Lemma within_logged_end {A} s d m r e (o : outcome A) w :
  no_more_than s d m r [e] ->
  exists evs,
    trace (o, log e w).2 = trace w ++ evs /\ no_more_than s d m r evs.
Proof. intros Hn. now exists [e]. Qed.

(** A call that is logged, and followed by a computation with a budget. *)
Lemma within_logged_then {A} s d m r s' d' m' r' e (c : M A) w :
  no_more_than s d m r [e] -> within s' d' m' r' c ->
  exists evs,
    trace (c (log e w)).2 = trace w ++ evs /\
    no_more_than (s + s') (d + d') (m + m') (r + r') evs.
Proof.
  intros Hn Hc. destruct (Hc (log e w)) as (evs & Ht & Hn').
  exists ([e] ++ evs). rewrite Ht. cbn [log trace]. rewrite <- app_assoc.
  split; [reflexivity | now apply no_more_than_app].
Qed.

Lemma within_time_sleep globals ms : within 0 0 0 0 (time_sleep globals ms).
Proof.
  unfold time_sleep. destruct (bound globals "time"); [| apply within_raise].
  intros w. exists [Sleep ms]. split; [reflexivity |]. repeat split; cbn; lia.
Qed.

Lemma within_safe_send env channel p : within 1 0 0 0 (safe_send env channel p).
Proof.
  intros w. unfold safe_send. destruct (shutting_down w).
  - exists []. cbn. rewrite app_nil_r. split; [reflexivity |].
    repeat split; cbn; lia.
  - assert (Hone : no_more_than 1 0 0 0 [Send channel p])
      by (repeat split; cbn; lia).
    destruct (channel_send env _) as [id | e]; [now apply within_logged_end |].
    destruct e; try now apply within_logged_end.
    destruct (Py.contains _ _); now apply within_logged_end.
Qed.

(** A write is attempted once: the pause before a second attempt cannot
    be taken in this module. *)
Lemma within_save_state_loop env n :
  forall delay key st, within 0 1 0 0 (save_state_loop env n delay key st).
Proof.
  destruct n as [| n]; intros delay key st.
  { apply within_weaken with 0%nat 0%nat 0%nat 0%nat; try lia. apply within_ret. }
  intros w. cbn [save_state_loop].
  assert (Hone : no_more_than 0 1 0 0 [DbWrite key st])
    by (repeat split; cbn; lia).
  destruct (db_execute env _) as [[] | e].
  - exists [DbWrite key st]. now split.
  - destruct e; try now apply within_logged_end.
    destruct (_ || _); [| now apply within_logged_end].
    exists [DbWrite key st]. split; [| exact Hone].
    unfold bind, time_sleep. rewrite time_is_unbound. reflexivity.
Qed.

Lemma within_save_state env key st : within 0 1 0 0 (save_state env key st).
Proof. apply within_save_state_loop. Qed.

Lemma within_etherscan_attempts env n :
  forall attempt rq last_err,
    within 0 0 0 n (etherscan_attempts env n attempt rq last_err).
Proof.
  induction n as [| n IH]; intros attempt rq last_err; [apply within_raise |].
  intros w. cbn [etherscan_attempts].
  assert (Hone : no_more_than 0 0 0 1 [HttpGet rq])
    by (repeat split; cbn; lia).
  destruct (requests_get env _) as [data | e].
  - exists [HttpGet rq]. split; [reflexivity |].
    apply no_more_than_weaken with 0%nat 0%nat 0%nat 1%nat; try lia. exact Hone.
  - change (S n) with (1 + n)%nat.
    apply (within_logged_then 0 0 0 1 0 0 0 n); [exact Hone |].
    apply (within_bind 0 0 0 0 0 0 0 n);
      [apply within_time_sleep | intros; apply IH].
Qed.

Lemma within_check_transaction_success env tx :
  within 0 0 0 3 (check_transaction_success env tx).
Proof.
  apply (within_try_except 0 0 0 3 0 0 0 0); [| intros; apply within_ret].
  apply (within_bind 0 0 0 3 0 0 0 0);
    [apply within_etherscan_attempts | intros; apply within_lift].
Qed.

Lemma within_get_transaction_amount_eth env tx :
  within 0 0 0 3 (get_transaction_amount_eth env tx).
Proof.
  apply (within_try_except 0 0 0 3 0 0 0 0); [| intros; apply within_ret].
  apply (within_bind 0 0 0 3 0 0 0 0);
    [apply within_etherscan_attempts | intros; apply within_lift].
Qed.

Lemma within_write_cells env us : within 0 0 0 0 (write_cells env us).
Proof.
  induction us as [| [[row col] v] rest IH]; [apply within_ret |].
  intros w. cbn [write_cells].
  assert (Hone : no_more_than 0 0 0 0 [UpdateCell row col v])
    by (repeat split; cbn; lia).
  destruct (update_cell env _) as [[] | e].
  - now apply (within_logged_then 0 0 0 0 0 0 0 0).
  - now apply within_logged_end.
Qed.

Lemma within_update_spreadsheet_row env st :
  within 0 0 1 0 (update_spreadsheet_row env st).
Proof.
  unfold update_spreadsheet_row.
  apply (within_bind 0 0 1 0 0 0 0 0).
  - intros w. exists [Mirror st]. split; [reflexivity |]. repeat split; cbn; lia.
  - intros _. destruct (spreadsheet_row st) as [row |]; [| apply within_ret].
    destruct (row =? 0); [apply within_ret | apply within_write_cells].
Qed.

Lemma within_reply env channel p :
  within 1 0 0 0 (run safe_send env channel p then ret tt).
Proof.
  apply (within_bind 1 0 0 0 0 0 0 0);
    [apply within_safe_send | intros; apply within_ret].
Qed.

Lemma within_after_write env key st channel p :
  within 1 1 1 0
    (run save_state env key st then
     run update_spreadsheet_row env st then
     run safe_send env channel p then ret tt).
Proof.
  apply (within_bind 0 1 0 0 1 0 1 0); [apply within_save_state |].
  intros _. apply (within_bind 0 0 1 0 1 0 0 0);
    [apply within_update_spreadsheet_row | intros; apply within_reply].
Qed.

Lemma within_show_invoice_status env channel st :
  within 1 0 0 0 (show_invoice_status env channel st).
Proof.
  unfold show_invoice_status.
  apply (within_bind 0 0 0 0 1 0 0 0); [apply within_lift |]. intros number.
  apply (within_bind 0 0 0 0 1 0 0 0); [| intros; apply within_reply].
  destruct (String.eqb (approval_status st) "pending"); [| apply within_ret].
  apply (within_bind 0 0 0 0 0 0 0 0); [apply within_lift | intros; apply within_ret].
Qed.

Lemma within_process_approval_message env m text st decision :
  within 1 1 1 0 (process_approval_message env m text st decision).
Proof.
  unfold process_approval_message.
  apply (within_bind 0 0 0 0 1 1 1 0); [apply within_lift |]. intros number.
  assert (Hsave : forall st',
            within 0 1 1 0
              (run save_state env (key_of number) st' then
               update_spreadsheet_row env st')).
  { intros st'. apply (within_bind 0 1 0 0 0 0 1 0);
      [apply within_save_state | intros; apply within_update_spreadsheet_row]. }
  destruct (String.eqb decision "approved").
  - destruct (Py.split_space1 (Py.strip text)).2.
    + apply (within_bind 1 0 0 0 0 1 1 0);
        [apply within_safe_send | intros; apply Hsave].
    + apply within_weaken with 1%nat 0%nat 0%nat 0%nat; try lia.
      apply within_reply.
  - destruct (String.eqb decision "rejected").
    + apply (within_bind 1 0 0 0 0 1 1 0); [apply within_safe_send |].
      intros _. destruct (Py.split_space1 (Py.strip text)).2; apply Hsave.
    + apply within_weaken with 0%nat 1%nat 1%nat 0%nat; try lia. apply Hsave.
Qed.

Lemma within_handle_payment env m invoice_number st parsed intent raw :
  within 1 1 1 6 (handle_payment env m invoice_number st parsed intent raw).
Proof.
  assert (Hnone : within 1 1 1 6 (@ret unit tt)).
  { apply within_weaken with 0%nat 0%nat 0%nat 0%nat; try lia. apply within_ret. }
  assert (Hsend : forall p, within 1 1 1 6
                              (run safe_send env (channel_id m) p then ret tt)).
  { intros p. apply within_weaken with 1%nat 0%nat 0%nat 0%nat; try lia.
    apply within_reply. }
  assert (Hguide : within 1 1 1 6 (send_format_guidance env m intent)).
  { unfold send_format_guidance. destruct (String.eqb intent "payment");
      [apply Hsend | exact Hnone]. }
  unfold handle_payment.
  destruct (looks_like_payment intent raw); [| exact Hnone].
  destruct (_ && _); [apply Hsend |].
  destruct (extract_transaction_id parsed raw) as [tid |]; [| exact Hguide].
  destruct (Py.truthy tid); [| exact Hguide].
  destruct (bool_decide _).
  - unfold record_verified_payment.
    apply (within_bind 0 0 0 3 1 1 1 3);
      [apply within_check_transaction_success |].
    intros success.
    apply (within_bind 0 0 0 3 1 1 1 0);
      [apply within_get_transaction_amount_eth |].
    intros amount. apply within_after_write.
  - unfold record_trusted_payment.
    apply within_weaken with 1%nat 1%nat 1%nat 0%nat; try lia.
    apply within_after_write.
Qed.

Lemma within_route_message env m invoice_number st :
  within 1 1 1 6 (route_message env m invoice_number st).
Proof.
  assert (Hnone : within 1 1 1 6 (@ret unit tt)).
  { apply within_weaken with 0%nat 0%nat 0%nat 0%nat; try lia. apply within_ret. }
  assert (Happ : forall text decision,
            within 1 1 1 6 (process_approval_message env m text st decision)).
  { intros. apply within_weaken with 1%nat 1%nat 1%nat 0%nat; try lia.
    apply within_process_approval_message. }
  unfold route_message.
  destruct (String.eqb _ "status").
  { apply within_weaken with 1%nat 0%nat 0%nat 0%nat; try lia.
    apply within_show_invoice_status. }
  destruct (negb _ && _).
  { apply within_weaken with 1%nat 0%nat 0%nat 0%nat; try lia.
    apply within_reply. }
  destruct (_ && String.eqb _ "approve"); [apply Happ |].
  destruct (_ && String.eqb _ "reject"); [apply Happ |].
  destruct (String.eqb (payment_status st) "pending"); [| exact Hnone].
  apply within_handle_payment.
Qed.

(** X2.  Of the calls the trace records -- sends to the chat platform, writes
    of the record, passes over the spreadsheet row with their cell
    updates, requests to the ledger and the pauses between them -- one
    message costs at most one send, one write, one pass and six
    requests; and it costs none of them unless it arrives while the
    agent runs, in the thread of a stored record, from an author with
    the approver role.  The look-up of the member by [guild.fetch_member]
    and the resolver's request to the language model are read, not
    recorded: they are not counted here. *)
Theorem one_message_costs_little env m w :
  exists evs,
    trace (handle_thread_message env m w).2 = trace w ++ evs /\
    no_more_than 1 1 1 6 evs /\
    (evs <> [] -> exists invoice_number st, reaches_record env w m invoice_number st).
Proof.
  destruct (handler_cases env m w) as [-> | (number & st & Hreach & ->)].
  - exists []. cbn. rewrite app_nil_r. split; [reflexivity |].
    split; [| intros Hne; now contradiction Hne].
    repeat split; cbn; lia.
  - destruct (within_route_message env m number st w) as (evs & Ht & Hn).
    exists evs. split; [exact Ht |]. split; [exact Hn |].
    intros _. now exists number, st.
Qed.

(** ** The token after the command word *)

Lemma rstrip_app a b :
  Py.rstrip (a +:+ b)
  = match Py.rstrip b with
    | EmptyString => Py.rstrip a
    | String c r => a +:+ String c r
    end.
Proof.
  induction a as [| x a IH].
  - rewrite append_nil. now destruct (Py.rstrip b).
  - rewrite append_cons. cbn [Py.rstrip]. rewrite IH.
    destruct (Py.rstrip b) as [| c r]; [reflexivity |].
    destruct a; rewrite ?append_nil, ?append_cons; reflexivity.
Qed.

Lemma rstrip_idem s : Py.rstrip (Py.rstrip s) = Py.rstrip s.
Proof.
  induction s as [| c s IH]; [reflexivity |].
  cbn [Py.rstrip]. destruct (Py.rstrip s) as [| x y] eqn:Hr.
  - destruct (Py.is_space c) eqn:Hc; [reflexivity |]. cbn. now rewrite Hc.
  - cbn [Py.rstrip]. cbn [Py.rstrip] in IH. now rewrite IH.
Qed.

Lemma rstrip_of_blank s : Py.lstrip s = EmptyString -> Py.rstrip s = EmptyString.
Proof.
  induction s as [| c s IH]; [reflexivity |].
  cbn [Py.lstrip Py.rstrip]. destruct (Py.is_space c); [| discriminate].
  intros H. now rewrite (IH H).
Qed.

Lemma strip_rstrip s : Py.strip (Py.rstrip s) = Py.strip s.
Proof. unfold Py.strip. now rewrite rstrip_idem. Qed.

Lemma strip_blank s : Py.truthy (Py.strip s) = false -> Py.rstrip s = EmptyString.
Proof.
  unfold Py.strip. intros H.
  rewrite <- rstrip_idem. apply rstrip_of_blank.
  now destruct (Py.lstrip (Py.rstrip s)).
Qed.

Lemma strip_not_blank s :
  Py.truthy (Py.strip s) = true -> exists c r, Py.rstrip s = String c r.
Proof.
  unfold Py.strip. destruct (Py.rstrip s) as [| c r]; [discriminate | eauto].
Qed.

(** [(word + ' ' + r).strip()]: the word alone when [r] is blank. *)
Lemma strip_after_word word wsp r :
  Py.rstrip wsp = word -> Py.lstrip word = word ->
  (forall x, Py.lstrip (wsp +:+ x) = wsp +:+ x) ->
  Py.strip (wsp +:+ r)
  = if Py.truthy (Py.strip r) then wsp +:+ Py.rstrip r else word.
Proof.
  intros Hr Hl Hlx. unfold Py.strip at 1. rewrite rstrip_app.
  destruct (Py.truthy (Py.strip r)) eqn:Ht.
  - destruct (strip_not_blank r Ht) as (c & y & ->). apply Hlx.
  - rewrite (strip_blank r Ht), Hr. exact Hl.
Qed.

Lemma reject_text r :
  Py.split_space1 (Py.strip (Py.strip ("REJECT " +:+ r)))
  = ("REJECT", if Py.truthy (Py.strip r) then Some (Py.rstrip r) else None).
Proof.
  assert (Hword : forall x, Py.lstrip ("REJECT " +:+ x) = "REJECT " +:+ x)
    by reflexivity.
  rewrite (strip_after_word "REJECT" "REJECT " r eq_refl eq_refl Hword).
  destruct (Py.truthy (Py.strip r)) eqn:Ht; [| reflexivity].
  rewrite (strip_after_word "REJECT" "REJECT " _ eq_refl eq_refl Hword).
  rewrite strip_rstrip, Ht, rstrip_idem. reflexivity.
Qed.

Lemma approve_text cc :
  Py.split_space1 (Py.strip ("APPROVE " +:+ cc))
  = ("APPROVE", if Py.truthy (Py.strip cc) then Some (Py.rstrip cc) else None).
Proof.
  assert (Hword : forall x, Py.lstrip ("APPROVE " +:+ x) = "APPROVE " +:+ x)
    by reflexivity.
  rewrite (strip_after_word "APPROVE" "APPROVE " cc eq_refl eq_refl Hword).
  now destruct (Py.truthy (Py.strip cc)).
Qed.

(** ** Rejecting, and approving, with any text *)

(** X3.  An authorized message in ASCII text that the resolver classifies as
    reject, with a reason in ASCII text, on a record whose approval is
    pending (the chat platform and the store answering): the record
    becomes rejected by the author, and the reason it keeps is the
    resolver's reason without the white space around it, or 'No reason
    provided' when the resolver gave none or a blank one.  The handler
    sends the confirmation, writes the record under its invoice number,
    enters the mirror once and then only updates cells; the payment side
    of the record is not touched. *)
Theorem reject_records_the_reason env w m invoice_number st number :
  reaches_record env w m invoice_number st ->
  chat_delivers env -> store_accepts env ->
  approval_status st = "pending" ->
  invoice_data st !! "Invoice Number" = Some number ->
  intent_of (resolved env m st) = "reject" ->
  Py.isascii (content m) = true ->
  Py.isascii (reason_text (resolved env m st)) = true ->
  let w' := (handle_thread_message env m w).2 in
  let st' := rejected_by m (recorded_reason (reason_text (resolved env m st))) st in
  approval_status st' = "rejected" /\
  same_payment st st' /\
  invoice_states w' = insert_or_replace (key_of number) st' (invoice_states w) /\
  exists cells,
    forallb is_cell cells = true /\
    trace w' = trace w ++
      [Send (channel_id m) (rejected_embed number st');
       DbWrite (key_of number) st'; Mirror st'] ++ cells.
Proof.
  intros Hreach Hchat Hdb Hpending Hnum Hintent _ _ w' st'.
  assert (Hw : exists cells,
    forallb is_cell cells = true /\
    w' = set_invoice_states (insert_or_replace (key_of number) st' (invoice_states w))
           (with_events w ([Send (channel_id m) (rejected_embed number st');
                            DbWrite (key_of number) st'; Mirror st'] ++ cells))).
  { subst w'. rewrite (handler_routes _ _ _ _ _ Hreach).
    destruct Hreach as (Hrun & _ & _).
    unfold route_message. fold (resolved env m st).
    rewrite Hintent, Hpending. cbn [String.eqb Ascii.eqb Bool.eqb negb andb].
    cbv iota. fold (reason_text (resolved env m st)).
    unfold process_approval_message, invoice_field. rewrite Hnum, lift_bind.
    rewrite reject_text. cbn [snd String.eqb Ascii.eqb Bool.eqb]. cbv iota.
    assert (Hst : match
                    (if Py.truthy (Py.strip (reason_text (resolved env m st)))
                     then Some (Py.rstrip (reason_text (resolved env m st)))
                     else None)
                  with
                  | Some rest =>
                      set_rejection_reason (Some (Py.strip rest))
                        (set_approver (Some (approver_of m))
                           (set_approval_status "rejected" st))
                  | None =>
                      set_rejection_reason (Some "No reason provided")
                        (set_approver (Some (approver_of m))
                           (set_approval_status "rejected" st))
                  end = st').
    { subst st'. unfold rejected_by, recorded_reason.
      destruct (Py.truthy _); [now rewrite strip_rstrip | reflexivity]. }
    rewrite Hst.
    destruct (safe_send_delivered env (channel_id m) (rejected_embed number st') w
                Hchat Hrun) as [id Hsend].
    unfold bind at 1. rewrite Hsend.
    unfold bind at 1. rewrite (save_state_accepted _ _ _ _ Hdb).
    match goal with |- context [update_spreadsheet_row env st' ?w1] =>
      destruct (update_spreadsheet_row_events env st' w1) as (cells & Hu & Hc) end.
    exists cells. split; [exact Hc |]. rewrite Hu.
    unfold with_events, set_invoice_states, log. cbn.
    now rewrite <- !app_assoc. }
  destruct Hw as (cells & Hc & Hw).
  split; [reflexivity |]. split; [repeat split |].
  split; [rewrite Hw; reflexivity |].
  exists cells. split; [exact Hc | rewrite Hw; reflexivity].
Qed.

Lemma reject_records_the_reason_witness :
  let env := Sample.env (mkParsed (Some "reject") None (Some "  wrong vendor ") None)
               Sample.offline Sample.offline in
  let m := Sample.message "no, wrong vendor" in
  let w := Sample.world Sample.pending in
  let w' := (handle_thread_message env m w).2 in
  let st' := rejected_by m "wrong vendor" Sample.pending in
  approval_status st' = "rejected" /\
  same_payment Sample.pending st' /\
  invoice_states w' = insert_or_replace (Some "INV-1") st' (invoice_states w) /\
  exists cells,
    forallb is_cell cells = true /\
    trace w' = [] ++
      [Send "T1" (rejected_embed (JStr "INV-1") st');
       DbWrite (Some "INV-1") st'; Mirror st'] ++ cells.
Proof.
  intros env m w.
  apply (reject_records_the_reason env w m (Some "INV-1") Sample.pending (JStr "INV-1")).
  - repeat split; vm_compute; reflexivity.
  - intros h. exists "9001". reflexivity.
  - intros h. reflexivity.
  - reflexivity.
  - vm_compute; reflexivity.
  - vm_compute; reflexivity.
  - vm_compute; reflexivity.
  - vm_compute; reflexivity.
Defined.

(** X4.  An authorized message in ASCII text that the resolver classifies as
    approve with a cost center [cc] in ASCII text, on a record whose
    approval is pending (the chat platform and the store answering).
    When [cc] holds more than white space the record becomes approved by
    the author with the cost center [cc] without the white space around
    it, and is written and mirrored once.  When [cc] is white space only
    it counts as missing: the handler asks for the cost center and
    writes nothing. *)
Theorem approve_trims_the_cost_center env w m invoice_number st number cc :
  reaches_record env w m invoice_number st ->
  chat_delivers env -> store_accepts env ->
  approval_status st = "pending" ->
  invoice_data st !! "Invoice Number" = Some number ->
  intent_of (resolved env m st) = "approve" ->
  p_cost_center (resolved env m st) = Some cc ->
  Py.truthy cc = true ->
  Py.isascii (content m) = true ->
  Py.isascii cc = true ->
  let w' := (handle_thread_message env m w).2 in
  let st' := approved_by m (Py.strip cc) st in
  (Py.truthy (Py.strip cc) = true ->
   invoice_states w' = insert_or_replace (key_of number) st' (invoice_states w) /\
   exists cells,
     forallb is_cell cells = true /\
     trace w' = trace w ++
       [Send (channel_id m) (approved_embed number st');
        DbWrite (key_of number) st'; Mirror st'] ++ cells) /\
  (Py.truthy (Py.strip cc) = false ->
   w' = log (Send (channel_id m) ask_cost_center_reply) w).
Proof.
  intros Hreach Hchat Hdb Hpending Hnum Hintent Hcc Htruthy _ _ w' st'.
  assert (Hroute : w' = (process_approval_message env m ("APPROVE " +:+ cc) st
                           "approved" w).2).
  { subst w'. rewrite (handler_routes _ _ _ _ _ Hreach).
    unfold route_message. fold (resolved env m st).
    rewrite Hintent, Hpending, Hcc. cbn [String.eqb Ascii.eqb Bool.eqb negb andb].
    cbv iota. cbn [Py.truthy_opt Py.str_opt]. now rewrite Htruthy. }
  destruct Hreach as (Hrun & _ & _).
  unfold process_approval_message, invoice_field in Hroute.
  rewrite Hnum, lift_bind, approve_text in Hroute.
  cbn [snd String.eqb Ascii.eqb Bool.eqb] in Hroute. cbv iota in Hroute.
  split; intros Ht; rewrite Ht in Hroute.
  - rewrite strip_rstrip in Hroute. fold (approved_by m (Py.strip cc) st) in Hroute.
    fold st' in Hroute.
    destruct (safe_send_delivered env (channel_id m) (approved_embed number st') w
                Hchat Hrun) as [id Hsend].
    unfold bind at 1 in Hroute. rewrite Hsend in Hroute.
    unfold bind at 1 in Hroute. rewrite (save_state_accepted _ _ _ _ Hdb) in Hroute.
    match type of Hroute with context [update_spreadsheet_row env st' ?w1] =>
      destruct (update_spreadsheet_row_events env st' w1) as (cells & Hu & Hc) end.
    rewrite Hu in Hroute. rewrite Hroute.
    split; [reflexivity |]. exists cells. split; [exact Hc |].
    unfold with_events, set_invoice_states, log. cbn.
    now rewrite <- !app_assoc.
  - rewrite Hroute. apply reply_world. exact Hrun.
Qed.

Lemma approve_trims_the_cost_center_witness :
  let env := Sample.env (mkParsed (Some "approve") (Some " CC-7  ") None None)
               Sample.offline Sample.offline in
  let m := Sample.message "ok for CC-7" in
  let w := Sample.world Sample.pending in
  let w' := (handle_thread_message env m w).2 in
  let st' := approved_by m "CC-7" Sample.pending in
  (Py.truthy "CC-7" = true ->
   invoice_states w' = insert_or_replace (Some "INV-1") st' (invoice_states w) /\
   exists cells,
     forallb is_cell cells = true /\
     trace w' = [] ++
       [Send "T1" (approved_embed (JStr "INV-1") st');
        DbWrite (Some "INV-1") st'; Mirror st'] ++ cells) /\
  (Py.truthy "CC-7" = false ->
   w' = log (Send "T1" ask_cost_center_reply) w).
Proof.
  intros env m w.
  apply (approve_trims_the_cost_center env w m (Some "INV-1") Sample.pending
           (JStr "INV-1") " CC-7  ").
  - repeat split; vm_compute; reflexivity.
  - intros h. exists "9001". reflexivity.
  - intros h. reflexivity.
  - reflexivity.
  - vm_compute; reflexivity.
  - vm_compute; reflexivity.
  - reflexivity.
  - reflexivity.
  - reflexivity.
  - reflexivity.
Defined.

(** ** The record store *)

Lemma keys_filter_elem (f : option string * InvoiceState -> bool) rows k :
  k ∈ keys (List.filter f rows) -> k ∈ keys rows.
Proof.
  unfold keys. rewrite !list_elem_of_omap.
  intros (row & Hin & Hk). exists row. split; [| exact Hk].
  apply list_elem_of_In in Hin. apply List.filter_In in Hin as [Hin _].
  now apply list_elem_of_In.
Qed.

Lemma keys_filter_NoDup (f : option string * InvoiceState -> bool) rows :
  NoDup (keys rows) -> NoDup (keys (List.filter f rows)).
Proof.
  unfold keys. induction rows as [| [[k |] st] rows IH]; cbn; intros Hnd.
  - constructor.
  - apply NoDup_cons in Hnd as [Hk Hnd].
    destruct (f _); cbn; [| now apply IH].
    apply NoDup_cons. split; [| now apply IH].
    intros Hin. apply Hk. exact (keys_filter_elem f rows k Hin).
  - destruct (f _); cbn; now apply IH.
Qed.

Lemma keys_filter_out rows k :
  k ∉ keys (List.filter (fun r => negb (bool_decide (r.1 = Some k))) rows).
Proof.
  unfold keys. rewrite list_elem_of_omap. intros ([k' st] & Hin & Hk).
  apply list_elem_of_In in Hin. apply List.filter_In in Hin as [_ Hf].
  cbn in Hk, Hf. subst k'. now rewrite bool_decide_eq_true_2 in Hf.
Qed.

Lemma find_filter_implies {A} (f g : A -> bool) (l : list A) :
  (forall x, f x = true -> g x = true) ->
  List.find f (List.filter g l) = List.find f l.
Proof.
  intros Hfg. induction l as [| a l IH]; [reflexivity |].
  cbn. destruct (f a) eqn:Hf.
  - rewrite (Hfg a Hf). cbn. now rewrite Hf.
  - destruct (g a); cbn; [now rewrite Hf | exact IH].
Qed.

Lemma load_other_key k st rows k' :
  k' <> k ->
  load_state (insert_or_replace (Some k) st rows) k' = load_state rows k'.
Proof.
  intros Hne. unfold load_state, insert_or_replace.
  rewrite find_app_first, find_filter_implies.
  - destruct (List.find _ rows); [reflexivity |]. cbn.
    rewrite bool_decide_eq_false_2; [reflexivity |]. congruence.
  - intros [k0 st0] H. cbn in *. apply bool_decide_eq_true_1 in H. subst k0.
    rewrite bool_decide_eq_false_2; [reflexivity |]. congruence.
Qed.

Lemma load_state_sound rows k st :
  load_state rows k = Some st -> In (Some k, st) rows.
Proof.
  unfold load_state. destruct (List.find _ rows) as [[k0 st0] |] eqn:Hf; [| discriminate].
  cbn. intros [= <-]. apply List.find_some in Hf as [Hin Hk].
  cbn in Hk. apply bool_decide_eq_true_1 in Hk. now subst k0.
Qed.

Lemma scan_thread_sound rows thread row :
  scan_thread rows thread = Some row ->
  In row rows /\ discord_thread_id row.2 = Some thread.
Proof.
  unfold scan_thread. intros Hf. apply List.find_some in Hf as [Hin Hk].
  split; [exact Hin |]. now apply bool_decide_eq_true_1 in Hk.
Qed.

(** X5.  The table keeps one row for each invoice number: writing a record
    under a number replaces the row of that number and no other; what was
    written is what a load of that number returns, and a load of any
    other number returns what it did before.  A record without a number
    is stored as one more row each time. *)
Theorem one_row_for_each_number rows k st :
  NoDup (keys rows) ->
  let rows' := insert_or_replace (Some k) st rows in
  NoDup (keys rows') /\
  load_state rows' k = Some st /\
  (forall k', k' <> k -> load_state rows' k' = load_state rows k') /\
  (forall row, In row rows' <-> (In row rows /\ row.1 <> Some k) \/ row = (Some k, st)) /\
  (forall st0, keys (insert_or_replace None st0 rows) = keys rows /\
               length (insert_or_replace None st0 rows) = S (length rows)).
Proof.
  intros Hnd rows'. split; [| split; [| split; [| split]]].
  - subst rows'. unfold insert_or_replace. unfold keys at 1. rewrite omap_app.
    apply NoDup_app. split; [now apply keys_filter_NoDup |].
    split; [| apply NoDup_singleton].
    intros x Hx Hin. cbn in Hin. apply list_elem_of_singleton in Hin. subst x.
    exact (keys_filter_out rows k Hx).
  - apply load_after_insert.
  - intros k' Hne. now apply load_other_key.
  - intros row. subst rows'. unfold insert_or_replace.
    rewrite in_app_iff, List.filter_In. cbn. split.
    + intros [[Hin Hf] | [<- | []]]; [left | now right].
      split; [exact Hin |]. apply negb_true_iff in Hf.
      now apply bool_decide_eq_false_1 in Hf.
    + intros [[Hin Hne] | ->]; [left | now right; left].
      split; [exact Hin |]. now rewrite bool_decide_eq_false_2.
  - intros st0. unfold insert_or_replace, keys.
    rewrite omap_app, length_app. cbn. rewrite app_nil_r. split; [reflexivity | lia].
Qed.

Lemma one_row_for_each_number_witness :
  let rows := [(Some "INV-1", Sample.pending); (Some "INV-2", Sample.pending)] in
  let rows' := insert_or_replace (Some "INV-1") Sample.approved rows in
  NoDup (keys rows') /\
  load_state rows' "INV-1" = Some Sample.approved /\
  (forall k', k' <> "INV-1" -> load_state rows' k' = load_state rows k') /\
  (forall row, In row rows' <->
     (In row rows /\ row.1 <> Some "INV-1") \/ row = (Some "INV-1", Sample.approved)) /\
  (forall st0, keys (insert_or_replace None st0 rows) = keys rows /\
               length (insert_or_replace None st0 rows) = S (length rows)).
Proof.
  intros rows.
  apply (one_row_for_each_number rows "INV-1" Sample.approved).
  vm_compute. apply NoDup_cons. split.
  - intros H. apply list_elem_of_singleton in H. discriminate.
  - apply NoDup_singleton.
Defined.

(** X6.  A write is attempted once.  When the store takes it, the table holds
    the record; when the store answers with an error, the table is as it
    was, and the write ends with that error, or, for a store that was
    locked or busy, with the [NameError] of the pause the retry asks
    for. *)
Theorem a_write_is_attempted_once env key st w :
  let answer := db_execute env (trace w ++ [DbWrite key st]) in
  let done := save_state env key st w in
  trace done.2 = trace w ++ [DbWrite key st] /\
  thread_map done.2 = thread_map w /\
  match answer with
  | Ret _ =>
      done.1 = Ret tt /\
      invoice_states done.2 = insert_or_replace key st (invoice_states w)
  | Raise (OperationalError msg) =>
      invoice_states done.2 = invoice_states w /\
      done.1 = Raise (if Py.contains "locked" (Py.lower msg)
                         || Py.contains "busy" (Py.lower msg)
                      then NameError "time" else OperationalError msg)
  | Raise e => invoice_states done.2 = invoice_states w /\ done.1 = Raise e
  end.
Proof.
  intros answer done. subst answer done.
  unfold save_state. cbn [save_state_loop]. cbn [log trace].
  destruct (db_execute env _) as [[] | e]; [cbn; auto |].
  destruct e; cbn; auto.
  destruct (_ || _); cbn; auto.
Qed.

(** X7.  A thread that [thread_map] maps to an invoice number stands for the
    row of that number and for no other: the record the handler works on
    is the one [load_state] returns for the number, the first row of the
    table kept under it.  When the number has no row the thread stands
    for nothing and the handler does nothing; the scan of the records
    for the thread id is not tried, also when a row names the thread. *)
Theorem found_record_is_stored w thread number :
  thread_map w !! thread = Some (Some number) ->
  Py.truthy number = true ->
  find_state w thread
  = (fun st => (Some number, st)) <$> load_state (invoice_states w) number /\
  (forall st,
     load_state (invoice_states w) number = Some st ->
     exists before after,
       invoice_states w = before ++ (Some number, st) :: after /\
       forall row, In row before -> row.1 <> Some number) /\
  (load_state (invoice_states w) number = None ->
   (forall row, In row (invoice_states w) -> row.1 <> Some number) /\
   forall env m, channel_id m = thread -> handle_thread_message env m w = (Ret tt, w)).
Proof.
  intros Hmap Ht.
  assert (Hfind : find_state w thread
                  = (fun st => (Some number, st)) <$> load_state (invoice_states w) number).
  { unfold find_state. rewrite Hmap, Ht.
    now destruct (load_state (invoice_states w) number). }
  split; [exact Hfind |]. split.
  - unfold load_state. generalize (invoice_states w). intros rows.
    induction rows as [| [k st0] rows IH]; intros st; [discriminate |].
    cbn [List.find fst].
    destruct (bool_decide (k = Some number)) eqn:Hk.
    + cbn. intros [= <-]. apply bool_decide_eq_true_1 in Hk as ->.
      exists [], rows. split; [reflexivity |]. intros row [].
    + intros Hl. destruct (IH st Hl) as (before & after & -> & Hnone).
      exists ((k, st0) :: before), after. split; [reflexivity |].
      intros row [<- | Hin]; [| now apply Hnone].
      cbn. now apply bool_decide_eq_false_1 in Hk.
  - intros Hl. split.
    + intros row Hin Hkey. unfold load_state in Hl.
      destruct (List.find _ (invoice_states w)) as [r |] eqn:Hf; [discriminate |].
      pose proof (List.find_none _ _ Hf row Hin) as Hrow. cbn in Hrow.
      now apply bool_decide_eq_false_1 in Hrow.
    + intros env m <-. unfold handle_thread_message.
      rewrite Hfind, Hl. cbn. now destruct (shutting_down w).
Qed.

Lemma found_record_is_stored_witness :
  let w := Sample.world Sample.pending in
  find_state w "T1" = Some (Some "INV-1", Sample.pending) /\
  forall env m,
    channel_id m = "T1" ->
    handle_thread_message env m
      (mkWorld false [(Some "INV-2", Sample.pending)] {[ "T1" := Some "INV-1" ]} [])
    = (Ret tt, mkWorld false [(Some "INV-2", Sample.pending)]
                 {[ "T1" := Some "INV-1" ]} []).
Proof.
  intros w. split.
  - destruct (found_record_is_stored w "T1" "INV-1") as (Hfind & _).
    + vm_compute; reflexivity.
    + reflexivity.
    + rewrite Hfind. vm_compute; reflexivity.
  - destruct (found_record_is_stored
                (mkWorld false [(Some "INV-2", Sample.pending)]
                   {[ "T1" := Some "INV-1" ]} []) "T1" "INV-1")
      as (_ & _ & Hnone).
    + vm_compute; reflexivity.
    + reflexivity.
    + apply Hnone. vm_compute; reflexivity.
Defined.

(** ** The ledger client *)

Lemma sleep_in_client ms w :
  time_sleep etherscan_globals ms w = (Ret tt, with_events w [Sleep ms]).
Proof. reflexivity. Qed.

(** X8.  [_etherscan_get] asks at most three times, and pauses 0.5 s, 1 s and
    1.5 s after the failures, the last one included.  It returns the
    first answer it gets, and when all three requests fail it raises the
    error of the third: the [RuntimeError] it holds ready is never
    raised. *)
Theorem etherscan_get_gives_up_after_three env rq w :
  let G := HttpGet rq in
  let done := _etherscan_get env rq w in
  (exists data evs,
     done = (Ret data, with_events w evs) /\
     requests_get env (trace w ++ evs) = Ret data /\
     (evs = [G] \/ evs = [G; Sleep 500; G] \/
      evs = [G; Sleep 500; G; Sleep 1000; G])) \/
  (exists e1 e2 e3,
     done = (Raise e3, with_events w [G; Sleep 500; G; Sleep 1000; G; Sleep 1500]) /\
     requests_get env (trace w ++ [G]) = Raise e1 /\
     requests_get env (trace w ++ [G; Sleep 500; G]) = Raise e2 /\
     requests_get env (trace w ++ [G; Sleep 500; G; Sleep 1000; G]) = Raise e3).
Proof.
  intros G done. subst done.
  enough (H : forall r, r = _etherscan_get env rq w ->
    (exists data evs,
       r = (Ret data, with_events w evs) /\
       requests_get env (trace w ++ evs) = Ret data /\
       (evs = [G] \/ evs = [G; Sleep 500; G] \/
        evs = [G; Sleep 500; G; Sleep 1000; G])) \/
    (exists e1 e2 e3,
       r = (Raise e3, with_events w [G; Sleep 500; G; Sleep 1000; G; Sleep 1500]) /\
       requests_get env (trace w ++ [G]) = Raise e1 /\
       requests_get env (trace w ++ [G; Sleep 500; G]) = Raise e2 /\
       requests_get env (trace w ++ [G; Sleep 500; G; Sleep 1000; G]) = Raise e3))
    by exact (H _ eq_refl).
  intros r. unfold _etherscan_get.
  cbn [etherscan_attempts]. rewrite log_with_events. fold G.
  destruct (requests_get env (trace (with_events w [G]))) as [data | e1] eqn:H1.
  { intros ->. left. exists data, [G]. split; [reflexivity |]. split; [exact H1 | auto]. }
  unfold bind at 1. rewrite sleep_in_client, with_events_app.
  rewrite log_with_events, with_events_app. fold G.
  cbn [app]. change (500 * (0 + 1)) with 500.
  destruct (requests_get env (trace (with_events w [G; Sleep 500; G])))
    as [data | e2] eqn:H2.
  { intros ->. left. exists data, [G; Sleep 500; G].
    split; [reflexivity |]. split; [exact H2 | auto]. }
  unfold bind at 1. rewrite sleep_in_client, with_events_app.
  rewrite log_with_events, with_events_app. fold G.
  cbn [app]. change (500 * (0 + 1 + 1)) with 1000.
  destruct (requests_get env (trace (with_events w [G; Sleep 500; G; Sleep 1000; G])))
    as [data | e3] eqn:H3.
  { intros ->. left. exists data, [G; Sleep 500; G; Sleep 1000; G].
    split; [reflexivity |]. split; [exact H3 | auto]. }
  unfold bind at 1. rewrite sleep_in_client, with_events_app.
  cbn [app from_option id].
  change (500 * (0 + 1 + 1 + 1)) with 1500.
  intros ->. right. exists e1, e2, e3. split; [reflexivity |]. auto.
Qed.

Lemma receipt_status_spec data :
  receipt_status_is_1 data = Ret true <->
  exists ms rs,
    data = JsObject ms /\
    Json.member "result" ms = Some (JsObject rs) /\
    Json.member "status" rs = Some (JsString "1").
Proof.
  split.
  - unfold receipt_status_is_1, Json.or_empty.
    destruct data as [| b | z | s | l | ms]; cbn [Json.truthy].
    + cbn. discriminate.
    + destruct b; cbn; discriminate.
    + destruct (negb (z =? 0)); cbn; discriminate.
    + destruct (Py.truthy s); cbn; discriminate.
    + destruct l; cbn; discriminate.
    + destruct ms as [| p ms]; [cbn; discriminate |].
      cbn [Json.get]. destruct (Json.member "result" (p :: ms)) as [r |] eqn:Hr;
        [| cbn; discriminate].
      cbn [from_option id].
      destruct r as [| b | z | s | l | rs]; cbn [Json.get]; try discriminate.
      destruct (Json.member "status" rs) as [status |] eqn:Hs; [| cbn; discriminate].
      cbn [from_option id]. destruct status as [| b | z | s | l | ss];
        cbn [Json.is_string]; try discriminate.
      intros H. assert (He : String.eqb "1" s = true) by congruence.
      apply String.eqb_eq in He. subst s.
      exists (p :: ms), rs. auto.
  - intros (ms & rs & -> & Hr & Hs).
    unfold receipt_status_is_1, Json.or_empty.
    destruct ms as [| p ms]; [discriminate |].
    cbn [Json.truthy Json.get]. rewrite Hr. cbn [from_option id Json.get].
    rewrite Hs. reflexivity.
Qed.

(** X9.  The check of a receipt never raises, and it says yes in one case
    only: the ledger answered one of the three requests with an object
    whose "result" is an object whose "status" is the text "1".  A
    number 1, a "result" that is a text or is missing, an answer that is
    not an object, and every error of the request all count as no. *)
Theorem receipt_counts_only_status_one env tx w :
  (exists success, (check_transaction_success env tx w).1 = Ret success) /\
  ((check_transaction_success env tx w).1 = Ret true <->
   exists ms rs,
     (_etherscan_get env (receipt_request tx) w).1 = Ret (JsObject ms) /\
     Json.member "result" ms = Some (JsObject rs) /\
     Json.member "status" rs = Some (JsString "1")).
Proof.
  split.
  { destruct (check_transaction_success_returns env tx w) as (success & w1 & ->).
    now exists success. }
  unfold check_transaction_success, try_except, bind, lift.
  destruct (_etherscan_get env (receipt_request tx) w) as [[data | e] w1]; cbn [fst].
  - split.
    + intros H. destruct (receipt_status_is_1 data) as [b |] eqn:Hb; cbn in H.
      * injection H as ->. apply receipt_status_spec in Hb as (ms & rs & -> & Hr & Hs).
        now exists ms, rs.
      * discriminate.
    + intros (ms & rs & [= ->] & Hr & Hs).
      assert (Hb : receipt_status_is_1 (JsObject ms) = Ret true)
        by (apply receipt_status_spec; now exists ms, rs).
      now rewrite Hb.
  - split; [discriminate |]. now intros (ms & rs & [=] & _).
Qed.

(** ** Which references are verified *)






(** ** A receipt that says yes *)






(** ** A payment that is settled *)



(** ** The status query *)

Lemma keeps_show_invoice_status env channel st :
  keeps_table (show_invoice_status env channel st).
Proof.
  unfold show_invoice_status.
  apply keeps_bind; [apply keeps_lift |]. intros number.
  apply keeps_bind.
  { destruct (String.eqb (approval_status st) "pending"); [| apply keeps_ret].
    apply keeps_bind; [apply keeps_lift | intros; apply keeps_ret]. }
  intros remaining.
  apply keeps_bind; [apply keeps_safe_send | intros; apply keeps_ret].
Qed.

Lemma overall_of_approval st :
  (if String.eqb (approval_status st) "approved" then "approved"
   else if String.eqb (approval_status st) "rejected" then "rejected"
   else approval_status st) = approval_status st.
Proof.
  destruct (String.eqb (approval_status st) "approved") eqn:Ha;
    [now apply String.eqb_eq in Ha |].
  destruct (String.eqb (approval_status st) "rejected") eqn:Hr;
    [now apply String.eqb_eq in Hr | reflexivity].
Qed.

Lemma field_if_name name o x v : In (x, v) (field_if name o) -> x = name.
Proof.
  unfold field_if. destruct (Py.truthy_opt o); [| intros []].
  now intros [[= <- _] | []].
Qed.

(** X13.  A status query writes nothing.  It answers with one embed that
    names the invoice and gives the approval and the payment status, the
    overall status being 'completed' for a completed payment with a
    reference and the approval status otherwise (the spreadsheet shows
    'failed' for a failed payment, the reply does not), and the time
    remaining exactly when the approval is pending.  It sends nothing and
    raises when the payload has no invoice number, or when the approval
    is pending and the time remaining cannot be computed. *)
Theorem status_query_only_reports env w m invoice_number st :
  reaches_record env w m invoice_number st ->
  intent_of (resolved env m st) = "status" ->
  let done := handle_thread_message env m w in
  let overall :=
    if String.eqb (payment_status st) "completed" && Py.truthy_opt (transaction_id st)
    then "completed" else approval_status st in
  invoice_states done.2 = invoice_states w /\
  thread_map done.2 = thread_map w /\
  (invoice_data st !! "Invoice Number" = None ->
   done = (Raise (KeyError "Invoice Number"), w)) /\
  (forall number e,
     invoice_data st !! "Invoice Number" = Some number ->
     approval_status st = "pending" ->
     _compute_time_remaining env st = Raise e ->
     done = (Raise e, w)) /\
  (payment_status st <> "failed" -> overall = overall_status st) /\
  (forall number,
     invoice_data st !! "Invoice Number" = Some number ->
     (approval_status st = "pending" ->
      exists r, _compute_time_remaining env st = Ret r) ->
     exists color fields,
       trace done.2 = trace w ++
         [Send (channel_id m)
            (Embed ("📋 Invoice Status: " +:+ str_jval number) EmptyString color fields)] /\
       In ("Overall Status", Text (Py.upper overall)) fields /\
       In ("Approval Status", Text (Py.upper (approval_status st))) fields /\
       In ("Payment Status", Text (Py.upper (payment_status st))) fields /\
       ((exists v, In ("Time Remaining", v) fields) <-> approval_status st = "pending")).
Proof.
  intros Hreach Hintent done overall.
  assert (Hrun : done = show_invoice_status env (channel_id m) st w).
  { subst done. rewrite (handler_routes _ _ _ _ _ Hreach).
    unfold route_message. fold (resolved env m st). now rewrite Hintent. }
  destruct Hreach as (Hup & _ & _).
  split; [rewrite Hrun; apply keeps_show_invoice_status |].
  split.
  { destruct (tracks_show_invoice_status env (channel_id m) st w)
      as (evs & _ & _ & Hmap & _). now rewrite Hrun. }
  split.
  { intros Hnone. rewrite Hrun. unfold show_invoice_status, invoice_field.
    now rewrite Hnone. }
  split.
  { intros number e Hnum Hpend Herr. rewrite Hrun.
    unfold show_invoice_status, invoice_field.
    rewrite Hnum, lift_bind, Hpend, Herr. reflexivity. }
  split.
  { intros Hnf. subst overall. unfold overall_status.
    destruct (_ && _); [reflexivity |].
    destruct (String.eqb (payment_status st) "failed") eqn:Hf;
      [now apply String.eqb_eq in Hf |].
    symmetry. apply overall_of_approval. }
  intros number Hnum Htime. rewrite Hrun.
  unfold show_invoice_status, invoice_field. rewrite Hnum, lift_bind.
  rewrite overall_of_approval. fold overall.
  destruct (String.eqb (approval_status st) "pending") eqn:Hp.
  - apply String.eqb_eq in Hp. destruct (Htime Hp) as [r Hr].
    rewrite Hr. unfold bind at 1. rewrite lift_bind. unfold ret at 1.
    cbv beta iota. rewrite reply_world by exact Hup.
    eexists _, _. split; [reflexivity |].
    split; [now left |]. split; [right; now left |].
    split; [right; right; now left |].
    split; [intros _; exact Hp |]. intros _. exists (Text r.1).
    right; right; right. now left.
  - unfold bind at 1. unfold ret at 1. cbv beta iota.
    rewrite reply_world by exact Hup.
    eexists _, _. split; [reflexivity |].
    split; [now left |]. split; [right; now left |].
    split; [right; right; now left |].
    split.
    + intros [v Hin]. exfalso. cbn in Hin.
      destruct Hin as [[=] | [[=] | [[=] | Hin]]].
      repeat (apply in_app_or in Hin as [Hin | Hin];
              [apply field_if_name in Hin; discriminate |]).
      apply field_if_name in Hin; discriminate.
    + intros Hpend. rewrite Hpend in Hp. discriminate.
Qed.

Lemma status_query_only_reports_witness :
  let env := Sample.env (mkParsed (Some "status") None None None)
               Sample.offline Sample.offline in
  let m := Sample.message "status?" in
  let w := Sample.world Sample.paid in
  let st := Sample.paid in
  let done := handle_thread_message env m w in
  let overall :=
    if String.eqb (payment_status st) "completed" && Py.truthy_opt (transaction_id st)
    then "completed" else approval_status st in
  invoice_states done.2 = invoice_states w /\
  thread_map done.2 = thread_map w /\
  (invoice_data st !! "Invoice Number" = None ->
   done = (Raise (KeyError "Invoice Number"), w)) /\
  (forall number e,
     invoice_data st !! "Invoice Number" = Some number ->
     approval_status st = "pending" ->
     _compute_time_remaining env st = Raise e ->
     done = (Raise e, w)) /\
  (payment_status st <> "failed" -> overall = overall_status st) /\
  (forall number,
     invoice_data st !! "Invoice Number" = Some number ->
     (approval_status st = "pending" ->
      exists r, _compute_time_remaining env st = Ret r) ->
     exists color fields,
       trace done.2 = trace w ++
         [Send (channel_id m)
            (Embed ("📋 Invoice Status: " +:+ str_jval number) EmptyString color fields)] /\
       In ("Overall Status", Text (Py.upper overall)) fields /\
       In ("Approval Status", Text (Py.upper (approval_status st))) fields /\
       In ("Payment Status", Text (Py.upper (payment_status st))) fields /\
       ((exists v, In ("Time Remaining", v) fields) <-> approval_status st = "pending")).
Proof.
  intros env m w st.
  apply (status_query_only_reports env w m (Some "INV-1") st).
  - repeat split; vm_compute; reflexivity.
  - vm_compute; reflexivity.
Defined.

(** ** What is said and what is stored *)


Lemma approve_route env w m invoice_number st cc :
  reaches_record env w m invoice_number st ->
  approval_status st = "pending" ->
  intent_of (resolved env m st) = "approve" ->
  p_cost_center (resolved env m st) = Some cc ->
  Py.truthy cc = true ->
  handle_thread_message env m w
  = process_approval_message env m ("APPROVE " +:+ cc) st "approved" w.
Proof.
  intros Hreach Hpending Hintent Hcc Htruthy.
  rewrite (handler_routes _ _ _ _ _ Hreach).
  unfold route_message. fold (resolved env m st).
  rewrite Hintent, Hpending, Hcc. cbn [String.eqb Ascii.eqb Bool.eqb negb andb].
  cbv iota. cbn [Py.truthy_opt Py.str_opt]. now rewrite Htruthy.
Qed.





(** ** What the cascade can extract *)

Lemma backtrack_group {R} r :
  forall s g (k : string -> option string -> option R) x,
    Re.backtrack r s g k = Some x ->
    exists taken rest g1,
      s = taken +:+ rest /\ k rest g1 = Some x /\
      (has_group r = true ->
       exists a t b, g1 = Some t /\ taken = a +:+ t +:+ b /\
                     (group_len r <= String.length t)%nat) /\
      (has_group r = false -> g1 = g).
Proof.
  induction r as [| cs | cs lo hi | r1 IH1 r2 IH2 | r1 IH1]; intros s g k x H.
  - exists EmptyString, s, g. cbn in *. repeat split; auto; discriminate.
  - cbn [Re.backtrack] in H. destruct s as [| c rest]; [discriminate |].
    destruct (Re.mem_i cs c); [| discriminate].
    exists (String c EmptyString), rest, g. cbn. repeat split; auto; discriminate.
  - cbn [Re.backtrack] in H.
    apply greedy_sound in H as (taken & rest & -> & Hlen & Hk).
    exists taken, rest, g. cbn. repeat split; auto; discriminate.
  - cbn [Re.backtrack] in H.
    apply IH1 in H as (taken1 & rest1 & g1 & -> & H & Hset1 & Hkeep1).
    apply IH2 in H as (taken2 & rest2 & g2 & -> & Hk & Hset2 & Hkeep2).
    exists (taken1 +:+ taken2), rest2, g2.
    rewrite append_assoc. cbn [group_len has_group].
    split; [reflexivity |]. split; [exact Hk |]. split.
    + intros Hg. destruct (has_group r2) eqn:Hg2.
      * destruct (Hset2 eq_refl) as (a & t & b & -> & -> & Hlen).
        exists (taken1 +:+ a), t, b. rewrite !append_assoc. auto.
      * rewrite orb_false_r in Hg. rewrite (Hkeep2 eq_refl).
        destruct (Hset1 Hg) as (a & t & b & -> & -> & Hlen).
        exists a, t, (b +:+ taken2). rewrite !append_assoc. auto.
    + intros Hno. apply orb_false_elim in Hno as [Hn1 Hn2].
      now rewrite (Hkeep2 Hn2), (Hkeep1 Hn1).
  - cbn [Re.backtrack] in H.
    apply backtrack_sound in H as (taken & rest & g1 & -> & Hlen & Hk & _ & _).
    rewrite consumed_prefix in Hk.
    exists taken, rest, (Some taken). cbn [group_len has_group].
    split; [reflexivity |]. split; [exact Hk |]. split; [| discriminate].
    intros _. exists EmptyString, taken, EmptyString.
    rewrite append_nil, append_empty_r. auto.
Qed.

Lemma match_at_group r s g :
  has_group r = true -> Re.match_at r s = Some g ->
  exists t, g = Some t /\ part_of t s /\ (group_len r <= String.length t)%nat.
Proof.
  intros Hg Hm. unfold Re.match_at in Hm.
  apply backtrack_group in Hm as (taken & rest & g1 & -> & Hk & Hset & _).
  injection Hk as <-. destruct (Hset Hg) as (a & t & b & -> & -> & Hlen).
  exists t. split; [reflexivity |]. split; [| exact Hlen].
  exists a, (b +:+ rest). now rewrite !append_assoc.
Qed.

Lemma part_of_tail c t s : part_of t s -> part_of t (String c s).
Proof.
  intros (before & after & ->). exists (String c before), after.
  now rewrite append_cons.
Qed.

Lemma search_group r s g :
  has_group r = true -> Re.search r s = Some g ->
  exists t, g = Some t /\ part_of t s /\ (group_len r <= String.length t)%nat.
Proof.
  intros Hg. induction s as [| c s IH]; cbn [Re.search]; intros H.
  - destruct (Re.match_at r EmptyString) as [g0 |] eqn:Hm; [| discriminate].
    injection H as <-. now apply match_at_group.
  - destruct (Re.match_at r (String c s)) as [g0 |] eqn:Hm.
    + injection H as <-. now apply match_at_group.
    + destruct (IH H) as (t & -> & Hpart & Hlen).
      exists t. split; [reflexivity |]. split; [now apply part_of_tail | exact Hlen].
Qed.

Lemma first_match_group n patterns raw t :
  forallb (fun r => has_group r && (n <=? group_len r)%nat) patterns = true ->
  first_match patterns raw = Some t ->
  part_of t raw /\ (n <= String.length t)%nat.
Proof.
  induction patterns as [| p rest IH]; intros Hall H; [discriminate |].
  cbn in Hall. apply andb_prop in Hall as [Hp Hrest].
  apply andb_prop in Hp as [Hg Hn]. apply Nat.leb_le in Hn.
  cbn [first_match] in H.
  destruct (Re.search p raw) as [g |] eqn:Hs; [| now apply IH].
  destruct (search_group p raw g Hg Hs) as (t' & -> & Hpart & Hlen).
  injection H as <-. split; [exact Hpart | lia].
Qed.

Lemma part_of_length t s : part_of t s -> (String.length t <= String.length s)%nat.
Proof. intros (before & after & ->). rewrite !length_append. lia. Qed.

(** X16.  A reference the cascade extracts is a part of the message text, six
    characters long or more.  So when the resolver gives no reference, a
    text of fewer than six characters records no payment: the most it
    gets is the format guidance. *)
Theorem cascade_reference_is_part_of_the_text raw :
  (forall t, first_match tx_patterns raw = Some t ->
             part_of t raw /\ (6 <= String.length t)%nat) /\
  ((String.length raw < 6)%nat -> first_match tx_patterns raw = None) /\
  (forall env m invoice_number st parsed intent,
     (String.length raw < 6)%nat ->
     Py.truthy_opt (p_transaction_id parsed) = false ->
     emits (fun e => is_write e = false /\ is_request e = false)
       (handle_payment env m invoice_number st parsed intent raw)).
Proof.
  assert (Hmatch : forall t, first_match tx_patterns raw = Some t ->
                             part_of t raw /\ (6 <= String.length t)%nat).
  { intros t. now apply first_match_group. }
  assert (Hshort : (String.length raw < 6)%nat -> first_match tx_patterns raw = None).
  { intros Hlen. destruct (first_match tx_patterns raw) as [t |] eqn:Hf; [| reflexivity].
    destruct (Hmatch t eq_refl) as [Hpart Ht].
    apply part_of_length in Hpart. lia. }
  split; [exact Hmatch |]. split; [exact Hshort |].
  intros env m invoice_number st parsed intent Hlen Hnone.
  assert (Hsend : forall p, emits (fun e => is_write e = false /\ is_request e = false)
                              (run safe_send env (channel_id m) p then ret tt)).
  { intros p. apply emits_bind; [apply emits_safe_send; now split
                                | intros; apply emits_ret]. }
  unfold handle_payment.
  destruct (looks_like_payment intent raw); [| apply emits_ret].
  destruct (_ && _); [apply Hsend |].
  unfold extract_transaction_id. rewrite Hnone, (Hshort Hlen).
  unfold send_format_guidance. destruct (String.eqb intent "payment");
    [apply Hsend | apply emits_ret].
Qed.

(** ** The float test of the reminder *)

(** The exponent found for a quotient is not too small either. *)
Lemma log2_ratio_above a b :
  0 < a -> 0 < b ->
  let l := Py.log2_ratio a b + 1 in
  (0 <= l -> a < b * 2 ^ l) /\ (l < 0 -> a * 2 ^ (- l) < b).
Proof.
  intros Ha Hb. unfold Py.log2_ratio.
  pose proof (Z.log2_spec a Ha) as [Hla Hua].
  pose proof (Z.log2_spec b Hb) as [Hlb Hub].
  pose proof (Z.log2_nonneg a) as Hna. pose proof (Z.log2_nonneg b) as Hnb.
  set (la := Z.log2 a) in *. set (lb := Z.log2 b) in *. clearbody la lb.
  replace (Z.succ la) with (la + 1) in Hua by lia.
  destruct (if 0 <=? la - lb then b * 2 ^ (la - lb) <=? a
            else b <=? a * 2 ^ (- (la - lb))) eqn:Htest; cbv zeta.
  - clear Htest. split.
    + intros Hl.
      assert (Hs : 2 ^ (la + 1) = 2 ^ lb * 2 ^ (la - lb + 1)).
      { rewrite <- Z.pow_add_r by lia. f_equal. lia. }
      assert (Hp : 0 < 2 ^ (la - lb + 1)) by (apply Z.pow_pos_nonneg; lia).
      nia.
    + intros Hl.
      assert (Hs : 2 ^ lb = 2 ^ (la + 1) * 2 ^ (- (la - lb + 1))).
      { rewrite <- Z.pow_add_r by lia. f_equal. lia. }
      assert (Hp : 0 < 2 ^ (- (la - lb + 1))) by (apply Z.pow_pos_nonneg; lia).
      nia.
  - replace (la - lb - 1 + 1) with (la - lb) by lia.
    destruct (0 <=? la - lb) eqn:Hsign.
    + apply Z.leb_le in Hsign. apply Z.leb_gt in Htest.
      split; [intros _; lia | intros Hneg; exfalso; clear - Hsign Hneg; lia].
    + apply Z.leb_gt in Hsign. apply Z.leb_gt in Htest.
      split; [intros Hpos; exfalso; clear - Hsign Hpos; lia | intros _; lia].
Qed.

(** The mantissa of a rounded quotient is at most [2^53]. *)
Lemma round_ratio_mantissa a b :
  0 < a -> 0 < b -> Py.mantissa (Py.round_ratio a b) <= 2 ^ 53.
Proof.
  intros Ha Hb. destruct (log2_ratio_above a b Ha Hb) as [Hnn Hneg].
  unfold Py.round_ratio. cbn [Py.mantissa].
  set (l := Py.log2_ratio a b) in *. clearbody l.
  assert (Hq : (if 0 <=? l - 52 then a else a * 2 ^ (- (l - 52)))
               / (if 0 <=? l - 52 then b * 2 ^ (l - 52) else b) < 2 ^ 53).
  { destruct (0 <=? l - 52) eqn:He.
    - apply Z.leb_le in He. specialize (Hnn ltac:(lia)).
      assert (Hp : 0 < 2 ^ (l - 52)) by (apply Z.pow_pos_nonneg; lia).
      apply Z.div_lt_upper_bound; [lia |].
      replace (l + 1) with (l - 52 + 53) in Hnn by lia.
      rewrite Z.pow_add_r in Hnn by lia. lia.
    - apply Z.leb_gt in He. apply Z.div_lt_upper_bound; [lia |].
      destruct (Z.le_gt_cases 0 (l + 1)) as [Hl | Hl].
      + specialize (Hnn Hl).
        assert (Hs : 2 ^ 53 = 2 ^ (l + 1) * 2 ^ (- (l - 52))).
        { rewrite <- Z.pow_add_r by lia. f_equal. lia. }
        assert (Hp : 0 < 2 ^ (- (l - 52))) by (apply Z.pow_pos_nonneg; lia).
        rewrite Hs. nia.
      + specialize (Hneg Hl).
        assert (Hs : 2 ^ (- (l - 52)) = 2 ^ (- (l + 1)) * 2 ^ 53).
        { rewrite <- Z.pow_add_r by lia. f_equal. lia. }
        rewrite Hs. nia. }
  destruct (_ || _); lia.
Qed.

(** A quotient that is at least the whole number [n] is not rounded
    below it. *)
Lemma round_ratio_ge_int a b n :
  0 < a -> 0 < b -> 0 <= n <= 2 ^ 52 -> n * b <= a ->
  Py.ge_int (Py.round_ratio a b) n = true.
Proof.
  intros Ha Hb Hn Hle. destruct (round_ratio_scaled a b Ha Hb) as [Hnn Hneg].
  unfold Py.ge_int, Py.round_ratio. cbn [Py.mantissa Py.exponent].
  set (e := Py.log2_ratio a b - 52) in *. clearbody e.
  destruct (0 <=? e) eqn:He; apply Z.leb_le.
  - apply Z.leb_le in He. specialize (Hnn He).
    assert (Hp : 0 < 2 ^ e) by (apply Z.pow_pos_nonneg; lia).
    assert (Hq : 2 ^ 52 <= a / (b * 2 ^ e)) by (apply Z.div_le_lower_bound; nia).
    destruct (_ || _); nia.
  - apply Z.leb_gt in He.
    assert (Hp : 0 < 2 ^ (- e)) by (apply Z.pow_pos_nonneg; lia).
    assert (Hq : n * 2 ^ (- e) <= a * 2 ^ (- e) / b)
      by (apply Z.div_le_lower_bound; nia).
    destruct (_ || _); lia.
Qed.

(** A span of [n] seconds or more is held as [n] seconds or more. *)
Lemma total_seconds_ge_int us n :
  0 <= n <= 2 ^ 52 -> n * 1000000 <= us ->
  Py.ge_int (total_seconds us) n = true.
Proof.
  intros Hn Hle. unfold total_seconds, Py.true_div.
  destruct (Z.eqb_spec us 0) as [-> | Hne].
  - assert (n = 0) as -> by lia. reflexivity.
  - assert (Hp : (0 <? us) = true) by (apply Z.ltb_lt; lia). rewrite Hp.
    apply round_ratio_ge_int; lia.
Qed.

Lemma true_div_negative a b :
  a < 0 -> 0 < b -> Py.mantissa (Py.true_div a b) < 0.
Proof.
  intros Ha Hb. unfold Py.true_div.
  assert (Hz : (a =? 0) = false) by (apply Z.eqb_neq; lia).
  assert (Hp : (0 <? a) = false) by (apply Z.ltb_ge; lia).
  rewrite Hz, Hp. cbn [Py.mantissa].
  pose proof (round_ratio_positive (- a) b ltac:(lia) Hb). lia.
Qed.

Lemma true_div_of_positive a b : 0 < a -> Py.true_div a b = Py.round_ratio a b.
Proof.
  intros Ha. unfold Py.true_div.
  assert (Hz : (a =? 0) = false) by (apply Z.eqb_neq; lia).
  assert (Hp : (0 <? a) = true) by (apply Z.ltb_lt; lia).
  now rewrite Hz, Hp.
Qed.

(** A float below zero is below every whole number from zero on. *)
Lemma ge_int_negative x n : Py.mantissa x < 0 -> 0 <= n -> Py.ge_int x n = false.
Proof.
  intros Hx Hn. unfold Py.ge_int. destruct (0 <=? Py.exponent x) eqn:He.
  - apply Z.leb_le in He. apply Z.leb_gt.
    assert (Hp : 0 < 2 ^ Py.exponent x) by (apply Z.pow_pos_nonneg; lia). nia.
  - apply Z.leb_gt in He. apply Z.leb_gt.
    assert (Hp : 0 < 2 ^ (- Py.exponent x)) by (apply Z.pow_pos_nonneg; lia). nia.
Qed.

(** Dividing a float by a whole number: the sign stays. *)
Lemma div_negative x d : Py.mantissa x < 0 -> 0 < d -> Py.mantissa (Py.div x d) < 0.
Proof.
  intros Hx Hd. unfold Py.div. destruct (0 <=? Py.exponent x) eqn:He.
  - apply Z.leb_le in He.
    assert (Hp : 0 < 2 ^ Py.exponent x) by (apply Z.pow_pos_nonneg; lia).
    apply true_div_negative; nia.
  - apply Z.leb_gt in He.
    assert (Hp : 0 < 2 ^ (- Py.exponent x)) by (apply Z.pow_pos_nonneg; lia).
    apply true_div_negative; nia.
Qed.

(** Hours that have passed are counted: when [n] hours or more lie
    between the two times, [hours_since] is at least [n]. *)
Lemma hours_since_when_due us n :
  0 < us -> 0 <= n -> 3600 * n <= 2 ^ 52 -> n * us_per_hour <= us ->
  Py.ge_int (Py.div (total_seconds us) 3600) n = true.
Proof.
  intros Hus Hn Hsmall Hdue.
  assert (Hsec : Py.ge_int (total_seconds us) (3600 * n) = true).
  { apply total_seconds_ge_int; [lia |]. unfold us_per_hour in Hdue. lia. }
  unfold total_seconds in *. rewrite true_div_of_positive in * by assumption.
  pose proof (round_ratio_positive us 1000000 Hus ltac:(lia)) as Hm.
  set (x := Py.round_ratio us 1000000) in *. clearbody x.
  assert (H52 : 2 ^ 52 = 4503599627370496) by reflexivity.
  unfold Py.ge_int in Hsec. unfold Py.div.
  destruct (0 <=? Py.exponent x) eqn:He.
  - apply Z.leb_le in He, Hsec.
    assert (Hp : 0 < 2 ^ Py.exponent x) by (apply Z.pow_pos_nonneg; lia).
    rewrite true_div_of_positive by nia.
    apply round_ratio_ge_int; nia.
  - apply Z.leb_gt in He. apply Z.leb_le in Hsec.
    assert (Hp : 0 < 2 ^ (- Py.exponent x)) by (apply Z.pow_pos_nonneg; lia).
    rewrite true_div_of_positive by assumption.
    apply round_ratio_ge_int; nia.
Qed.

(** And hours that have not passed are not: for an interval below
    [2^34] seconds, a time short of it by a microsecond or more gives
    [hours_since] below the interval. *)
Lemma hours_since_when_early us n :
  0 < us -> 0 <= n -> 3600 * n < 2 ^ 34 -> us < n * us_per_hour ->
  Py.ge_int (Py.div (total_seconds us) 3600) n = false.
Proof.
  intros Hus Hn Hsmall Hearly.
  assert (H34 : 2 ^ 34 = 17179869184) by reflexivity.
  assert (Hfew : 0 < us < 2 ^ 34 * 1000000).
  { unfold us_per_hour in Hearly. lia. }
  pose proof (seconds_are_fine us Hfew) as He.
  pose proof (round_ratio_positive us 1000000 Hus ltac:(lia)) as Hm.
  pose proof (round_ratio_mantissa us 1000000 Hus ltac:(lia)) as Hm53.
  assert (HK19 : 2 ^ 19 <= 2 ^ (- Py.exponent (Py.round_ratio us 1000000)))
    by (apply Z.pow_le_mono_r; lia).
  change (2 ^ 19) with 524288 in HK19.
  pose proof (round_ratio_whole us 1000000 (3600 * n) Hus ltac:(lia) ltac:(lia)
                ltac:(lia)) as Hwhole.
  unfold total_seconds. rewrite true_div_of_positive by assumption.
  unfold Py.div.
  assert (Hsign : (0 <=? Py.exponent (Py.round_ratio us 1000000)) = false)
    by (apply Z.leb_gt; lia).
  rewrite Hsign, true_div_of_positive by assumption.
  set (e := Py.exponent (Py.round_ratio us 1000000)) in *.
  set (m := Py.mantissa (Py.round_ratio us 1000000)) in *.
  clearbody e m.
  set (K := 2 ^ (- e)) in *.
  assert (Hm' : m < 3600 * n * K).
  { destruct (Z.lt_ge_cases m (3600 * n * K)) as [H | H]; [exact H |].
    apply Hwhole in H. unfold us_per_hour in Hearly. lia. }
  assert (HKp : 0 < K) by lia.
  assert (Hb : 0 < 3600 * K) by lia.
  destruct (round_ratio_scaled m (3600 * K) Hm Hb) as [Hnn Hneg].
  pose proof (round_ratio_whole m (3600 * K) n Hm Hb) as Hwhole'.
  unfold Py.ge_int.
  cbn zeta in Hwhole'.
  change (Py.exponent (Py.round_ratio m (3600 * K)))
    with (Py.log2_ratio m (3600 * K) - 52) in *.
  set (e' := Py.log2_ratio m (3600 * K) - 52) in *. clearbody e'.
  assert (H52 : 2 ^ 52 = 4503599627370496) by reflexivity.
  assert (H53 : 2 ^ 53 = 9007199254740992) by reflexivity.
  assert (He' : e' <= e - 11).
  { destruct (Z.le_gt_cases 0 e') as [Hpos | Hlt].
    - specialize (Hnn Hpos).
      assert (Hp : 0 < 2 ^ e') by (apply Z.pow_pos_nonneg; lia). nia.
    - specialize (Hneg Hlt).
      destruct (Z.le_gt_cases e' (e - 11)) as [H | H]; [exact H |].
      assert (Hp : 2 ^ (- e') <= 2 ^ (- e + 10)) by (apply Z.pow_le_mono_r; lia).
      rewrite Z.pow_add_r in Hp by lia. fold K in Hp.
      change (2 ^ 10) with 1024 in Hp. nia. }
  assert (HK' : 2048 * K <= 2 ^ (- e')).
  { assert (Hp : 2 ^ (- e + 11) <= 2 ^ (- e')) by (apply Z.pow_le_mono_r; lia).
    rewrite Z.pow_add_r in Hp by lia. fold K in Hp.
    change (2 ^ 11) with 2048 in Hp. lia. }
  assert (Hsign' : (0 <=? e') = false) by (apply Z.leb_gt; lia).
  rewrite Hsign'. apply Z.leb_gt.
  destruct (Z.lt_ge_cases (Py.mantissa (Py.round_ratio m (3600 * K))) (n * 2 ^ (- e')))
    as [H | H]; [exact H |].
  apply Hwhole' in H; [| lia | lia]. lia.
Qed.

(** For an interval of 0 to 4 772 185 hours the float test of the source
    is the comparison of the microseconds, at every time. *)
Lemma float_test_is_exact env since :
  0 <= reminder_interval_hours (config env) ->
  3600 * reminder_interval_hours (config env) < 2 ^ 34 ->
  hours_since_test env since = reminder_due env since.
Proof.
  intros Hn Hsmall. unfold hours_since_test, reminder_due.
  set (n := reminder_interval_hours (config env)) in *. clearbody n.
  set (us := now env - since). clearbody us.
  assert (H34 : 2 ^ 34 = 17179869184) by reflexivity.
  assert (H52 : 2 ^ 52 = 4503599627370496) by reflexivity.
  destruct (Z.lt_trichotomy us 0) as [Hneg | [-> | Hpos]].
  - rewrite ge_int_negative; [| | exact Hn].
    + symmetry. apply Z.leb_gt. unfold us_per_hour. lia.
    + apply div_negative; [| lia]. apply true_div_negative; lia.
  - change (Py.div (total_seconds 0) 3600) with Py.zero.
    unfold Py.ge_int. cbn [Py.exponent Py.mantissa Py.zero Z.leb Z.compare].
    change (0 * 2 ^ 0) with 0.
    destruct (Z.leb_spec n 0), (Z.leb_spec (n * us_per_hour) 0);
      unfold us_per_hour in *; try reflexivity; lia.
  - destruct (Z.leb_spec (n * us_per_hour) us) as [Hdue | Hearly].
    + apply hours_since_when_due; lia.
    + apply hours_since_when_early; lia.
Qed.

(** ** The countdown over time *)

Lemma countdown_text_is_not_expired h m :
  Py.str_of_Z h +:+ "h " +:+ Py.str_of_Z m +:+ "m" <> "Expired".
Proof.
  intros Heq.
  assert (Hsp : Py.contains " " "Expired" = true).
  { rewrite <- Heq. apply contains_after.
    change ("h " +:+ ?x) with (String "h" (String " " x)).
    cbn. now destruct (Py.str_of_Z _ +:+ "m"). }
  discriminate Hsp.
Qed.

(** The whole minutes of the seconds remaining, while less than [2^34]
    seconds remain. *)
Lemma minutes_remaining us :
  0 <= us < 2 ^ 34 * 1000000 ->
  Py.floor_div (total_seconds us) 60 = us / us_per_minute.
Proof.
  intros [Hnn Hfew]. destruct (Z.eq_dec us 0) as [-> | Hne]; [reflexivity |].
  apply floor_div_total_seconds; lia.
Qed.

(** X17.  The countdown of a record never goes up as time passes.  Whether it
    can be computed at all, and what is raised when it cannot, does not
    depend on the time of the reading.  Between two readings a countdown
    that has expired stays expired, and the text is "Expired" exactly
    when the seconds returned are zero; and when less than [2^34]
    seconds remain at the first reading, the whole minutes of the
    seconds returned do not go up, and go down by no more than the whole
    minutes that passed and one. *)
Theorem countdown_never_goes_up env st t1 t2 :
  t1 <= t2 ->
  match _compute_time_remaining (at_now t1 env) st,
        _compute_time_remaining (at_now t2 env) st with
  | Ret (text1, r1), Ret (text2, r2) =>
      (text1 = "Expired" -> text2 = "Expired") /\
      (text2 = "Expired" <-> r2 = Py.zero) /\
      (Py.ge_int r1 (2 ^ 34) = false ->
       Py.floor_div r2 60 <= Py.floor_div r1 60
         <= Py.floor_div r2 60 + (t2 - t1) / us_per_minute + 1)
  | Raise e1, Raise e2 => e1 = e2
  | _, _ => False
  end.
Proof.
  intros Hle. unfold _compute_time_remaining, invoice_field, parse_datetime.
  destruct (invoice_data st !! "Timestamp") as [[| ts] |]; try reflexivity.
  cbn [fromisoformat fromisoformat_aware at_now].
  change (sla_hours (at_now t1 env) st) with (sla_hours env st).
  change (sla_hours (at_now t2 env) st) with (sla_hours env st).
  cbn [now at_now].
  assert (Hnaive : forall T,
            let deadline := T + sla_hours env st * us_per_hour in
            let r1 := Py.max0 (total_seconds (deadline - t1)) in
            let r2 := Py.max0 (total_seconds (deadline - t2)) in
            let text r :=
              if Py.positive r
              then Py.str_of_Z (Py.floor_div r 3600) +:+ "h "
                   +:+ Py.str_of_Z (Py.floor_div (Py.fmod r 3600) 60) +:+ "m"
              else "Expired" in
            (text r1 = "Expired" -> text r2 = "Expired") /\
            (text r2 = "Expired" <-> r2 = Py.zero) /\
            (Py.ge_int r1 (2 ^ 34) = false ->
             Py.floor_div r2 60 <= Py.floor_div r1 60
               <= Py.floor_div r2 60 + (t2 - t1) / us_per_minute + 1)).
  { intros T deadline r1 r2 text. subst r1 r2 text. cbv beta.
    rewrite !max0_total_seconds, !total_seconds_positive.
    set (left1 := Z.max 0 (deadline - t1)). set (left2 := Z.max 0 (deadline - t2)).
    assert (H12 : 0 <= left2 <= left1 /\ left1 - left2 <= t2 - t1)
      by (subst left1 left2; lia).
    clearbody left1 left2. split; [| split].
    - destruct (0 <? left1) eqn:H1.
      + intros Heq. now apply countdown_text_is_not_expired in Heq.
      + intros _. apply Z.ltb_ge in H1.
        assert (H2 : (0 <? left2) = false) by (apply Z.ltb_ge; lia).
        now rewrite H2.
    - destruct (0 <? left2) eqn:H2.
      + apply Z.ltb_lt in H2. split.
        * intros Heq. now apply countdown_text_is_not_expired in Heq.
        * intros Hz. pose proof (total_seconds_positive left2) as Hp.
          rewrite Hz in Hp. apply Z.ltb_lt in H2. rewrite H2 in Hp. discriminate Hp.
      + apply Z.ltb_ge in H2. split; [| reflexivity].
        intros _. now replace left2 with 0 by lia.
    - intros Hfew.
      assert (Hb : left1 < 2 ^ 34 * 1000000).
      { destruct (Z.lt_ge_cases left1 (2 ^ 34 * 1000000)) as [H | H]; [exact H |].
        rewrite total_seconds_ge_int in Hfew; [discriminate | | lia].
        change (2 ^ 34) with 17179869184. change (2 ^ 52) with 4503599627370496. lia. }
      rewrite !minutes_remaining by lia.
      assert (Hm : 0 < us_per_minute) by reflexivity.
      pose proof (Z.div_mod left1 us_per_minute ltac:(lia)) as Hd1.
      pose proof (Z.mod_pos_bound left1 us_per_minute Hm) as Hr1.
      pose proof (Z.div_mod left2 us_per_minute ltac:(lia)) as Hd2.
      pose proof (Z.mod_pos_bound left2 us_per_minute Hm) as Hr2.
      pose proof (Z.div_mod (t2 - t1) us_per_minute ltac:(lia)) as Hd3.
      pose proof (Z.mod_pos_bound (t2 - t1) us_per_minute Hm) as Hr3.
      split; [apply Z.div_le_mono; lia |]. nia. }
  destruct (fromisoformat env ts) as [T |].
  - cbn [ticks aware].
    destruct (negb _); [reflexivity |]. apply Hnaive.
  - destruct (fromisoformat_aware env ts) as [T |]; [| reflexivity].
    cbn [ticks aware]. destruct (negb _); reflexivity.
Qed.

Lemma countdown_never_goes_up_witness :
  match _compute_time_remaining (at_now (23 * us_per_hour) (Sample.at_time 0))
          Sample.pending,
        _compute_time_remaining (at_now (25 * us_per_hour) (Sample.at_time 0))
          Sample.pending with
  | Ret (text1, r1), Ret (text2, r2) =>
      (text1 = "Expired" -> text2 = "Expired") /\
      (text2 = "Expired" <-> r2 = Py.zero) /\
      (Py.ge_int r1 (2 ^ 34) = false ->
       Py.floor_div r2 60 <= Py.floor_div r1 60
         <= Py.floor_div r2 60 + (25 * us_per_hour - 23 * us_per_hour) / us_per_minute + 1)
  | Raise e1, Raise e2 => e1 = e2
  | _, _ => False
  end.
Proof.
  apply (countdown_never_goes_up (Sample.at_time 0) Sample.pending
           (23 * us_per_hour) (25 * us_per_hour)).
  vm_compute. discriminate.
Defined.

(** ** The spreadsheet mirror *)

Lemma write_cells_stops env us :
  forall w,
    exists n,
      (n <= length us)%nat /\
      (write_cells env us w).2 = with_events w (List.map cell_event (firstn n us)) /\
      match (write_cells env us w).1 with
      | Ret _ => n = length us
      | Raise e =>
          (0 < n)%nat /\
          update_cell env (trace w ++ List.map cell_event (firstn n us)) = Raise e
      end.
Proof.
  induction us as [| [[row col] v] rest IH]; intros w.
  - exists 0%nat. cbn. rewrite with_events_nil. auto.
  - cbn [write_cells].
    destruct (update_cell env (trace (log (UpdateCell row col v) w)))
      as [[] | e] eqn:Hu.
    + destruct (IH (log (UpdateCell row col v) w)) as (n & Hn & Hw & Hres).
      exists (S n). cbn [length firstn List.map]. split; [lia |]. split.
      * rewrite Hw, log_with_events, with_events_app. reflexivity.
      * destruct (write_cells env rest _).1 as [[] | e]; [lia |].
        destruct Hres as [Hpos Hraise]. split; [lia |].
        rewrite <- Hraise. cbn [log trace]. now rewrite <- app_assoc.
    + exists 1%nat. cbn [length firstn List.map]. split; [lia |].
      split; [reflexivity |]. cbn. split; [lia | exact Hu].
Qed.

(** X18.  The mirror of a record with a spreadsheet row writes the eight cells
    of that row, columns 12 to 18 and 20, one call each and in this
    order, and stops at the first cell the spreadsheet refuses: the
    cells before it stay written, the error goes to the caller, and the
    table is not touched.  A record without a row, or with row 0, is
    mirrored by doing nothing. *)
Theorem mirror_stops_at_the_first_refusal env st w :
  let done := update_spreadsheet_row env st w in
  invoice_states done.2 = invoice_states w /\
  match spreadsheet_row st with
  | Some row =>
      if row =? 0 then done = (Ret tt, with_events w [Mirror st])
      else
        List.map (fun u => (u.1.1, u.1.2)) (cell_updates row st)
        = [(row, 12); (row, 13); (row, 14); (row, 15);
           (row, 16); (row, 17); (row, 18); (row, 20)] /\
        exists n,
          (n <= 8)%nat /\
          done.2 = with_events w
                     (Mirror st :: List.map cell_event (firstn n (cell_updates row st))) /\
          match done.1 with
          | Ret _ => n = 8%nat
          | Raise e =>
              (0 < n)%nat /\
              update_cell env
                (trace w ++ Mirror st
                   :: List.map cell_event (firstn n (cell_updates row st)))
              = Raise e
          end
  | None => done = (Ret tt, with_events w [Mirror st])
  end.
Proof.
  intros done. split; [apply keeps_update_spreadsheet_row |].
  subst done. unfold update_spreadsheet_row, bind, emit.
  destruct (spreadsheet_row st) as [row |]; [| reflexivity].
  destruct (row =? 0); [reflexivity |].
  split; [reflexivity |].
  destruct (write_cells_stops env (cell_updates row st) (log (Mirror st) w))
    as (n & Hn & Hw & Hres).
  exists n. split; [exact Hn |]. split.
  - rewrite Hw, log_with_events, with_events_app. reflexivity.
  - destruct (write_cells env _ _).1 as [[] | e]; [exact Hres |].
    destruct Hres as [Hpos Hraise]. split; [exact Hpos |].
    rewrite <- Hraise. cbn [log trace]. now rewrite <- app_assoc.
Qed.

(* ===================================================================== *)
(** * Further properties of the reminder loop *)
(* ===================================================================== *)

Lemma yields_emits {A} P (c : M A) : yields P (fun _ => True) c -> emits P c.
Proof.
  intros Hc w. destruct (Hc w) as (evs & Ht & HP & _). now exists evs.
Qed.

Lemma emits_yields {A} P (c : M A) : emits P c -> yields P (fun _ => True) c.
Proof.
  intros Hc w. destruct (Hc w) as (evs & Ht & HP). exists evs.
  split; [exact Ht |]. split; [exact HP |]. now destruct (c w).1.
Qed.

Lemma yields_ret {A} P (Q : A -> Prop) a : Q a -> yields P Q (ret a).
Proof. intros HQ w. exists []. cbn. rewrite app_nil_r. auto. Qed.

Lemma yields_raise {A} P (Q : A -> Prop) e : yields P Q (@raise A e).
Proof. intros w. exists []. cbn. rewrite app_nil_r. auto. Qed.

Lemma yields_lift {A} P (Q : A -> Prop) (o : outcome A) :
  (forall a, o = Ret a -> Q a) -> yields P Q (lift o).
Proof.
  intros HQ w. exists []. cbn. rewrite app_nil_r.
  split; [reflexivity |]. split; [constructor |]. destruct o; auto.
Qed.

Lemma yields_bind {A B} P (Q : A -> Prop) (Q' : B -> Prop) (c : M A) (f : A -> M B) :
  yields P Q c -> (forall a, Q a -> yields P Q' (f a)) -> yields P Q' (bind c f).
Proof.
  intros Hc Hf w. unfold bind.
  destruct (Hc w) as (evs & Ht & HP & HQ).
  destruct (c w) as [[a | e] w1]; cbn in Ht, HQ.
  - destruct (Hf a HQ w1) as (evs' & Ht' & HP' & HQ').
    exists (evs ++ evs'). rewrite Ht', Ht, <- app_assoc.
    split; [reflexivity |]. split; [apply Forall_app; auto | exact HQ'].
  - exists evs. cbn. auto.
Qed.

Lemma yields_try_except {A} P (Q : A -> Prop) (c : M A) (h : exn -> M A) :
  yields P Q c -> (forall e, yields P Q (h e)) -> yields P Q (try_except c h).
Proof.
  intros Hc Hh w. unfold try_except.
  destruct (Hc w) as (evs & Ht & HP & HQ).
  destruct (c w) as [[a | e] w1]; cbn in Ht, HQ.
  - exists evs. cbn. auto.
  - destruct (Hh e w1) as (evs' & Ht' & HP' & HQ').
    exists (evs ++ evs'). rewrite Ht', Ht, <- app_assoc.
    split; [reflexivity |]. split; [apply Forall_app; auto | exact HQ'].
Qed.

Lemma bookkeeping_refl st : bookkeeping_only st st.
Proof. repeat split. Qed.

Lemma bookkeeping_reminder st st' count last :
  bookkeeping_only st st' ->
  bookkeeping_only st (set_last_reminder last (set_reminder_count count st')).
Proof. intros H. exact H. Qed.

(** The step that edits the SLA message in place. *)
Lemma yields_edit
    (edit_message : list Event -> string -> string -> Payload -> outcome unit) P (Q : InvoiceState -> Prop) thread message_id embed st :
  Q st ->
  yields P Q (fun w => match edit_message (trace w) thread message_id embed with
                       | Ret _ => (Ret st, w)
                       | Raise e => (Raise e, w)
                       end).
Proof.
  intros HQ w. exists []. rewrite app_nil_r.
  destruct (edit_message _ _ _ _); cbn; auto.
Qed.

Lemma tracks_edit
    (edit_message : list Event -> string -> string -> Payload -> outcome unit) thread message_id embed (st : InvoiceState) :
  tracks (fun w => match edit_message (trace w) thread message_id embed with
                   | Ret _ => (Ret st, w)
                   | Raise e => (Raise e, w)
                   end).
Proof.
  intros w. exists []. rewrite app_nil_r.
  destruct (edit_message _ _ _ _); cbn; repeat split; apply table_from_nil.
Qed.

Lemma yields_post_sla_message env P st0 thread embed st :
  P (Send thread embed) -> bookkeeping_only st0 st ->
  yields P (bookkeeping_only st0) (post_sla_message env thread embed st).
Proof.
  intros HP Hb. unfold post_sla_message.
  apply yields_bind with (Q := fun _ => True).
  - apply emits_yields. now apply emits_safe_send.
  - intros [id |] _; [apply yields_ret; exact Hb | apply yields_raise].
Qed.

Lemma yields_post_or_update_sla_message env get_channel edit_message P st :
  (forall channel p, P (Send channel p)) ->
  yields P (fun updated => forall st', updated = Some st' -> bookkeeping_only st st')
    (post_or_update_sla_message env get_channel edit_message st).
Proof.
  intros HP.
  assert (Hnone : yields P
            (fun updated : option InvoiceState =>
               forall st', updated = Some st' -> bookkeeping_only st st')
            (ret None)).
  { apply yields_ret. discriminate. }
  unfold post_or_update_sla_message.
  destruct (negb _); [exact Hnone |].
  destruct (negb _); [exact Hnone |].
  apply yields_bind with (Q := fun _ => True); [now apply yields_lift |].
  intros [thread |] _; [| exact Hnone].
  apply yields_bind with (Q := fun _ => True); [now apply yields_lift |].
  intros r _.
  apply yields_bind with (Q := fun _ => True); [now apply yields_lift |].
  intros number _.
  apply yields_try_except; [| intros; exact Hnone].
  apply yields_bind with (Q := bookkeeping_only st).
  - destruct (Py.truthy_opt (sla_message_id st)).
    + apply yields_try_except.
      * apply yields_edit. apply bookkeeping_refl.
      * intros _. apply yields_post_sla_message; [apply HP | apply bookkeeping_refl].
    + apply yields_post_sla_message; [apply HP | apply bookkeeping_refl].
  - intros st' Hb. apply yields_ret. now intros ? [= <-].
Qed.

Lemma emits_send_reminder env get_channel P st :
  (forall channel p, P (Send channel p)) ->
  emits P (send_reminder env get_channel st).
Proof.
  intros HP. unfold send_reminder.
  destruct (discord_thread_id st) as [thread_id |]; [| apply emits_raise].
  apply emits_bind; [apply emits_lift |]. intros [thread |]; [| apply emits_ret].
  apply emits_bind; [apply emits_lift |]. intros number.
  apply emits_bind; [apply emits_lift |]. intros r.
  apply emits_bind; [apply emits_safe_send; apply HP | intros; apply emits_ret].
Qed.

Lemma emits_remind_if_due env get_channel isoformat rows key st0 st :
  In (key, st0) rows -> bookkeeping_only st0 st ->
  emits (reminder_event rows) (remind_if_due env get_channel isoformat key st).
Proof.
  intros Hin Hb.
  assert (Hremind : forall count,
            emits (reminder_event rows) (remind env get_channel isoformat key st count)).
  { intros count. unfold remind. apply emits_bind.
    - apply emits_send_reminder. intros; exact I.
    - intros _. apply emits_save_state; [| intros; exact I].
      exists st0. split; [exact Hin |]. now apply bookkeeping_reminder. }
  unfold remind_if_due.
  destruct (Py.truthy_opt (last_reminder st)).
  - apply emits_bind; [apply emits_lift |]. intros last.
    destruct (reminder_due env last); [apply Hremind | apply emits_ret].
  - destruct (reminder_count st =? 0); [| apply emits_ret].
    apply emits_bind; [apply emits_lift |]. intros created.
    destruct (reminder_due env created); [apply Hremind | apply emits_ret].
Qed.

Lemma emits_reminder_row env get_channel edit_message isoformat rows row :
  In row rows ->
  emits (reminder_event rows)
    (reminder_row env get_channel edit_message isoformat row).
Proof.
  intros Hin. destruct row as [key st0]. unfold reminder_row. cbn [fst snd].
  apply yields_emits.
  apply yields_bind
    with (Q := fun updated => forall st', updated = Some st' -> bookkeeping_only st0 st').
  { apply yields_post_or_update_sla_message. intros; exact I. }
  intros updated Hup.
  apply yields_bind with (Q := bookkeeping_only st0).
  - destruct updated as [st' |].
    + apply yields_bind with (Q := fun _ => True).
      * apply emits_yields. apply emits_save_state; [| intros; exact I].
        exists st0. split; [exact Hin | now apply Hup].
      * intros _ _. apply yields_ret. now apply Hup.
    + apply yields_ret. apply bookkeeping_refl.
  - intros st Hb. apply emits_yields. now apply emits_remind_if_due with st0.
Qed.

Lemma emits_reminder_rows env get_channel edit_message isoformat rows todo :
  (forall row, In row todo -> In row rows) ->
  emits (reminder_event rows)
    (reminder_rows env get_channel edit_message isoformat todo).
Proof.
  induction todo as [| row rest IH]; intros Hsub; [apply emits_ret |].
  cbn [reminder_rows]. apply emits_bind.
  - apply emits_reminder_row. apply Hsub. now left.
  - intros _. apply IH. intros r Hr. apply Hsub. now right.
Qed.

Lemma tracks_post_sla_message env thread embed st :
  tracks (post_sla_message env thread embed st).
Proof.
  unfold post_sla_message. apply tracks_bind; [apply tracks_safe_send |].
  intros [id |]; [apply tracks_ret | apply tracks_raise].
Qed.

Lemma tracks_post_or_update_sla_message env get_channel edit_message st :
  tracks (post_or_update_sla_message env get_channel edit_message st).
Proof.
  unfold post_or_update_sla_message.
  destruct (negb _); [apply tracks_ret |].
  destruct (negb _); [apply tracks_ret |].
  apply tracks_bind; [apply tracks_lift |]. intros [thread |]; [| apply tracks_ret].
  apply tracks_bind; [apply tracks_lift |]. intros r.
  apply tracks_bind; [apply tracks_lift |]. intros number.
  apply tracks_try_except; [| intros; apply tracks_ret].
  apply tracks_bind; [| intros; apply tracks_ret].
  destruct (Py.truthy_opt (sla_message_id st)); [| apply tracks_post_sla_message].
  apply tracks_try_except; [apply tracks_edit | intros; apply tracks_post_sla_message].
Qed.

Lemma tracks_send_reminder env get_channel st : tracks (send_reminder env get_channel st).
Proof.
  unfold send_reminder.
  destruct (discord_thread_id st) as [thread_id |]; [| apply tracks_raise].
  apply tracks_bind; [apply tracks_lift |]. intros [thread |]; [| apply tracks_ret].
  apply tracks_bind; [apply tracks_lift |]. intros number.
  apply tracks_bind; [apply tracks_lift |]. intros r.
  apply tracks_bind; [apply tracks_safe_send | intros; apply tracks_ret].
Qed.

Lemma tracks_remind_if_due env get_channel isoformat key st :
  tracks (remind_if_due env get_channel isoformat key st).
Proof.
  assert (Hremind : forall count,
            tracks (remind env get_channel isoformat key st count)).
  { intros count. unfold remind.
    apply tracks_bind; [apply tracks_send_reminder | intros; apply tracks_save_state]. }
  unfold remind_if_due.
  destruct (Py.truthy_opt (last_reminder st)).
  - apply tracks_bind; [apply tracks_lift |]. intros last.
    destruct (reminder_due env last); [apply Hremind | apply tracks_ret].
  - destruct (reminder_count st =? 0); [| apply tracks_ret].
    apply tracks_bind; [apply tracks_lift |]. intros created.
    destruct (reminder_due env created); [apply Hremind | apply tracks_ret].
Qed.

Lemma tracks_reminder_row env get_channel edit_message isoformat row :
  tracks (reminder_row env get_channel edit_message isoformat row).
Proof.
  unfold reminder_row.
  apply tracks_bind; [apply tracks_post_or_update_sla_message |]. intros updated.
  apply tracks_bind; [| intros; apply tracks_remind_if_due].
  destruct updated as [st' |]; [| apply tracks_ret].
  apply tracks_bind; [apply tracks_save_state | intros; apply tracks_ret].
Qed.

Lemma tracks_reminder_rows env get_channel edit_message isoformat todo :
  tracks (reminder_rows env get_channel edit_message isoformat todo).
Proof.
  induction todo as [| row rest IH]; [apply tracks_ret |].
  cbn [reminder_rows]. apply tracks_bind; [apply tracks_reminder_row | intros; exact IH].
Qed.

(** X19.  One run of the reminder loop never raises, never asks the ledger and
    never touches the spreadsheet or the thread index.  What it writes
    are records of rows the store selected as pending when the run began,
    each under the key of its row and changed in the reminder bookkeeping
    at most: the payload, the thread, the approval side and the payment
    side stay as they were.  Every row of the table afterwards is a row
    that was there before, or such a record. *)
Theorem reminders_touch_only_the_bookkeeping env get_channel edit_message isoformat like_pending w :
  let done := reminder_task env get_channel edit_message isoformat like_pending w in
  let selected := List.filter (fun row => like_pending row.2) (invoice_states w) in
  done.1 = Ret tt /\
  thread_map done.2 = thread_map w /\
  (exists evs, trace done.2 = trace w ++ evs /\ Forall (reminder_event selected) evs) /\
  (forall row, In row (invoice_states done.2) ->
     In row (invoice_states w) \/
     exists st, In (row.1, st) (invoice_states w) /\ like_pending st = true /\
                bookkeeping_only st row.2).
Proof.
  intros done selected.
  assert (Hsame : done.2 = (reminder_rows env get_channel edit_message isoformat
                              selected w).2 /\ done.1 = Ret tt).
  { subst done. unfold reminder_task, try_except. fold selected.
    destruct (reminder_rows _ _ _ _ selected w) as [[[] | e] w1]; split; reflexivity. }
  destruct Hsame as [Hw Hret]. rewrite Hw.
  destruct (tracks_reminder_rows env get_channel edit_message isoformat selected w) as (evs & Ht & Htab & Hmap & _).
  destruct (emits_reminder_rows env get_channel edit_message isoformat
              selected selected (fun _ H => H) w)
    as (evs' & Ht' & Hall).
  assert (evs' = evs) as -> by (rewrite Ht in Ht'; now apply app_inv_head in Ht').
  split; [exact Hret |]. split; [exact Hmap |]. split; [now exists evs |].
  intros row Hin. destruct (Htab row Hin) as [Hold | Hnew]; [now left |].
  right. rewrite List.Forall_forall in Hall.
  destruct (Hall _ Hnew) as (st & Hsel & Hb).
  apply List.filter_In in Hsel as [Hrow Hlike].
  exists st. auto.
Qed.

(** ** The SLA message *)

Lemma safe_send_answered env channel p w message_id :
  shutting_down w = false ->
  channel_send env (trace w ++ [Send channel p]) = Ret message_id ->
  safe_send env channel p w = (Ret (Some message_id), log (Send channel p) w).
Proof.
  intros Hup Hans. unfold safe_send. rewrite Hup. cbn [log trace]. now rewrite Hans.
Qed.

Lemma sla_message_reached env get_channel edit_message st thread_id thread text r number w :
  approval_status st = "pending" ->
  discord_thread_id st = Some thread_id -> Py.truthy thread_id = true ->
  get_channel thread_id = Ret (Some thread) ->
  _compute_time_remaining env st = Ret (text, r) ->
  invoice_data st !! "Invoice Number" = Some number ->
  post_or_update_sla_message env get_channel edit_message st w
  = try_except
      (let* st' :=
         (if Py.truthy_opt (sla_message_id st) then
            try_except
              (fun w =>
                 match edit_message (trace w) thread
                         (Py.str_opt (sla_message_id st)) (sla_embed number st text) with
                 | Ret _ => (Ret st, w)
                 | Raise e => (Raise e, w)
                 end)
              (fun _ => post_sla_message env thread (sla_embed number st text) st)
          else post_sla_message env thread (sla_embed number st text) st) in
       ret (Some st'))
      (fun _ => ret None) w.
Proof.
  intros Hp Hth Ht Hch Htime Hnum. unfold post_or_update_sla_message, invoice_field.
  rewrite Hp, Hth. cbn [String.eqb Ascii.eqb Bool.eqb negb Py.truthy_opt Py.str_opt].
  rewrite Ht. cbn [negb]. rewrite Hch, lift_bind, Htime, lift_bind, Hnum, lift_bind.
  reflexivity.
Qed.

Lemma post_sla_message_answered env thread embed st w message_id :
  shutting_down w = false ->
  channel_send env (trace w ++ [Send thread embed]) = Ret message_id ->
  post_sla_message env thread embed st w
  = (Ret (set_sla_message_id (Some message_id) st), log (Send thread embed) w).
Proof.
  intros Hup Hans. unfold post_sla_message, bind.
  now rewrite (safe_send_answered _ _ _ _ _ Hup Hans).
Qed.

(** X20.  The SLA message of a pending record is posted once and edited in
    place after that; it is posted anew when the edit fails.  Each run of
    the loop then writes the record to the store -- with the id of the
    new message, or, after an edit, exactly as it was read -- before the
    reminder part looks at it.  When the message cannot be posted the
    record is not written, and the reminder part goes on with the record
    as it was read. *)
Theorem sla_message_is_posted_once_and_edited_after
    env get_channel edit_message isoformat key st thread_id thread text r number w :
  approval_status st = "pending" ->
  discord_thread_id st = Some thread_id -> Py.truthy thread_id = true ->
  get_channel thread_id = Ret (Some thread) ->
  _compute_time_remaining env st = Ret (text, r) ->
  invoice_data st !! "Invoice Number" = Some number ->
  store_accepts env -> shutting_down w = false ->
  let embed := sla_embed number st text in
  let row := reminder_row env get_channel edit_message isoformat (key, st) w in
  let then_remind st' evs :=
    remind_if_due env get_channel isoformat key st'
      (set_invoice_states (insert_or_replace key st' (invoice_states w))
         (with_events w evs)) in
  (forall message_id,
     Py.truthy_opt (sla_message_id st) = false ->
     channel_send env (trace w ++ [Send thread embed]) = Ret message_id ->
     let st' := set_sla_message_id (Some message_id) st in
     row = then_remind st' [Send thread embed; DbWrite key st']) /\
  (Py.truthy_opt (sla_message_id st) = true ->
   edit_message (trace w) thread (Py.str_opt (sla_message_id st)) embed = Ret tt ->
   row = then_remind st [DbWrite key st]) /\
  (forall e message_id,
     Py.truthy_opt (sla_message_id st) = true ->
     edit_message (trace w) thread (Py.str_opt (sla_message_id st)) embed = Raise e ->
     channel_send env (trace w ++ [Send thread embed]) = Ret message_id ->
     let st' := set_sla_message_id (Some message_id) st in
     row = then_remind st' [Send thread embed; DbWrite key st']) /\
  (forall e,
     Py.truthy_opt (sla_message_id st) = false ->
     channel_send env (trace w ++ [Send thread embed]) = Raise e ->
     row = remind_if_due env get_channel isoformat key st
             (with_events w [Send thread embed])).
Proof.
  intros Hp Hth Ht Hch Htime Hnum Hdb Hup embed row then_remind.
  pose proof (sla_message_reached env get_channel edit_message st thread_id thread
                text r number w Hp Hth Ht Hch Htime Hnum) as Hsla.
  fold embed in Hsla.
  assert (Hposted : forall message_id,
            channel_send env (trace w ++ [Send thread embed]) = Ret message_id ->
            (run save_state env key (set_sla_message_id (Some message_id) st) then
             ret (set_sla_message_id (Some message_id) st))
              (log (Send thread embed) w)
            = (Ret (set_sla_message_id (Some message_id) st),
               set_invoice_states
                 (insert_or_replace key (set_sla_message_id (Some message_id) st)
                    (invoice_states w))
                 (with_events w [Send thread embed;
                                 DbWrite key (set_sla_message_id (Some message_id) st)]))).
  { intros message_id _. unfold bind. rewrite (save_state_accepted _ _ _ _ Hdb).
    unfold ret, with_events, set_invoice_states, log. cbn.
    now rewrite <- !app_assoc. }
  split; [| split; [| split]].
  - intros message_id Hnone Hans st'. subst row then_remind st'.
    unfold reminder_row. cbn [fst snd]. unfold bind at 1. rewrite Hsla, Hnone.
    unfold try_except, bind at 1.
    rewrite (post_sla_message_answered _ _ _ _ _ _ Hup Hans). cbn [ret].
    unfold bind at 1. rewrite (Hposted message_id Hans). reflexivity.
  - intros Hsome Hedit. subst row then_remind.
    unfold reminder_row. cbn [fst snd]. unfold bind at 1. rewrite Hsla, Hsome.
    unfold try_except, bind at 1. rewrite Hedit. cbn [ret].
    unfold bind at 1. unfold bind at 1. rewrite (save_state_accepted _ _ _ _ Hdb).
    reflexivity.
  - intros e message_id Hsome Hedit Hans st'. subst row then_remind st'.
    unfold reminder_row. cbn [fst snd]. unfold bind at 1. rewrite Hsla, Hsome.
    unfold try_except, bind at 1. rewrite Hedit.
    rewrite (post_sla_message_answered _ _ _ _ _ _ Hup Hans). cbn [ret].
    unfold bind at 1. rewrite (Hposted message_id Hans). reflexivity.
  - intros e Hnone Hans. subst row.
    unfold reminder_row. cbn [fst snd]. unfold bind at 1. rewrite Hsla, Hnone.
    unfold try_except, bind at 1. unfold post_sla_message, bind, safe_send.
    rewrite Hup. cbn [log trace]. rewrite Hans.
    destruct e; try reflexivity.
    destruct (Py.contains _ _); reflexivity.
Qed.

Lemma sla_message_is_posted_once_and_edited_after_witness :
  let env := Sample.at_time us_per_hour in
  let w := Sample.world Sample.pending in
  let embed := sla_embed (JStr "INV-1") Sample.pending "23h 0m" in
  let st' := set_sla_message_id (Some "9001") Sample.pending in
  reminder_row env Tick.get_channel Tick.edit_message Tick.isoformat
    (Some "INV-1", Sample.pending) w
  = remind_if_due env Tick.get_channel Tick.isoformat (Some "INV-1") st'
      (set_invoice_states (insert_or_replace (Some "INV-1") st' (invoice_states w))
         (with_events w [Send "T1" embed; DbWrite (Some "INV-1") st'])).
Proof.
  intros env w embed st'.
  destruct (sla_message_is_posted_once_and_edited_after env Tick.get_channel
              Tick.edit_message Tick.isoformat (Some "INV-1") Sample.pending
              "T1" "T1" "23h 0m" (total_seconds (23 * us_per_hour)) (JStr "INV-1") w)
    as (Hfirst & _).
  - reflexivity.
  - reflexivity.
  - reflexivity.
  - reflexivity.
  - vm_compute; reflexivity.
  - vm_compute; reflexivity.
  - intros h. reflexivity.
  - reflexivity.
  - apply (Hfirst "9001"); reflexivity.
Defined.

(** ** When a reminder is due *)

Lemma keeps_send_reminder env get_channel st :
  keeps_table (send_reminder env get_channel st).
Proof.
  unfold send_reminder.
  destruct (discord_thread_id st) as [thread_id |]; [| apply keeps_raise].
  apply keeps_bind; [apply keeps_lift |]. intros [thread |]; [| apply keeps_ret].
  apply keeps_bind; [apply keeps_lift |]. intros number.
  apply keeps_bind; [apply keeps_lift |]. intros r.
  apply keeps_bind; [apply keeps_safe_send | intros; apply keeps_ret].
Qed.

Lemma remind_world env get_channel isoformat key st count w :
  store_accepts env ->
  (send_reminder env get_channel st w).1 = Ret tt ->
  let st' := set_last_reminder (Some (isoformat (now env))) (set_reminder_count count st) in
  remind env get_channel isoformat key st count w
  = (Ret tt,
     set_invoice_states (insert_or_replace key st' (invoice_states w))
       (log (DbWrite key st') (send_reminder env get_channel st w).2)).
Proof.
  intros Hdb Hsent st'. unfold remind, bind.
  pose proof (keeps_send_reminder env get_channel st w) as Hkeep.
  destruct (send_reminder env get_channel st w) as [[[] | e] w1]; [| discriminate].
  cbn [fst snd] in *. rewrite (save_state_accepted _ _ _ _ Hdb). fold st'.
  now rewrite Hkeep.
Qed.

(** X21.  A record that was never reminded gets its first reminder as soon as
    the reminder interval has passed since the time of the invoice, and
    not before: for a Timestamp without UTC offset and an interval of 0
    to 4 772 185 hours, the float test of the source holds exactly when
    the interval has passed, to the microsecond; the run then sends the
    reminder and writes the record with reminder_count 1 and the time of
    the run as last_reminder.  A record with a count other than 0 and no
    last_reminder is never reminded. *)
Theorem first_reminder_after_the_interval env get_channel isoformat key st ts T w :
  Py.truthy_opt (last_reminder st) = false ->
  invoice_data st !! "Timestamp" = Some (JStr ts) ->
  fromisoformat env ts = Some T ->
  0 <= reminder_interval_hours (config env) ->
  3600 * reminder_interval_hours (config env) < 2 ^ 34 ->
  let interval := reminder_interval_hours (config env) * us_per_hour in
  let done := remind_if_due env get_channel isoformat key st w in
  let st' := set_last_reminder (Some (isoformat (now env))) (set_reminder_count 1 st) in
  hours_since_test env T = (interval <=? now env - T) /\
  (reminder_count st <> 0 -> done = (Ret tt, w)) /\
  (reminder_count st = 0 -> now env - T < interval -> done = (Ret tt, w)) /\
  (reminder_count st = 0 -> interval <= now env - T ->
   store_accepts env -> (send_reminder env get_channel st w).1 = Ret tt ->
   done = (Ret tt,
           set_invoice_states (insert_or_replace key st' (invoice_states w))
             (log (DbWrite key st') (send_reminder env get_channel st w).2))).
Proof.
  intros Hlast Hts Hparse Hnn Hsmall interval done st'. subst done.
  split; [now apply float_test_is_exact |].
  unfold remind_if_due, invoice_field, parse_time, parse_datetime.
  rewrite Hlast, Hts, Hparse. cbn [aware ticks].
  split; [| split].
  - intros Hcount. apply Z.eqb_neq in Hcount. now rewrite Hcount.
  - intros -> Hearly. cbn [Z.eqb]. rewrite lift_bind.
    unfold reminder_due. fold interval.
    assert (Hd : (interval <=? now env - T) = false) by (apply Z.leb_gt; lia).
    now rewrite Hd.
  - intros -> Hdue Hdb Hsent. cbn [Z.eqb]. rewrite lift_bind.
    unfold reminder_due. fold interval.
    assert (Hd : (interval <=? now env - T) = true) by (apply Z.leb_le; lia).
    rewrite Hd. now apply remind_world.
Qed.

Lemma first_reminder_after_the_interval_witness :
  let env := Sample.at_time (24 * us_per_hour) in
  let st := Tick.threadless in
  let w := Sample.world st in
  let st' := set_last_reminder (Some "t=86400000000") (set_reminder_count 1 st) in
  remind_if_due env Tick.get_channel Tick.isoformat (Some "INV-1") st w
  = (Raise TypeError, w) /\
  hours_since_test env 0 = true /\
  remind_if_due env Tick.get_channel Tick.isoformat (Some "INV-1") Sample.pending
    (Sample.world Sample.pending)
  = (Ret tt,
     set_invoice_states
       (insert_or_replace (Some "INV-1")
          (set_last_reminder (Some "t=86400000000")
             (set_reminder_count 1 Sample.pending)) [(Some "INV-1", Sample.pending)])
       (log (DbWrite (Some "INV-1")
               (set_last_reminder (Some "t=86400000000")
                  (set_reminder_count 1 Sample.pending)))
          (send_reminder env Tick.get_channel Sample.pending
             (Sample.world Sample.pending)).2)).
Proof.
  intros env st w st'. split; [vm_compute; reflexivity |].
  destruct (first_reminder_after_the_interval env Tick.get_channel Tick.isoformat
              (Some "INV-1") Sample.pending "2025-08-05T10:00:00" 0
              (Sample.world Sample.pending))
    as (Htest & _ & _ & Hdue).
  - reflexivity.
  - vm_compute; reflexivity.
  - reflexivity.
  - vm_compute. discriminate.
  - vm_compute. reflexivity.
  - split; [rewrite Htest; vm_compute; reflexivity |].
    apply Hdue.
    + reflexivity.
    + vm_compute. discriminate.
    + intros h. reflexivity.
    + vm_compute; reflexivity.
Defined.

(** ** The cap that is never read *)






(** ** A reminder without a thread *)

(** X23.  When the client does not know the thread of a record, the reminder
    is not sent -- and is counted all the same: the run writes the record
    with the count one up and the time of the run, without any send.
    When the client knows the thread, the reminder is one embed in that
    thread, numbered with the count plus one.  A record without a thread
    id makes the reminder raise [TypeError]. *)
Theorem unsent_reminder_is_counted env get_channel isoformat key st thread_id count w :
  discord_thread_id st = Some thread_id ->
  store_accepts env ->
  let st' := set_last_reminder (Some (isoformat (now env))) (set_reminder_count count st) in
  (get_channel thread_id = Ret None ->
   remind env get_channel isoformat key st count w
   = (Ret tt,
      set_invoice_states (insert_or_replace key st' (invoice_states w))
        (with_events w [DbWrite key st']))) /\
  (forall thread number text r,
     get_channel thread_id = Ret (Some thread) ->
     invoice_data st !! "Invoice Number" = Some number ->
     _compute_time_remaining env st = Ret (text, r) ->
     shutting_down w = false -> chat_delivers env ->
     remind env get_channel isoformat key st count w
     = (Ret tt,
        set_invoice_states (insert_or_replace key st' (invoice_states w))
          (with_events w [Send thread (reminder_embed env number st text);
                          DbWrite key st']))) /\
  (forall st0 w0,
     discord_thread_id st0 = None ->
     send_reminder env get_channel st0 w0 = (Raise TypeError, w0)).
Proof.
  intros Hth Hdb st'. split; [| split].
  - intros Hnone.
    assert (Hsend : send_reminder env get_channel st w = (Ret tt, w)).
    { unfold send_reminder. now rewrite Hth, Hnone. }
    rewrite remind_world; [| exact Hdb | now rewrite Hsend].
    rewrite Hsend. reflexivity.
  - intros thread number text r Hch Hnum Htime Hup Hchat.
    assert (Hsend : send_reminder env get_channel st w
                    = (Ret tt, log (Send thread (reminder_embed env number st text)) w)).
    { unfold send_reminder, invoice_field.
      rewrite Hth, Hch, lift_bind, Hnum, lift_bind, Htime, lift_bind.
      destruct (safe_send_delivered env thread (reminder_embed env number st text) w
                  Hchat Hup) as [id Hid].
      unfold bind. cbn [fst]. now rewrite Hid. }
    rewrite remind_world; [| exact Hdb | now rewrite Hsend].
    rewrite Hsend. unfold with_events, set_invoice_states, log. cbn.
    now rewrite <- !app_assoc.
  - intros st0 w0 Hnone. unfold send_reminder. now rewrite Hnone.
Qed.

Lemma unsent_reminder_is_counted_witness :
  let env := Sample.at_time (48 * us_per_hour) in
  let w := Sample.world Tick.orphan in
  let st' := set_last_reminder (Some "t=172800000000")
               (set_reminder_count 4 Tick.orphan) in
  remind env Tick.get_channel Tick.isoformat (Some "INV-1") Tick.orphan 4 w
  = (Ret tt,
     set_invoice_states (insert_or_replace (Some "INV-1") st' (invoice_states w))
       (with_events w [DbWrite (Some "INV-1") st'])).
Proof.
  intros env w st'.
  destruct (unsent_reminder_is_counted env Tick.get_channel Tick.isoformat
              (Some "INV-1") Tick.orphan "T9" 4 w)
    as (Hnone & _).
  - reflexivity.
  - intros h. reflexivity.
  - apply Hnone. reflexivity.
Defined.

(** ** A run that ends early *)

(** X24.  The rows are handled one after the other inside one [try]: when the
    handling of a row raises, the run ends there without raising, and
    the rows after it are not looked at in this run, whether a reminder
    is due for them or not. *)
Theorem a_failing_row_ends_the_run
    env get_channel edit_message isoformat like_pending before row rest w e :
  List.filter (fun r => like_pending r.2) (invoice_states w) = before ++ row :: rest ->
  let upto := reminder_rows env get_channel edit_message isoformat before w in
  upto.1 = Ret tt ->
  (reminder_row env get_channel edit_message isoformat row upto.2).1 = Raise e ->
  reminder_task env get_channel edit_message isoformat like_pending w
  = (Ret tt, (reminder_row env get_channel edit_message isoformat row upto.2).2).
Proof.
  intros Hsel upto Hupto Hraise. unfold reminder_task, try_except. rewrite Hsel.
  assert (Hrows : forall todo w0,
            (reminder_rows env get_channel edit_message isoformat todo w0).1 = Ret tt ->
            reminder_rows env get_channel edit_message isoformat (todo ++ row :: rest) w0
            = (run reminder_row env get_channel edit_message isoformat row then
               reminder_rows env get_channel edit_message isoformat rest)
                (reminder_rows env get_channel edit_message isoformat todo w0).2).
  { induction todo as [| r todo IH]; intros w0 Hok; [reflexivity |].
    cbn [app reminder_rows] in *. unfold bind at 1. unfold bind at 1 in Hok.
    unfold bind at 2.
    destruct (reminder_row env get_channel edit_message isoformat r w0)
      as [[[] | e0] w1]; [| discriminate].
    now apply IH. }
  rewrite (Hrows before w Hupto). fold upto. unfold bind.
  destruct (reminder_row env get_channel edit_message isoformat row upto.2)
    as [[[] | e0] w1]; [discriminate | reflexivity].
Qed.

Lemma a_failing_row_ends_the_run_witness :
  let env := Sample.at_time (48 * us_per_hour) in
  let w := mkWorld false
             [(Some "INV-0", Tick.threadless); (Some "INV-1", Tick.reminded 1)]
             ∅ [] in
  reminder_task env Tick.get_channel Tick.edit_message Tick.isoformat
    Tick.like_pending w
  = (Ret tt, w).
Proof.
  intros env w.
  apply (a_failing_row_ends_the_run env Tick.get_channel Tick.edit_message
           Tick.isoformat Tick.like_pending [] (Some "INV-0", Tick.threadless)
           [(Some "INV-1", Tick.reminded 1)] w TypeError).
  - reflexivity.
  - reflexivity.
  - vm_compute; reflexivity.
Defined.

(* ===================================================================== *)
(** * Further properties of the fallback *)
(* ===================================================================== *)

Lemma prefix_shorter a b : forall s,
  String.prefix (a +:+ b) s = true -> String.prefix a s = true.
Proof.
  induction a as [| c a IH]; intros s H; [now destruct s |].
  rewrite append_cons in H. destruct s as [| d s]; cbn in *; [discriminate |].
  destruct (ascii_dec c d); [now apply IH | discriminate].
Qed.

Lemma contains_shorter a b s :
  Py.contains (a +:+ b) s = true -> Py.contains a s = true.
Proof.
  induction s as [| c s IH]; cbn [Py.contains]; intros H.
  - apply orb_prop in H as [H | H]; [| discriminate].
    now rewrite (prefix_shorter a b _ H).
  - apply orb_prop in H as [H | H].
    + now rewrite (prefix_shorter a b _ H).
    + rewrite (IH H). apply orb_true_r.
Qed.

(** The second test of each pair cannot add anything. *)
Lemma fallback_intent cc rs content :
  intent_of (parse_fallback cc rs content)
  = if Py.contains "status" (Py.lower content) then "status"
    else if Py.contains "approve" (Py.lower content) then "approve"
    else if Py.contains "reject" (Py.lower content) then "reject"
    else "none".
Proof.
  unfold parse_fallback, intent_of. cbn [p_intent].
  destruct (Py.contains "status" _); [reflexivity |].
  destruct (Py.contains "approve" _) eqn:Ha; [reflexivity |].
  destruct (Py.contains "approved" _) eqn:Hd.
  { apply (contains_shorter "approve" "d") in Hd. congruence. }
  destruct (Py.contains "reject" _) eqn:Hr; [reflexivity |].
  destruct (Py.contains "rejected" _) eqn:He; [| reflexivity].
  apply (contains_shorter "reject" "ed") in He. congruence.
Qed.

Lemma fallback_intent_cases cc rs content :
  intent_of (parse_fallback cc rs content) = "status" \/
  intent_of (parse_fallback cc rs content) = "approve" \/
  intent_of (parse_fallback cc rs content) = "reject" \/
  intent_of (parse_fallback cc rs content) = "none".
Proof.
  rewrite fallback_intent.
  destruct (Py.contains "status" _); [auto |].
  destruct (Py.contains "approve" _); [auto |].
  destruct (Py.contains "reject" _); auto.
Qed.

(** X25.  When the language model cannot be reached, the intent the fallback
    gives is 'status', 'approve', 'reject' or 'none', never 'payment',
    and it gives no reference: a payment is then recognised by the words
    and patterns of the text alone, its reference comes from the cascade,
    and the reply that explains the reference formats is never sent. *)
Theorem fallback_never_asks_for_a_reference env cost_center_search reason_search m w :
  (forall st, resolved env m st
              = parse_fallback cost_center_search reason_search (Py.strip (content m))) ->
  let parsed := parse_fallback cost_center_search reason_search (Py.strip (content m)) in
  (intent_of parsed = "status" \/ intent_of parsed = "approve" \/
   intent_of parsed = "reject" \/ intent_of parsed = "none") /\
  p_transaction_id parsed = None /\
  extract_transaction_id parsed (Py.strip (content m))
  = first_match tx_patterns (Py.strip (content m)) /\
  exists evs,
    trace (handle_thread_message env m w).2 = trace w ++ evs /\
    ~ Exists is_guidance evs.
Proof.
  intros Hfall parsed.
  split; [apply fallback_intent_cases |]. split; [reflexivity |].
  split; [reflexivity |].
  destruct (handler_cases env m w) as [-> | (number & st & _ & ->)].
  - exists []. cbn. rewrite app_nil_r. split; [reflexivity |].
    intros H. inversion H.
  - destruct (route_guidance env m number st w) as (evs & Ht & Hg).
    exists evs. split; [exact Ht |]. intros Hex.
    destruct (Hg Hex) as (_ & Hi & _). rewrite Hfall in Hi.
    destruct (fallback_intent_cases cost_center_search reason_search
                (Py.strip (content m))) as [H | [H | [H | H]]];
      rewrite H in Hi; discriminate.
Qed.

Lemma fallback_never_asks_for_a_reference_witness :
  let env := Offline.env None in
  let m := Sample.message "payment done, will send the reference later" in
  let w := Sample.world Sample.approved in
  looks_like_payment "none" "payment done, will send the reference later" = true /\
  exists evs,
    trace (handle_thread_message env m w).2 = trace w ++ evs /\
    ~ Exists is_guidance evs.
Proof.
  intros env m w. split; [vm_compute; reflexivity |].
  destruct (fallback_never_asks_for_a_reference env (fun _ => None) (fun _ => None) m w)
    as (_ & _ & _ & H).
  - intros st. reflexivity.
  - exact H.
Defined.

Lemma approved_world env m st number cc w :
  chat_delivers env -> store_accepts env -> shutting_down w = false ->
  invoice_data st !! "Invoice Number" = Some number ->
  Py.truthy (Py.strip cc) = true ->
  let st' := approved_by m (Py.strip cc) st in
  invoice_states
    (process_approval_message env m ("APPROVE " +:+ cc) st "approved" w).2
  = insert_or_replace (key_of number) st' (invoice_states w).
Proof.
  intros Hchat Hdb Hup Hnum Ht st'.
  unfold process_approval_message, invoice_field.
  rewrite Hnum, lift_bind, approve_text, Ht.
  cbn [snd String.eqb Ascii.eqb Bool.eqb]. cbv iota.
  rewrite strip_rstrip. fold (approved_by m (Py.strip cc) st). fold st'.
  destruct (safe_send_delivered env (channel_id m) (approved_embed number st') w
              Hchat Hup) as [id Hsend].
  unfold bind at 1. rewrite Hsend.
  unfold bind at 1. rewrite (save_state_accepted _ _ _ _ Hdb).
  now rewrite keeps_update_spreadsheet_row.
Qed.

(** X26.  The fallback reads words, not sentences.  A text that holds
    'status' anywhere, in any case, is a status query whatever else it
    says: nothing is written and the ledger is not asked, also when the
    text names a payment with its hash.  A text without 'status' that
    holds 'approve' anywhere -- 'I do not approve' -- approves a pending
    record as soon as the cost-center search finds something in it. *)
Theorem fallback_reads_words_not_sentences
    env cost_center_search reason_search m w invoice_number st :
  reaches_record env w m invoice_number st ->
  resolved env m st
  = parse_fallback cost_center_search reason_search (Py.strip (content m)) ->
  let text := Py.lower (Py.strip (content m)) in
  let w' := (handle_thread_message env m w).2 in
  (Py.contains "status" text = true ->
   invoice_states w' = invoice_states w /\
   exists evs, trace w' = trace w ++ evs /\
               Forall (fun e => is_write e = false /\ is_request e = false) evs) /\
  (forall number cc,
     Py.contains "status" text = false -> Py.contains "approve" text = true ->
     approval_status st = "pending" ->
     cost_center_search (Py.strip (content m)) = Some cc ->
     Py.truthy (Py.strip cc) = true ->
     invoice_data st !! "Invoice Number" = Some number ->
     chat_delivers env -> store_accepts env ->
     invoice_states w'
     = insert_or_replace (key_of number) (approved_by m (Py.strip cc) st)
         (invoice_states w)).
Proof.
  intros Hreach Hfall text w'. split.
  - intros Hstatus.
    assert (Hrun : handle_thread_message env m w
                   = show_invoice_status env (channel_id m) st w).
    { rewrite (handler_routes _ _ _ _ _ Hreach).
      unfold route_message. fold (resolved env m st).
      rewrite Hfall, fallback_intent. fold text. now rewrite Hstatus. }
    subst w'. rewrite Hrun. split; [apply keeps_show_invoice_status |].
    unfold show_invoice_status.
    apply emits_bind; [apply emits_lift |]. intros number.
    apply emits_bind.
    { destruct (String.eqb (approval_status st) "pending"); [| apply emits_ret].
      apply emits_bind; [apply emits_lift | intros; apply emits_ret]. }
    intros remaining.
    apply emits_bind; [apply emits_safe_send; now split | intros; apply emits_ret].
  - intros number cc Hstatus Happrove Hpending Hcc Ht Hnum Hchat Hdb.
    assert (Htruthy : Py.truthy cc = true).
    { destruct cc; [discriminate | reflexivity]. }
    subst w'. rewrite (approve_route env w m invoice_number st cc Hreach Hpending).
    + destruct Hreach as (Hup & _ & _). now apply approved_world.
    + rewrite Hfall, fallback_intent. fold text. now rewrite Hstatus, Happrove.
    + rewrite Hfall. exact Hcc.
    + exact Htruthy.
Qed.

Lemma fallback_reads_words_not_sentences_witness :
  let env := Offline.env (Some "CC 4") in
  let m := Sample.message "I do not approve this, CC 4 has no budget" in
  let w := Sample.world Sample.pending in
  invoice_states (handle_thread_message env m w).2
  = insert_or_replace (Some "INV-1") (approved_by m "CC 4" Sample.pending)
      (invoice_states w).
Proof.
  intros env m w.
  destruct (fallback_reads_words_not_sentences env (fun _ => Some "CC 4")
              (fun _ => None) m w (Some "INV-1") Sample.pending)
    as (_ & Happrove).
  - repeat split; vm_compute; reflexivity.
  - reflexivity.
  - apply (Happrove (JStr "INV-1") "CC 4").
    + vm_compute; reflexivity.
    + vm_compute; reflexivity.
    + reflexivity.
    + reflexivity.
    + reflexivity.
    + vm_compute; reflexivity.
    + intros h. exists "9001". reflexivity.
    + intros h. reflexivity.
Defined.

(* ===================================================================== *)
(** * Further properties of the agent at work *)
(* ===================================================================== *)

(** ** What stays of a record *)

Lemma stays_refl st : stays st st.
Proof. repeat split. Qed.

Lemma stays_trans st1 st2 st3 : stays st1 st2 -> stays st2 st3 -> stays st1 st3.
Proof.
  intros (Hd & Ha & Hp) (Hd' & Ha' & Hp'). split; [congruence |]. split.
  - intros Hn. destruct (Ha Hn) as (A1 & A2 & A3 & A4).
    destruct Ha' as (B1 & B2 & B3 & B4); [congruence |].
    repeat split; congruence.
  - intros Hn. destruct (Hp Hn) as (A1 & A2 & A3).
    destruct Hp' as (B1 & B2 & B3); [congruence |].
    repeat split; congruence.
Qed.

Lemma respects_stays st st' : respects st st' -> stays st st'.
Proof.
  intros ((Hd & _) & _ & Ha & Hp). split; [exact Hd |]. split; assumption.
Qed.

Lemma bookkeeping_stays st st' : bookkeeping_only st st' -> stays st st'.
Proof.
  intros (Hd & _ & _ & _ & _ & Ha & Hp). split; [exact Hd |]. split; auto.
Qed.

Lemma filed_stays key st st' : stays st st' -> filed key st -> filed key st'.
Proof.
  intros (Hd & _) (number & Hnum & Hkey). exists number. now rewrite Hd.
Qed.

(** ** Tables with one row for each number *)

Lemma key_in_keys rows n st : In (Some n, st) rows -> n ∈ keys rows.
Proof.
  intros Hin. unfold keys. apply list_elem_of_omap.
  exists (Some n, st). split; [now apply list_elem_of_In | reflexivity].
Qed.

Lemma load_the_row rows n st :
  NoDup (keys rows) -> In (Some n, st) rows -> load_state rows n = Some st.
Proof.
  unfold load_state. induction rows as [| [k s] rows IH]; intros Hnd Hin; [destruct Hin |].
  cbn [List.find fst]. destruct (bool_decide (k = Some n)) eqn:Hk.
  - apply bool_decide_eq_true_1 in Hk. subst k.
    destruct Hin as [[= ->] | Hin]; [reflexivity |].
    unfold keys in Hnd. cbn in Hnd. apply NoDup_cons in Hnd as [Hnot _].
    exfalso. apply Hnot. exact (key_in_keys rows n st Hin).
  - apply bool_decide_eq_false_1 in Hk.
    destruct Hin as [[= -> _] | Hin]; [now contradiction Hk |].
    apply IH; [| exact Hin].
    unfold keys in *. destruct k; cbn in Hnd; [| exact Hnd].
    now apply NoDup_cons in Hnd as [_ Hnd].
Qed.

Lemma load_null_key st' rows n :
  load_state (insert_or_replace None st' rows) n = load_state rows n.
Proof.
  unfold load_state, insert_or_replace. rewrite find_app_first.
  now destruct (List.find _ rows).
Qed.

Lemma insert_keeps_distinct key st' rows :
  NoDup (keys rows) -> NoDup (keys (insert_or_replace key st' rows)).
Proof.
  intros Hnd. unfold insert_or_replace, keys. destruct key as [k |].
  - rewrite omap_app. apply NoDup_app. split; [now apply keys_filter_NoDup |].
    split; [| apply NoDup_singleton].
    intros x Hx Hin. cbn in Hin. apply list_elem_of_singleton in Hin. subst x.
    exact (keys_filter_out rows k Hx).
  - rewrite omap_app. cbn. now rewrite app_nil_r.
Qed.

Lemma insert_keeps_sound key st' rows :
  sound rows -> filed key st' -> sound (insert_or_replace key st' rows).
Proof.
  intros [Hnd Hfiled] Hnew. split; [now apply insert_keeps_distinct |].
  intros k st Hin. apply in_insert_or_replace in Hin as [Hin | [= -> ->]]; auto.
Qed.

Lemma outlasts_refl rows : outlasts rows rows.
Proof. intros n st H. exists st. split; [exact H | apply stays_refl]. Qed.

Lemma outlasts_trans rows1 rows2 rows3 :
  outlasts rows1 rows2 -> outlasts rows2 rows3 -> outlasts rows1 rows3.
Proof.
  intros H12 H23 n st H. destruct (H12 n st H) as (st2 & H2 & Hs2).
  destruct (H23 n st2 H2) as (st3 & H3 & Hs3).
  exists st3. split; [exact H3 | now apply stays_trans with st2].
Qed.

Lemma insert_outlasts key st' rows :
  (forall n st, key = Some n -> load_state rows n = Some st -> stays st st') ->
  outlasts rows (insert_or_replace key st' rows).
Proof.
  intros Hfit n st Hload. destruct key as [k |].
  - destruct (decide (n = k)) as [-> | Hne].
    + exists st'. split; [apply load_after_insert | now apply (Hfit k)].
    + exists st. rewrite load_other_key by exact Hne.
      split; [exact Hload | apply stays_refl].
  - exists st. rewrite load_null_key. split; [exact Hload | apply stays_refl].
Qed.

Lemma insert_frame key st' rows n :
  key <> Some n -> load_state (insert_or_replace key st' rows) n = load_state rows n.
Proof.
  intros Hne. destruct key as [k |]; [| apply load_null_key].
  apply load_other_key. congruence.
Qed.

(** A write of a record that comes from the row under its key. *)
Lemma insert_tends key st' rows :
  sound rows -> aligned rows key st' ->
  sound (insert_or_replace key st' rows) /\
  outlasts rows (insert_or_replace key st' rows) /\
  aligned (insert_or_replace key st' rows) key st'.
Proof.
  intros Hsound [Hfiled Hrow]. split; [now apply insert_keeps_sound |]. split.
  - apply insert_outlasts. intros n st -> Hload.
    destruct (Hrow n eq_refl) as (st0 & Hl & Hs). congruence.
  - split; [exact Hfiled |]. intros n ->. exists st'.
    split; [apply load_after_insert | apply stays_refl].
Qed.

Lemma aligned_stays rows key st st' :
  aligned rows key st -> stays st st' -> aligned rows key st'.
Proof.
  intros [Hfiled Hrow] Hs. split; [now apply filed_stays with st |].
  intros n Hk. destruct (Hrow n Hk) as (st0 & Hl & Hs0).
  exists st0. split; [exact Hl | now apply stays_trans with st].
Qed.

Lemma aligned_row rows key st : sound rows -> In (key, st) rows -> aligned rows key st.
Proof.
  intros [Hnd Hfiled] Hin. split; [now apply Hfiled |].
  intros n ->. exists st. split; [now apply load_the_row | apply stays_refl].
Qed.

Lemma aligned_frame rows rows' key st :
  (forall n, key = Some n -> load_state rows' n = load_state rows n) ->
  aligned rows key st -> aligned rows' key st.
Proof.
  intros Hframe [Hfiled Hrow]. split; [exact Hfiled |].
  intros n Hk. rewrite (Hframe n Hk). now apply Hrow.
Qed.

(** ** One write *)

Lemma save_state_table env key st w :
  (invoice_states (save_state env key st w).2 = invoice_states w /\
   exists e, (save_state env key st w).1 = Raise e) \/
  (invoice_states (save_state env key st w).2
   = insert_or_replace key st (invoice_states w) /\
   (save_state env key st w).1 = Ret tt).
Proof.
  unfold save_state. cbn [save_state_loop].
  destruct (db_execute env _) as [[] | e]; [right; split; reflexivity |].
  left. destruct e; cbn; eauto.
  destruct (_ || _); cbn; eauto.
Qed.

Lemma once_keeps {A} G (c : M A) : keeps_table c -> writes_once G c.
Proof. intros Hc w. left. apply Hc. Qed.

Lemma once_save_state G env key st :
  G key st -> writes_once G (save_state env key st).
Proof.
  intros HG w. destruct (save_state_table env key st w) as [[H _] | [H _]];
    [now left | right; eauto].
Qed.

Lemma once_after {A B} G (c : M A) (f : A -> M B) :
  keeps_table c -> (forall a, writes_once G (f a)) -> writes_once G (bind c f).
Proof.
  intros Hc Hf w. unfold bind. specialize (Hc w).
  destruct (c w) as [[a | e] w1]; cbn in Hc; [| now left].
  rewrite <- Hc. apply Hf.
Qed.

Lemma once_before {A B} G (c : M A) (f : A -> M B) :
  writes_once G c -> (forall a, keeps_table (f a)) -> writes_once G (bind c f).
Proof.
  intros Hc Hf w. unfold bind. specialize (Hc w).
  destruct (c w) as [[a | e] w1]; cbn in Hc; [| exact Hc].
  now rewrite (Hf a w1).
Qed.

Lemma once_after_lift {A B} G (o : outcome A) (f : A -> M B) :
  (forall a, o = Ret a -> writes_once G (f a)) -> writes_once G (bind (lift o) f).
Proof.
  intros Hf w. unfold bind, lift. destruct o as [a | e]; [now apply Hf | now left].
Qed.

Lemma tends_here {A} key (c : M A) w :
  sound (invoice_states w) -> invoice_states (c w).2 = invoice_states w -> tends key c w.
Proof.
  intros Hsound Hsame. unfold tends. rewrite Hsame.
  split; [exact Hsound |]. split; [apply outlasts_refl | reflexivity].
Qed.

Lemma once_tends {A} G (c : M A) key w :
  sound (invoice_states w) -> writes_once G c ->
  (forall k s, G k s -> k = key /\ aligned (invoice_states w) key s) ->
  tends key c w.
Proof.
  intros Hsound Hc HG. destruct (Hc w) as [Hsame | (k & s & Hks & Hrows)];
    [now apply tends_here |].
  destruct (HG k s Hks) as [-> Hal]. unfold tends. rewrite Hrows.
  destruct (insert_tends key s _ Hsound Hal) as (H1 & H2 & _).
  split; [exact H1 |]. split; [exact H2 |]. intros n Hne. now apply insert_frame.
Qed.

(** ** A message *)

Lemma find_state_sound w thread key st :
  find_state w thread = Some (key, st) -> In (key, st) (invoice_states w).
Proof.
  unfold find_state. intros Hfind.
  destruct (thread_map w !! thread) as [[number |] |].
  - destruct (Py.truthy number).
    + destruct (load_state _ number) as [st0 |] eqn:Hl; [| discriminate].
      injection Hfind as <- <-. now apply load_state_sound.
    + now apply scan_thread_sound in Hfind as [Hin _].
  - now apply scan_thread_sound in Hfind as [Hin _].
  - now apply scan_thread_sound in Hfind as [Hin _].
Qed.

Lemma once_reply G env channel p :
  writes_once G (run safe_send env channel p then ret tt).
Proof.
  apply once_keeps, keeps_bind; [apply keeps_safe_send | intros; apply keeps_ret].
Qed.

Lemma once_write_then_report G env key st' channel p :
  G key st' ->
  writes_once G
    (run save_state env key st' then
     run update_spreadsheet_row env st' then
     run safe_send env channel p then ret tt).
Proof.
  intros HG. apply once_before; [now apply once_save_state |].
  intros _. apply keeps_bind; [apply keeps_update_spreadsheet_row |].
  intros _. apply keeps_bind; [apply keeps_safe_send | intros; apply keeps_ret].
Qed.

Lemma once_process_approval_message env m text st decision :
  approval_status st = "pending" ->
  writes_once
    (fun key st' => respects st st' /\
                    exists number, invoice_data st !! "Invoice Number" = Some number /\
                                   key = key_of number)
    (process_approval_message env m text st decision).
Proof.
  intros Hp. unfold process_approval_message.
  apply once_after_lift. intros number Hnum.
  assert (Hnumber : invoice_data st !! "Invoice Number" = Some number).
  { unfold invoice_field in Hnum.
    destruct (invoice_data st !! "Invoice Number"); congruence. }
  assert (Hsave : forall st',
            same_identity st st' -> same_payment st st' ->
            writes_once
              (fun key st' => respects st st' /\
                 exists number, invoice_data st !! "Invoice Number" = Some number /\
                                key = key_of number)
              (run save_state env (key_of number) st' then
               update_spreadsheet_row env st')).
  { intros st' Hid Hpay. apply once_before.
    - apply once_save_state. split; [now apply respects_approval | eauto].
    - intros _. apply keeps_update_spreadsheet_row. }
  destruct (String.eqb decision "approved").
  - destruct (Py.split_space1 (Py.strip text)).2.
    + apply once_after; [apply keeps_safe_send |].
      intros _. apply Hsave; repeat split.
    + apply once_reply.
  - destruct (String.eqb decision "rejected").
    + apply once_after; [apply keeps_safe_send |].
      intros _. destruct (Py.split_space1 (Py.strip text)).2;
        apply Hsave; repeat split.
    + apply Hsave; repeat split.
Qed.

Lemma once_handle_payment env m invoice_number st parsed intent raw :
  payment_status st = "pending" ->
  writes_once (fun key st' => respects st st' /\ key = invoice_number)
    (handle_payment env m invoice_number st parsed intent raw).
Proof.
  intros Hp.
  assert (Hnone : writes_once (fun key st' => respects st st' /\ key = invoice_number)
                    (@ret unit tt)) by apply once_keeps, keeps_ret.
  assert (Hguide : writes_once (fun key st' => respects st st' /\ key = invoice_number)
                     (send_format_guidance env m intent)).
  { unfold send_format_guidance. destruct (String.eqb intent "payment");
      [apply once_reply | exact Hnone]. }
  unfold handle_payment.
  destruct (looks_like_payment intent raw); [| exact Hnone].
  destruct (_ && _); [apply once_reply |].
  destruct (extract_transaction_id parsed raw) as [tid |]; [| exact Hguide].
  destruct (Py.truthy tid); [| exact Hguide].
  destruct (bool_decide _).
  - unfold record_verified_payment.
    apply once_after; [apply keeps_check_transaction_success |]. intros success.
    apply once_after; [apply keeps_get_transaction_amount_eth |]. intros amount.
    apply once_write_then_report. split; [| reflexivity].
    apply respects_payment; [exact Hp | |]; repeat split.
  - unfold record_trusted_payment.
    apply once_write_then_report. split; [| reflexivity].
    apply respects_payment; [exact Hp | |]; repeat split.
Qed.

Lemma once_route_message env m invoice_number st :
  writes_once
    (fun key st' =>
       respects st st' /\
       (key = invoice_number \/
        exists number, invoice_data st !! "Invoice Number" = Some number /\
                       key = key_of number))
    (route_message env m invoice_number st).
Proof.
  set (G := fun key st' =>
       respects st st' /\
       (key = invoice_number \/
        exists number, invoice_data st !! "Invoice Number" = Some number /\
                       key = key_of number)).
  assert (Happ : forall text decision,
            approval_status st = "pending" ->
            writes_once G (process_approval_message env m text st decision)).
  { intros text decision Hp w.
    destruct (once_process_approval_message env m text st decision Hp w)
      as [H | (k & s & [Hr Hk] & H)]; [now left |].
    right. exists k, s. split; [split; [exact Hr | now right] | exact H]. }
  assert (Hpay : forall parsed intent raw,
            payment_status st = "pending" ->
            writes_once G (handle_payment env m invoice_number st parsed intent raw)).
  { intros parsed intent raw Hp w.
    destruct (once_handle_payment env m invoice_number st parsed intent raw Hp w)
      as [H | (k & s & [Hr Hk] & H)]; [now left |].
    right. exists k, s. split; [split; [exact Hr | now left] | exact H]. }
  unfold route_message.
  destruct (String.eqb _ "status");
    [apply once_keeps, keeps_show_invoice_status |].
  destruct (negb _ && _); [apply once_reply |].
  destruct (String.eqb (approval_status st) "pending") eqn:Ha.
  - apply String.eqb_eq in Ha. cbn [andb].
    destruct (String.eqb _ "approve"); [now apply Happ |].
    destruct (String.eqb _ "reject"); [now apply Happ |].
    destruct (String.eqb (payment_status st) "pending") eqn:Hp;
      [| apply once_keeps, keeps_ret].
    apply String.eqb_eq in Hp. now apply Hpay.
  - cbn [andb].
    destruct (String.eqb (payment_status st) "pending") eqn:Hp;
      [| apply once_keeps, keeps_ret].
    apply String.eqb_eq in Hp. now apply Hpay.
Qed.

Lemma message_tends env m w :
  sound (invoice_states w) ->
  sound (invoice_states (handle_thread_message env m w).2) /\
  outlasts (invoice_states w) (invoice_states (handle_thread_message env m w).2).
Proof.
  intros Hsound.
  destruct (handler_cases env m w) as [-> | (key & st & (_ & Hfind & _) & ->)].
  - split; [exact Hsound | apply outlasts_refl].
  - apply find_state_sound in Hfind.
    pose proof (aligned_row _ _ _ Hsound Hfind) as Hal.
    destruct (once_tends _ (route_message env m key st) key w Hsound
                (once_route_message env m key st)) as (H1 & H2 & _); [| auto].
    intros k s [Hr Hk]. split.
    + destruct Hk as [-> | (number & Hnum & ->)]; [reflexivity |].
      destruct Hal as [(number' & Hnum' & Hkey) _]. congruence.
    + apply aligned_stays with st; [exact Hal | now apply respects_stays].
Qed.

(** ** A run of the reminder loop *)

Lemma keeps_post_sla_message env thread embed st :
  keeps_table (post_sla_message env thread embed st).
Proof.
  unfold post_sla_message. apply keeps_bind; [apply keeps_safe_send |].
  intros [id |]; [apply keeps_ret | apply keeps_raise].
Qed.

Lemma keeps_post_or_update_sla_message env get_channel edit_message st :
  keeps_table (post_or_update_sla_message env get_channel edit_message st).
Proof.
  unfold post_or_update_sla_message.
  destruct (negb _); [apply keeps_ret |].
  destruct (negb _); [apply keeps_ret |].
  apply keeps_bind; [apply keeps_lift |]. intros [thread |]; [| apply keeps_ret].
  apply keeps_bind; [apply keeps_lift |]. intros r.
  apply keeps_bind; [apply keeps_lift |]. intros number.
  apply keeps_try_except; [| intros; apply keeps_ret].
  apply keeps_bind; [| intros; apply keeps_ret].
  destruct (Py.truthy_opt (sla_message_id st)); [| apply keeps_post_sla_message].
  apply keeps_try_except; [| intros; apply keeps_post_sla_message].
  intros w. now destruct (edit_message _ _ _ _).
Qed.

Lemma once_remind_if_due env get_channel isoformat key st :
  writes_once (fun k s => k = key /\ bookkeeping_only st s)
    (remind_if_due env get_channel isoformat key st).
Proof.
  assert (Hremind : forall count,
            writes_once (fun k s => k = key /\ bookkeeping_only st s)
              (remind env get_channel isoformat key st count)).
  { intros count. unfold remind. apply once_after; [apply keeps_send_reminder |].
    intros _. apply once_save_state. split; [reflexivity | repeat split]. }
  unfold remind_if_due.
  destruct (Py.truthy_opt (last_reminder st)).
  - apply once_after; [apply keeps_lift |]. intros last.
    destruct (reminder_due env last); [apply Hremind | apply once_keeps, keeps_ret].
  - destruct (reminder_count st =? 0); [| apply once_keeps, keeps_ret].
    apply once_after; [apply keeps_lift |]. intros created.
    destruct (reminder_due env created); [apply Hremind | apply once_keeps, keeps_ret].
Qed.

Lemma remind_if_due_tends env get_channel isoformat key st w :
  sound (invoice_states w) -> aligned (invoice_states w) key st ->
  tends key (remind_if_due env get_channel isoformat key st) w.
Proof.
  intros Hsound Hal.
  apply once_tends with (G := fun k s => k = key /\ bookkeeping_only st s);
    [exact Hsound | apply once_remind_if_due |].
  intros k s [-> Hb]. split; [reflexivity |].
  apply aligned_stays with st; [exact Hal | now apply bookkeeping_stays].
Qed.

Lemma reminder_row_tends env get_channel edit_message isoformat key st w :
  sound (invoice_states w) -> aligned (invoice_states w) key st ->
  tends key (reminder_row env get_channel edit_message isoformat (key, st)) w.
Proof.
  intros Hsound Hal.
  pose proof (keeps_post_or_update_sla_message env get_channel edit_message st w)
    as Hkeep.
  destruct (yields_post_or_update_sla_message env get_channel edit_message
              (fun _ => True) st (fun _ _ => I) w) as (_ & _ & _ & Hres).
  unfold tends, reminder_row, bind. cbn [fst snd].
  destruct (post_or_update_sla_message env get_channel edit_message st w)
    as [[updated | e] w1]; cbn [fst snd] in Hkeep, Hres.
  2:{ cbn [snd]. rewrite Hkeep.
      split; [exact Hsound |]. split; [apply outlasts_refl | reflexivity]. }
  rewrite <- Hkeep in Hsound, Hal. rewrite <- Hkeep. clear Hkeep.
  destruct updated as [st1 |].
  - specialize (Hres st1 eq_refl).
    assert (Hal1 : aligned (invoice_states w1) key st1).
    { apply aligned_stays with st; [exact Hal | now apply bookkeeping_stays]. }
    destruct (save_state_table env key st1 w1) as [[Hsame [e He]] | [Hrows Hret]].
    + destruct (save_state env key st1 w1) as [[[] | e'] w2]; cbn [fst snd] in *;
        [discriminate |].
      rewrite Hsame. split; [exact Hsound |].
      split; [apply outlasts_refl | reflexivity].
    + destruct (save_state env key st1 w1) as [[[] | e'] w2]; cbn [fst snd] in *;
        [| discriminate].
      cbn [ret].
      destruct (insert_tends key st1 _ Hsound Hal1) as (Hs2 & Ho2 & Hal2).
      rewrite <- Hrows in Hs2, Ho2, Hal2.
      destruct (remind_if_due_tends env get_channel isoformat key st1 w2 Hs2 Hal2)
        as (Hs3 & Ho3 & Hf3).
      split; [exact Hs3 |]. split.
      * now apply outlasts_trans with (invoice_states w2).
      * intros n Hne. rewrite (Hf3 n Hne), Hrows. now apply insert_frame.
  - cbn [ret]. now apply remind_if_due_tends.
Qed.

Lemma reminder_rows_tend env get_channel edit_message isoformat todo :
  forall w,
    sound (invoice_states w) ->
    NoDup (keys todo) ->
    (forall key st, In (key, st) todo -> aligned (invoice_states w) key st) ->
    sound (invoice_states
             (reminder_rows env get_channel edit_message isoformat todo w).2) /\
    outlasts (invoice_states w)
      (invoice_states (reminder_rows env get_channel edit_message isoformat todo w).2).
Proof.
  induction todo as [| [key st] rest IH]; intros w Hsound Hnd Hal.
  - split; [exact Hsound | apply outlasts_refl].
  - cbn [reminder_rows].
    destruct (reminder_row_tends env get_channel edit_message isoformat key st w
                Hsound (Hal key st (or_introl eq_refl))) as (Hs1 & Ho1 & Hf1).
    unfold bind.
    destruct (reminder_row env get_channel edit_message isoformat (key, st) w)
      as [[[] | e] w1]; cbn [fst snd] in *; [| now split].
    destruct (IH w1 Hs1) as (Hs2 & Ho2).
    + unfold keys in *. destruct key; cbn in Hnd; [| exact Hnd].
      now apply NoDup_cons in Hnd as [_ Hnd].
    + intros k s Hin. apply aligned_frame with (invoice_states w);
        [| apply Hal; now right].
      intros n ->. apply Hf1. intros ->.
      unfold keys in Hnd. cbn in Hnd. apply NoDup_cons in Hnd as [Hnot _].
      apply Hnot. exact (key_in_keys rest n s Hin).
    + split; [exact Hs2 | now apply outlasts_trans with (invoice_states w1)].
Qed.

Lemma reminders_tend env get_channel edit_message isoformat like_pending w :
  sound (invoice_states w) ->
  sound (invoice_states
           (reminder_task env get_channel edit_message isoformat like_pending w).2) /\
  outlasts (invoice_states w)
    (invoice_states
       (reminder_task env get_channel edit_message isoformat like_pending w).2).
Proof.
  intros Hsound. unfold reminder_task, try_except.
  set (todo := List.filter (fun row => like_pending row.2) (invoice_states w)).
  destruct (reminder_rows_tend env get_channel edit_message isoformat todo w Hsound)
    as (Hs & Ho).
  - apply keys_filter_NoDup. apply Hsound.
  - intros key st Hin. apply aligned_row; [exact Hsound |].
    subst todo. now apply List.filter_In in Hin as [Hin _].
  - destruct (reminder_rows env get_channel edit_message isoformat todo w)
      as [[[] | e] w1]; now split.
Qed.

(** X27.  Over any serial execution of the agent -- messages handled and
    runs of the reminder loop, in any number and order, each ended
    before the next begins -- a table with one row for each invoice
    number, every record under its own number, stays such a table, and
    no record is lost: each is still there under its number, with the
    same payload, and with its approval side and its payment side
    unchanged from the moment they left 'pending'.  Nothing is said of
    executions in which a handler and the reminder loop are interleaved
    at their [await]s: the source takes no lock, and a record read
    before another step's write can be written back after it. *)
Theorem settled_sides_are_final
    env get_channel edit_message isoformat like_pending w w' :
  sound (invoice_states w) ->
  runs env get_channel edit_message isoformat like_pending w w' ->
  sound (invoice_states w') /\ outlasts (invoice_states w) (invoice_states w').
Proof.
  intros Hsound Hruns. induction Hruns as [w | w w1 w2 Hstep _ IH].
  - split; [exact Hsound | apply outlasts_refl].
  - assert (H1 : sound (invoice_states w1) /\
                 outlasts (invoice_states w) (invoice_states w1)).
    { destruct Hstep as [m w | w];
        [now apply message_tends | now apply reminders_tend]. }
    destruct H1 as [Hs1 Ho1]. destruct (IH Hs1) as [Hs2 Ho2].
    split; [exact Hs2 | now apply outlasts_trans with (invoice_states w1)].
Qed.

Lemma settled_sides_are_final_witness :
  let env := Sample.env (mkParsed (Some "approve") (Some "CC-42") None None)
               Sample.offline Sample.offline in
  let w := Sample.world Sample.pending in
  let w1 := (handle_thread_message env (Sample.message "approve CC-42") w).2 in
  let w2 := (reminder_task env Tick.get_channel Tick.edit_message Tick.isoformat
               Tick.like_pending w1).2 in
  let w3 := (handle_thread_message env (Sample.message "approve CC-43") w2).2 in
  sound (invoice_states w3) /\ outlasts (invoice_states w) (invoice_states w3).
Proof.
  intros env w w1 w2 w3.
  apply (settled_sides_are_final env Tick.get_channel Tick.edit_message
           Tick.isoformat Tick.like_pending w w3).
  - split.
    + vm_compute. apply NoDup_singleton.
    + intros key st [[= <- <-] | []]. exists (JStr "INV-1").
      split; vm_compute; reflexivity.
  - apply runs_on with w1; [apply step_message |].
    apply runs_on with w2; [apply step_reminders |].
    apply runs_on with w3; [apply step_message |].
    apply runs_here.
Defined.

(** ** What a run of the reminder loop costs *)

Lemma within_post_sla_message env thread embed st :
  within 1 0 0 0 (post_sla_message env thread embed st).
Proof.
  unfold post_sla_message.
  apply (within_bind 1 0 0 0 0 0 0 0); [apply within_safe_send |].
  intros [id |]; [apply within_ret | apply within_raise].
Qed.

Lemma within_post_or_update_sla_message env get_channel edit_message st :
  within 1 0 0 0 (post_or_update_sla_message env get_channel edit_message st).
Proof.
  assert (Hnone : within 1 0 0 0 (@ret (option InvoiceState) None)).
  { apply within_weaken with 0%nat 0%nat 0%nat 0%nat; try lia. apply within_ret. }
  unfold post_or_update_sla_message.
  destruct (negb _); [exact Hnone |].
  destruct (negb _); [exact Hnone |].
  apply (within_bind 0 0 0 0 1 0 0 0); [apply within_lift |].
  intros [thread |]; [| exact Hnone].
  apply (within_bind 0 0 0 0 1 0 0 0); [apply within_lift |]. intros r.
  apply (within_bind 0 0 0 0 1 0 0 0); [apply within_lift |]. intros number.
  apply (within_try_except 1 0 0 0 0 0 0 0); [| intros; apply within_ret].
  apply (within_bind 1 0 0 0 0 0 0 0); [| intros; apply within_ret].
  destruct (Py.truthy_opt (sla_message_id st)); [| apply within_post_sla_message].
  apply (within_try_except 0 0 0 0 1 0 0 0); [| intros; apply within_post_sla_message].
  intros w. exists []. rewrite app_nil_r.
  destruct (edit_message _ _ _ _); (split; [reflexivity | apply no_more_than_nil]).
Qed.

Lemma within_send_reminder env get_channel st :
  within 1 0 0 0 (send_reminder env get_channel st).
Proof.
  assert (Hnone : within 1 0 0 0 (@ret unit tt)).
  { apply within_weaken with 0%nat 0%nat 0%nat 0%nat; try lia. apply within_ret. }
  unfold send_reminder.
  destruct (discord_thread_id st) as [thread_id |].
  2:{ apply within_weaken with 0%nat 0%nat 0%nat 0%nat; try lia. apply within_raise. }
  apply (within_bind 0 0 0 0 1 0 0 0); [apply within_lift |].
  intros [thread |]; [| exact Hnone].
  apply (within_bind 0 0 0 0 1 0 0 0); [apply within_lift |]. intros number.
  apply (within_bind 0 0 0 0 1 0 0 0); [apply within_lift |]. intros r.
  apply within_reply.
Qed.

Lemma within_remind_if_due env get_channel isoformat key st :
  within 1 1 0 0 (remind_if_due env get_channel isoformat key st).
Proof.
  assert (Hnone : within 1 1 0 0 (@ret unit tt)).
  { apply within_weaken with 0%nat 0%nat 0%nat 0%nat; try lia. apply within_ret. }
  assert (Hremind : forall count,
            within 1 1 0 0 (remind env get_channel isoformat key st count)).
  { intros count. unfold remind.
    apply (within_bind 1 0 0 0 0 1 0 0);
      [apply within_send_reminder | intros; apply within_save_state]. }
  unfold remind_if_due.
  destruct (Py.truthy_opt (last_reminder st)).
  - apply (within_bind 0 0 0 0 1 1 0 0); [apply within_lift |]. intros last.
    destruct (reminder_due env last); [apply Hremind | exact Hnone].
  - destruct (reminder_count st =? 0); [| exact Hnone].
    apply (within_bind 0 0 0 0 1 1 0 0); [apply within_lift |]. intros created.
    destruct (reminder_due env created); [apply Hremind | exact Hnone].
Qed.

Lemma within_reminder_row env get_channel edit_message isoformat row :
  within 2 2 0 0 (reminder_row env get_channel edit_message isoformat row).
Proof.
  unfold reminder_row.
  apply (within_bind 1 0 0 0 1 2 0 0);
    [apply within_post_or_update_sla_message |]. intros updated.
  apply (within_bind 0 1 0 0 1 1 0 0); [| intros; apply within_remind_if_due].
  destruct updated as [st' |].
  - apply (within_bind 0 1 0 0 0 0 0 0);
      [apply within_save_state | intros; apply within_ret].
  - apply within_weaken with 0%nat 0%nat 0%nat 0%nat; try lia. apply within_ret.
Qed.

Lemma within_reminder_rows env get_channel edit_message isoformat todo :
  within (2 * length todo) (2 * length todo) 0 0
    (reminder_rows env get_channel edit_message isoformat todo).
Proof.
  induction todo as [| row rest IH]; [apply within_ret |].
  cbn [reminder_rows length].
  apply within_weaken
    with (2 + 2 * length rest)%nat (2 + 2 * length rest)%nat (0 + 0)%nat (0 + 0)%nat;
    try lia.
  apply within_bind; [apply within_reminder_row | intros; exact IH].
Qed.

(** X28.  One run of the reminder loop makes at most two sends and two writes
    for each row the store selected -- the SLA message and the reminder,
    and the write after each -- and no send or write for any other row;
    it never asks the ledger and never touches the spreadsheet. *)
Theorem a_run_costs_two_sends_a_row
    env get_channel edit_message isoformat like_pending w :
  let selected := List.filter (fun row => like_pending row.2) (invoice_states w) in
  exists evs,
    trace (reminder_task env get_channel edit_message isoformat like_pending w).2
    = trace w ++ evs /\
    no_more_than (2 * length selected) (2 * length selected) 0 0 evs /\
    (selected = [] -> evs = []).
Proof.
  intros selected. unfold reminder_task, try_except. fold selected.
  destruct (within_reminder_rows env get_channel edit_message isoformat selected w)
    as (evs & Ht & Hn).
  exists evs. split; [| split; [exact Hn |]].
  - destruct (reminder_rows _ _ _ _ selected w) as [[[] | e] w1]; exact Ht.
  - intros Hnil. rewrite Hnil in Ht. cbn in Ht.
    rewrite <- (app_nil_r (trace w)) in Ht at 1. now apply app_inv_head in Ht.
Qed.
